(** * The git middleware of wish (git/git.go), embedded in Rocq

    The middleware is a sequential program whose every observable step is a
    call on something outside of it: the Auth implementation, the operating
    system, a git subprocess, the go-git library, the ssh session, the logger,
    the push callback.  The embedding keeps that shape: a program is a finite
    tree of such calls ([Prog]), the environment answers each call
    ([Handler]), and running a program yields its result together with the
    ordered list of the calls it made. *)

From Stdlib Require Import ZArith List Bool Lia.
From Stdlib Require Import Strings.String Strings.Ascii.
Import ListNotations.
Open Scope string_scope.
Open Scope Z_scope.

(** ** Data of the package *)

(** [type AccessLevel int] with its four [iota] constants. *)
Inductive AccessLevel : Type :=
| NoAccess
| ReadOnlyAccess
| ReadWriteAccess
| AdminAccess.

(** Go [error] values.  The package declares two of its own; go-git's
    [plumbing.ErrReferenceNotFound] is compared by identity in
    [ensureDefaultBranch]; [os.IsNotExist] singles out one class of system
    errors in [fileExists].  Every other error is carried with its message. *)
Inductive error : Type :=
| ErrNotAuthed
| ErrSystemMalfunction
| ErrReferenceNotFound
| ErrNotExist (msg : string)
| ErrOther (msg : string).

(** [err.Error()] *)
Definition Error (e : error) : string :=
  match e with
  | ErrNotAuthed => "you are not authorized to do this"
  | ErrSystemMalfunction => "something went wrong"
  | ErrReferenceNotFound => "reference not found"
  | ErrNotExist msg => msg
  | ErrOther msg => msg
  end.

(** [os.IsNotExist(err)] *)
Definition IsNotExist (e : error) : bool :=
  match e with
  | ErrNotExist _ => true
  | _ => false
  end.

(** [err == plumbing.ErrReferenceNotFound] *)
Definition isErrReferenceNotFound (e : error) : bool :=
  match e with
  | ErrReferenceNotFound => true
  | _ => false
  end.

(** An [ssh.PublicKey] is an interface value: [None] is the nil key of an
    anonymous session, [Some k] a key given by its marshalled bytes. *)
Definition PublicKey : Type := option string.

(** What the middleware reads from an [ssh.Session]: [s.Command()] and
    [s.PublicKey()].  Writing to the session and exiting it are calls. *)
Record Session : Type := mkSession {
  Command : list string;
  SessionPublicKey : PublicKey
}.

(** An [exec.Cmd] as the code fills it in: the program name and arguments
    given to [exec.CommandContext], the working directory [Dir] (empty when
    left unset), and whether [Stdin] and [Stdout] are the session. *)
Record Cmd : Type := mkCmd {
  Name : string;
  Args : list string;
  Dir : string;
  SessionIO : bool
}.

(** Handles of go-git objects and a reference with its full name. *)
Inductive Repository : Type := RepositoryAt (id : string).
Inductive ReferenceIter : Type := IterOver (id : string).
Record Reference : Type := mkReference { RefName : string }.

(** The two capabilities the embedding application hands to the middleware
    are function values of the host program: an [Auth] implementation and a
    [PushCallback].  The middleware can only call them. *)
Inductive Auth : Type := AuthImpl (id : nat).
Inductive PushCallback : Type := CallbackFn (id : nat).

(** ** Calls on the environment *)

Inductive Ev : Type -> Type :=
| AuthRepoE (auth : Auth) (repo : string) (pk : PublicKey) : Ev AccessLevel
| StatE (path : string) : Ev (option error)
| MkdirAllE (path : string) (perm : Z) : Ev (option error)
| CmdRunE (c : Cmd) : Ev (option error)
| PlainOpenE (path : string) : Ev (error + Repository)
| BranchesE (r : Repository) : Ev (error + ReferenceIter)
| IterNextE (it : ReferenceIter) : Ev (error + Reference)
| IterCloseE (it : ReferenceIter) : Ev unit
| HeadE (r : Repository) : Ev (error + Reference)
| SessionWriteE (bytes : string) : Ev unit
| SessionExitE (code : Z) : Ev unit
| LogPrintfE (line : string) : Ev unit
| PushCallbackE (cb : PushCallback) (repo : string) (pk : PublicKey) : Ev unit.

(** A call without its answer, as it appears in a trace. *)
Definition Action : Type := { X : Type & Ev X }.
Definition act {X : Type} (e : Ev X) : Action := existT Ev X e.

(** ** Programs *)

Inductive Prog (A : Type) : Type :=
| Ret (a : A)
| Vis (X : Type) (e : Ev X) (k : X -> Prog A).
Arguments Ret {A} a.
Arguments Vis {A X} e k.

Fixpoint bind {A B : Type} (p : Prog A) (f : A -> Prog B) : Prog B :=
  match p with
  | Ret a => f a
  | Vis e k => Vis e (fun x => bind (k x) f)
  end.

Definition call {X : Type} (e : Ev X) : Prog X := Vis e Ret.

Declare Scope prog_scope.
Delimit Scope prog_scope with prog.
Notation "x <- p ;; q" := (bind p (fun x => q))
  (at level 61, p at next level, right associativity) : prog_scope.
Notation "' pat <- p ;; q" := (bind p (fun x => match x with pat => q end))
  (at level 61, pat pattern, p at next level, right associativity)
  : prog_scope.
Notation "p ;; q" := (bind p (fun _ => q))
  (at level 61, right associativity) : prog_scope.
Open Scope prog_scope.

(** The environment: a state of its own and an answer to every call. *)
Definition Handler (W : Type) : Type := forall X : Type, Ev X -> W -> X * W.

Fixpoint run {W A : Type} (h : Handler W) (p : Prog A) (w : W)
  : A * W * list Action :=
  match p with
  | Ret a => (a, w, [])
  | Vis e k =>
      let '(x, w1) := h _ e w in
      let '(a, w2, tr) := run h (k x) w1 in
      (a, w2, act e :: tr)
  end.

Definition result {W A : Type} (r : A * W * list Action) : A := fst (fst r).
Definition world {W A : Type} (r : A * W * list Action) : W := snd (fst r).
Definition trace {W A : Type} (r : A * W * list Action) : list Action := snd r.

(** ** fmt.Sprintf("%04x%s\n", n, msg) *)

(** Go's [int] is 64 bits wide and [+] wraps around. *)
Definition wrap_int (z : Z) : Z := (z + 2 ^ 63) mod 2 ^ 64 - 2 ^ 63.
Definition int_add (a b : Z) : Z := wrap_int (a + b).

(** [len(msg)]: the number of bytes. *)
Definition len (s : string) : Z := Z.of_nat (String.length s).

Definition hex_digit (d : Z) : ascii :=
  match d with
  | 0 => "0" | 1 => "1" | 2 => "2" | 3 => "3"
  | 4 => "4" | 5 => "5" | 6 => "6" | 7 => "7"
  | 8 => "8" | 9 => "9" | 10 => "a" | 11 => "b"
  | 12 => "c" | 13 => "d" | 14 => "e" | _ => "f"
  end%char.

(** The lower-case hexadecimal digits of [n >= 0], most significant first,
    prepended to [acc]. *)
Fixpoint hex_onto (fuel : nat) (n : Z) (acc : string) : string :=
  match fuel with
  | O => acc
  | S fuel' =>
      let acc' := String (hex_digit (n mod 16)) acc in
      if n / 16 =? 0 then acc' else hex_onto fuel' (n / 16) acc'
  end.

Definition hex (n : Z) : string := hex_onto (S (Z.to_nat (Z.log2 n))) n EmptyString.

Fixpoint zeros (k : nat) : string :=
  match k with
  | O => EmptyString
  | S k' => String "0" (zeros k')
  end.

(** The verb [%04x]: width 4, padded with zeros; the sign of a negative
    number comes first and counts in the width. *)
Definition fmt_04x (n : Z) : string :=
  if n <? 0 then
    let d := hex (- n) in
    String "-" (zeros (3 - String.length d) ++ d)
  else
    let d := hex n in
    zeros (4 - String.length d) ++ d.

Definition newline : string := String (ascii_of_nat 10) EmptyString.

(** ** The package's functions *)

(** [fatalGit] *)
Definition pktLine (msg : string) : string :=
  fmt_04x (int_add (len msg) 5) ++ msg ++ newline.

Definition fatalGit (err : error) : Prog unit :=
  let msg := Error err in
  call (SessionWriteE (pktLine msg)) ;;
  call (SessionExitE 1).

(** [fileExists] *)
Definition fileExists (path : string) : Prog (bool * option error) :=
  err <- call (StatE path) ;;
  match err with
  | None => Ret (true, None)
  | Some e =>
      if IsNotExist e then Ret (false, None)
      else Ret (true, Some e)
  end.

(** [os.ModeDir|os.FileMode(0700)] *)
Definition ModeDir : Z := Z.shiftl 1 31.
Definition repoDirMode : Z := Z.lor ModeDir 448.

(** [ensureRepo] *)
Definition ensureRepo (dir : string) (repo : string) : Prog (option error) :=
  '(exists_, err) <- fileExists dir ;;
  match err with
  | Some e => Ret (Some e)
  | None =>
      err <- (if negb exists_ then call (MkdirAllE dir repoDirMode)
              else Ret None) ;;
      match err with
      | Some e => Ret (Some e)
      | None =>
          let rp := dir ++ repo in
          '(exists_, err) <- fileExists rp ;;
          match err with
          | Some e => Ret (Some e)
          | None =>
              if negb exists_ then
                let c := mkCmd "git" ["init"; "--bare"; rp] EmptyString false in
                err <- call (CmdRunE c) ;;
                match err with
                | Some e => Ret (Some e)
                | None => Ret None
                end
              else Ret None
          end
      end
  end.

(** [runCmd] *)
Definition runCmd (dir name : string) (args : list string)
  : Prog (option error) :=
  let usi := mkCmd name args dir true in
  err <- call (CmdRunE usi) ;;
  match err with
  | Some e => Ret (Some e)
  | None => Ret None
  end.

Section Package.

(** [ReferenceName.Short] of go-git, a pure function of the name. *)
Variable Short : string -> string.

(** [ensureDefaultBranch]; the deferred [brs.Close()] runs at every return
    that follows a successful [r.Branches()]. *)
Definition ensureDefaultBranch (repoPath : string) : Prog (option error) :=
  r <- call (PlainOpenE repoPath) ;;
  match r with
  | inl e => Ret (Some e)
  | inr r =>
      brs <- call (BranchesE r) ;;
      match brs with
      | inl e => Ret (Some e)
      | inr brs =>
          ret <-
            (fb <- call (IterNextE brs) ;;
             match fb with
             | inl e => Ret (Some e)
             | inr fb =>
                 hd <- call (HeadE r) ;;
                 let err :=
                   match hd with inl e => Some e | inr _ => None end in
                 match err with
                 | None => Ret None
                 | Some e =>
                     if isErrReferenceNotFound e then
                       err <- runCmd repoPath "git"
                                ["branch"; "-M"; Short (RefName fb)] ;;
                       match err with
                       | Some e' => Ret (Some e')
                       | None => Ret None
                       end
                     else Ret (Some e)
                 end
             end) ;;
          call (IterCloseE brs) ;;
          Ret ret
      end
  end.

(** [gitReceivePack] *)
Definition gitReceivePack (gitCmd repoDir repo : string)
  : Prog (option error) :=
  let rp := repoDir ++ repo in
  err <- ensureRepo repoDir repo ;;
  match err with
  | Some e => Ret (Some e)
  | None =>
      err <- runCmd "./" gitCmd [rp] ;;
      match err with
      | Some e => Ret (Some e)
      | None =>
          err <- runCmd rp "git" ["update-server-info"] ;;
          match err with
          | Some e => Ret (Some e)
          | None =>
              err <- ensureDefaultBranch rp ;;
              match err with
              | Some e => Ret (Some e)
              | None => Ret None
              end
          end
      end
  end.

(** [gitUploadPack] *)
Definition gitUploadPack (gitCmd repoDir repo : string)
  : Prog (option error) :=
  let rp := repoDir ++ repo in
  '(exists_, err) <- fileExists rp ;;
  if exists_ && (match err with None => true | Some _ => false end) then
    err <- runCmd "./" gitCmd [rp] ;;
    match err with
    | Some e => Ret (Some e)
    | None => Ret None
    end
  else Ret None.

(** The body of the handler built by [MiddlewareWithPushCallback], up to the
    call of the wrapped handler: the [if len(cmd) == 2] block. *)
Definition dispatch (repoDir : string) (auth : Auth) (cb : option PushCallback)
    (s : Session) : Prog unit :=
  let cmd := Command s in
  if Nat.eqb (List.length cmd) 2 then
    let gc := nth 0 cmd EmptyString in
    let repo := nth 1 cmd EmptyString in
    let pk := SessionPublicKey s in
    access <- call (AuthRepoE auth repo pk) ;;
    if String.eqb gc "git-receive-pack" then
      match access with
      | ReadWriteAccess | AdminAccess =>
          err <- gitReceivePack gc repoDir repo ;;
          match err with
          | Some e =>
              call (LogPrintfE ("git-receive-pack error: " ++ Error e)) ;;
              fatalGit ErrSystemMalfunction
          | None => Ret tt
          end ;;
          match cb with
          | Some f => call (PushCallbackE f repo pk)
          | None => Ret tt
          end
      | _ => fatalGit ErrNotAuthed
      end
    else if String.eqb gc "git-upload-archive" || String.eqb gc "git-upload-pack" then
      match access with
      | ReadOnlyAccess | ReadWriteAccess | AdminAccess =>
          err <- gitUploadPack gc repoDir repo ;;
          match err with
          | Some e =>
              call (LogPrintfE (gc ++ " error: " ++ Error e)) ;;
              fatalGit ErrSystemMalfunction
          | None => Ret tt
          end
      | _ => fatalGit ErrNotAuthed
      end
    else Ret tt
  else Ret tt.

(** An [ssh.Handler] and a [wish.Middleware]. *)
Definition SshHandler : Type := Session -> Prog unit.
Definition WishMiddleware : Type := SshHandler -> SshHandler.

(** [MiddlewareWithPushCallback] *)
Definition MiddlewareWithPushCallback (repoDir : string) (auth : Auth)
    (cb : option PushCallback) : WishMiddleware :=
  fun sh s =>
    dispatch repoDir auth cb s ;;
    sh s.

(** [Middleware] *)
Definition Middleware (repoDir : string) (auth : Auth) : WishMiddleware :=
  MiddlewareWithPushCallback repoDir auth None.

End Package.

(** Reading a hexadecimal number back, the way a git client reads the
    length field of a pkt-line. *)
Definition hex_value (c : ascii) : option Z :=
  let n := Z.of_nat (nat_of_ascii c) in
  if (48 <=? n) && (n <=? 57) then Some (n - 48)
  else if (97 <=? n) && (n <=? 102) then Some (n - 87)
  else None.

Fixpoint read_hex_from (v : Z) (s : string) : option Z :=
  match s with
  | EmptyString => Some v
  | String c r =>
      match hex_value c with
      | Some d => read_hex_from (16 * v + d) r
      | None => None
      end
  end.

Definition read_hex (s : string) : option Z := read_hex_from 0 s.

(** ** Reading a trace *)

(** The bytes of a [s.Write] call. *)
Definition written (a : Action) : option string :=
  match projT2 a with
  | SessionWriteE b => Some b
  | _ => None
  end.

(** Everything the middleware itself wrote to the session, in order. *)
Fixpoint session_output (tr : list Action) : string :=
  match tr with
  | [] => EmptyString
  | a :: tr' =>
      match written a with
      | Some b => b ++ session_output tr'
      | None => session_output tr'
      end
  end.

Definition is_auth (a : Action) : bool :=
  match projT2 a with AuthRepoE _ _ _ => true | _ => false end.

Definition is_spawn (a : Action) : bool :=
  match projT2 a with CmdRunE _ => true | _ => false end.

Definition is_mkdir (a : Action) : bool :=
  match projT2 a with MkdirAllE _ _ => true | _ => false end.

Definition is_callback (a : Action) : bool :=
  match projT2 a with PushCallbackE _ _ _ => true | _ => false end.

Definition is_exit (a : Action) : bool :=
  match projT2 a with SessionExitE _ => true | _ => false end.

(** Calls that look at or change the repository store: the file system, a
    subprocess, the repository library. *)
Definition touches_repo (a : Action) : bool :=
  match projT2 a with
  | StatE _ | MkdirAllE _ _ | CmdRunE _ | PlainOpenE _ | BranchesE _
  | IterNextE _ | IterCloseE _ | HeadE _ => true
  | _ => false
  end.

(** Calls through which the disk can change. *)
Definition mutates_disk (a : Action) : bool := is_mkdir a || is_spawn a.

Definition count (f : Action -> bool) (tr : list Action) : nat :=
  List.length (filter f tr).

(** What the handler does with the error of a git operation: nothing when
    there is none, otherwise a log line and the generic report. *)
Definition report_actions (gc : string) (err : option error) : list Action :=
  match err with
  | Some e =>
      [act (LogPrintfE (gc ++ " error: " ++ Error e));
       act (SessionWriteE (pktLine (Error ErrSystemMalfunction)));
       act (SessionExitE 1)]
  | None => []
  end.

Definition callback_actions (cb : option PushCallback) (repo : string)
    (pk : PublicKey) : list Action :=
  match cb with
  | Some f => [act (PushCallbackE f repo pk)]
  | None => []
  end.

(** Permission bits of a file mode that belong to group and others. *)
Definition owner_only (mode : Z) : bool := Z.land mode 63 =? 0.

(** ** A reference host

    One concrete environment, used to evaluate the middleware on concrete
    sessions: a file table, a process umask, bare repositories with their
    references, a git that does the little the middleware asks of it, and a
    session that records what reaches the client. *)
Module RefHost.

Record Host : Type := mkHost {
  files : list (string * Z);
  denied : list string;
  umask : Z;
  repos : list (string * list string);
  heads : list (string * string);
  iters : list (string * list string);
  incoming : list string;
  failing : list string;
  policy : string -> PublicKey -> AccessLevel;
  out : string;
  exited : option Z;
  logged : list string;
  pushed : list (string * PublicKey)
}.

Fixpoint lookup {V : Type} (k : string) (m : list (string * V)) : option V :=
  match m with
  | [] => None
  | (k', v) :: m' => if String.eqb k k' then Some v else lookup k m'
  end.

Fixpoint remove {V : Type} (k : string) (m : list (string * V))
  : list (string * V) :=
  match m with
  | [] => []
  | (k', v) :: m' =>
      if String.eqb k k' then remove k m' else (k', v) :: remove k m'
  end.

Definition update {V : Type} (k : string) (v : V) (m : list (string * V))
  : list (string * V) := (k, v) :: remove k m.

Definition mem (k : string) (l : list string) : bool :=
  existsb (String.eqb k) l.

Definition set_files (f : list (string * Z)) (w : Host) : Host :=
  mkHost f (denied w) (umask w) (repos w) (heads w) (iters w) (incoming w)
    (failing w) (policy w) (out w) (exited w) (logged w) (pushed w).

Definition set_repos (r : list (string * list string)) (w : Host) : Host :=
  mkHost (files w) (denied w) (umask w) r (heads w) (iters w) (incoming w)
    (failing w) (policy w) (out w) (exited w) (logged w) (pushed w).

Definition set_heads (hd : list (string * string)) (w : Host) : Host :=
  mkHost (files w) (denied w) (umask w) (repos w) hd (iters w) (incoming w)
    (failing w) (policy w) (out w) (exited w) (logged w) (pushed w).

Definition set_iters (i : list (string * list string)) (w : Host) : Host :=
  mkHost (files w) (denied w) (umask w) (repos w) (heads w) i (incoming w)
    (failing w) (policy w) (out w) (exited w) (logged w) (pushed w).

Definition set_session (o : string) (e : option Z) (w : Host) : Host :=
  mkHost (files w) (denied w) (umask w) (repos w) (heads w) (iters w)
    (incoming w) (failing w) (policy w) o e (logged w) (pushed w).

Definition set_logged (l : list string) (w : Host) : Host :=
  mkHost (files w) (denied w) (umask w) (repos w) (heads w) (iters w)
    (incoming w) (failing w) (policy w) (out w) (exited w) l (pushed w).

Definition set_pushed (p : list (string * PublicKey)) (w : Host) : Host :=
  mkHost (files w) (denied w) (umask w) (repos w) (heads w) (iters w)
    (incoming w) (failing w) (policy w) (out w) (exited w) (logged w) p.

(** A new directory gets the requested bits minus those of the umask. *)
Definition masked (perm : Z) (w : Host) : Z := Z.land perm (Z.lnot (umask w)).

(** The directories above a path: its prefixes that end before a slash. *)
Fixpoint parents_from (pre rest : string) : list string :=
  match rest with
  | EmptyString => []
  | String c rest' =>
      let here :=
        if Ascii.eqb c "/" && negb (String.eqb pre EmptyString) then [pre] else [] in
      (here ++ parents_from (pre ++ String c EmptyString) rest')%list
  end.

(** A path without its trailing slashes. *)
Fixpoint strip_slashes (p : string) : string :=
  match p with
  | EmptyString => EmptyString
  | String c r =>
      match strip_slashes r with
      | EmptyString => if Ascii.eqb c "/" then EmptyString else String c EmptyString
      | r' => String c r'
      end
  end.

Definition clean (p : string) : string :=
  match strip_slashes p with
  | EmptyString => if prefix "/" p then "/" else EmptyString
  | q => q
  end.

Definition mkdir (perm : Z) (w : Host) (path : string) : Host :=
  match lookup path (files w) with
  | Some _ => w
  | None => set_files (files w ++ [(path, masked perm w)])%list w
  end.

Definition mkdir_all (path : string) (perm : Z) (w : Host) : Host :=
  let path := clean path in
  fold_left (mkdir perm) (parents_from EmptyString path ++ [path])%list w.

Definition stat (path : string) (w : Host) : option error :=
  if mem path (denied w) then
    Some (ErrOther ("stat " ++ path ++ ": permission denied"))
  else
    match lookup (clean path) (files w) with
    | Some _ => None
    | None => Some (ErrNotExist ("stat " ++ path ++ ": no such file or directory"))
    end.

Definition is_branch (name : string) : bool := prefix "refs/heads/" name.

(** [ReferenceName.Short] on the names the host stores. *)
Definition Short (name : string) : string :=
  if prefix "refs/heads/" name then substring 11 (String.length name - 11) name
  else if prefix "refs/tags/" name then substring 10 (String.length name - 10) name
  else name.

Definition exit_status (n : string) : option error :=
  Some (ErrOther ("exit status " ++ n)).

(** The git of the host. *)
Definition git_init (rp : string) (w : Host) : option error * Host :=
  let w1 := mkdir_all rp (Z.lor ModeDir 511) w in
  (None, set_repos (update rp [] (repos w1)) w1).

Definition git_receive_pack (rp : string) (w : Host) : option error * Host :=
  match lookup rp (repos w) with
  | Some refs =>
      (None, set_repos (update rp (refs ++ incoming w)%list (repos w)) w)
  | None => (exit_status "128", w)
  end.

Definition git_in_repo (rp : string) (w : Host) : option error * Host :=
  match lookup rp (repos w) with
  | Some _ => (None, w)
  | None => (exit_status "128", w)
  end.

Definition git_branch_M (dir name : string) (w : Host) : option error * Host :=
  match lookup dir (repos w) with
  | Some _ =>
      (None, set_heads (update dir ("refs/heads/" ++ name) (heads w)) w)
  | None => (exit_status "128", w)
  end.

Definition exec (c : Cmd) (w : Host) : option error * Host :=
  let not_found := (Some (ErrOther "executable file not found in $PATH"), w) in
  if mem (Name c) (failing w) then (exit_status "1", w)
  else
    match Args c with
    | [a1] =>
        if String.eqb (Name c) "git-receive-pack" then git_receive_pack a1 w
        else if String.eqb (Name c) "git-upload-pack" then git_in_repo a1 w
        else if String.eqb (Name c) "git-upload-archive" then git_in_repo a1 w
        else if String.eqb (Name c) "git" && String.eqb a1 "update-server-info"
        then git_in_repo (Dir c) w
        else not_found
    | [a1; a2; a3] =>
        if String.eqb (Name c) "git" && String.eqb a1 "init" && String.eqb a2 "--bare"
        then git_init a3 w
        else if String.eqb (Name c) "git" && String.eqb a1 "branch" && String.eqb a2 "-M"
        then git_branch_M (Dir c) a3 w
        else not_found
    | _ => not_found
    end.

(** Where [HEAD] of a repository points; a new repository starts on
    [master]. *)
Definition head_of (p : string) (w : Host) : string :=
  match lookup p (heads w) with
  | Some n => n
  | None => "refs/heads/master"
  end.

Definition handle : Handler Host :=
  fun X e =>
    match e in Ev X return Host -> X * Host with
    | AuthRepoE _ repo pk => fun w => (policy w repo pk, w)
    | StatE path => fun w => (stat path w, w)
    | MkdirAllE path perm => fun w =>
        if mem path (denied w) then
          (Some (ErrOther ("mkdir " ++ path ++ ": permission denied")), w)
        else (None, mkdir_all path perm w)
    | CmdRunE c => exec c
    | PlainOpenE path => fun w =>
        match lookup path (repos w) with
        | Some _ => (inr (RepositoryAt path), w)
        | None => (inl (ErrOther "repository does not exist"), w)
        end
    | BranchesE (RepositoryAt p) => fun w =>
        match lookup p (repos w) with
        | Some refs =>
            (inr (IterOver p), set_iters (update p (filter is_branch refs) (iters w)) w)
        | None => (inl (ErrOther "repository does not exist"), w)
        end
    | IterNextE (IterOver p) => fun w =>
        match lookup p (iters w) with
        | Some (name :: rest) =>
            (inr (mkReference name), set_iters (update p rest (iters w)) w)
        | _ => (inl (ErrOther "EOF"), w)
        end
    | IterCloseE (IterOver p) => fun w => (tt, set_iters (remove p (iters w)) w)
    | HeadE (RepositoryAt p) => fun w =>
        match lookup p (repos w) with
        | Some refs =>
            if mem (head_of p w) refs then (inr (mkReference (head_of p w)), w)
            else (inl ErrReferenceNotFound, w)
        | None => (inl (ErrOther "repository does not exist"), w)
        end
    | SessionWriteE b => fun w =>
        match exited w with
        | Some _ => (tt, w)
        | None => (tt, set_session (out w ++ b) None w)
        end
    | SessionExitE code => fun w =>
        match exited w with
        | Some _ => (tt, w)
        | None => (tt, set_session (out w) (Some code) w)
        end
    | LogPrintfE line => fun w => (tt, set_logged (logged w ++ [line])%list w)
    | PushCallbackE _ repo pk => fun w =>
        (tt, set_pushed (pushed w ++ [(repo, pk)])%list w)
    end.

End RefHost.

(** ** Sessions and hosts to evaluate on *)
Module Scenario.
Import RefHost.

Definition keyPolicy (repo : string) (pk : PublicKey) : AccessLevel :=
  match pk with
  | None => NoAccess
  | Some k =>
      if String.eqb k "admin" then AdminAccess
      else if String.eqb k "writer" then ReadWriteAccess
      else if String.eqb k "reader" then ReadOnlyAccess
      else NoAccess
  end.

(** A host with umask 022 and nothing said to the client yet. *)
Definition host (fs : list (string * Z)) (rs : list (string * list string))
    (inc : list string) (fail : list string) : Host :=
  mkHost fs [] 18 rs [] [] inc fail keyPolicy EmptyString None [] [].

Definition dir755 : Z := Z.lor ModeDir 493.

(** Nothing on disk; the client pushes one branch. *)
Definition fresh : Host := host [] [] ["refs/heads/main"] [].

(** Nothing on disk; the client pushes one tag and no branch. *)
Definition tags_only : Host := host [] [] ["refs/tags/v1"] [].

(** Nothing on disk; [git-receive-pack] exits with status 1. *)
Definition broken_git : Host :=
  host [] [] ["refs/heads/main"] ["git-receive-pack"].

(** Only the root directory exists. *)
Definition with_root : Host := host [("/repos", dir755)] [] [] [].

(** The repository exists and has a branch; [HEAD] still names [master]. *)
Definition first_branch : Host :=
  host [("/repos", dir755); ("/repos/team", dir755);
        ("/repos/team/app.git", dir755)]
       [("/repos/team/app.git", ["refs/heads/main"])] [] [].

(** A root given without a trailing slash: [.repos] is missing while
    [.reposx], the path of repository [x], is there. *)
Definition sibling : Host :=
  host [(".reposx", dir755)] [(".reposx", [])] [] [].

Definition push (key : PublicKey) : Session :=
  mkSession ["git-receive-pack"; "team/app.git"] key.

Definition fetch (key : PublicKey) : Session :=
  mkSession ["git-upload-pack"; "team/app.git"] key.

Definition theAuth : Auth := AuthImpl 0.
Definition theCallback : PushCallback := CallbackFn 0.

(** A wrapped handler that leaves one line in the log. *)
Definition next : SshHandler :=
  fun _ => call (LogPrintfE "next handler").

End Scenario.

(** ** More hosts to evaluate on *)
Module Trouble.
Import RefHost.

(** The repository is there, but [Stat] on its path is refused. *)
Definition locked_repository : Host :=
  mkHost [("/repos", Scenario.dir755); ("/repos/team", Scenario.dir755);
          ("/repos/team/app.git", Scenario.dir755)]
         ["/repos/team/app.git"] 18
         [("/repos/team/app.git", ["refs/heads/main"])] [] [] [] []
         Scenario.keyPolicy EmptyString None [] [].

(** [Stat] on the root is refused. *)
Definition locked_root : Host :=
  mkHost [("/repos", Scenario.dir755)] ["/repos/"] 18 [] [] [] [] []
         Scenario.keyPolicy EmptyString None [] [].

(** The repository exists and [HEAD] resolves. *)
Definition settled : Host :=
  mkHost [("/repos", Scenario.dir755); ("/repos/team", Scenario.dir755);
          ("/repos/team/app.git", Scenario.dir755)]
         [] 18
         [("/repos/team/app.git", ["refs/heads/main"])]
         [("/repos/team/app.git", "refs/heads/main")] []
         ["refs/heads/topic"] []
         Scenario.keyPolicy EmptyString None [] [].

(** The repository exists; [git update-server-info] is the command that
    fails. *)
Definition no_server_info : Host :=
  mkHost [("/repos", Scenario.dir755); ("/repos/team", Scenario.dir755);
          ("/repos/team/app.git", Scenario.dir755)]
         [] 18
         [("/repos/team/app.git", ["refs/heads/main"])] [] []
         ["refs/heads/topic"] ["git"]
         Scenario.keyPolicy EmptyString None [] [].

(** The repository exists; [git-upload-pack] is the command that fails. *)
Definition broken_upload : Host :=
  mkHost [("/repos", Scenario.dir755); ("/repos/team", Scenario.dir755);
          ("/repos/team/app.git", Scenario.dir755)]
         [] 18
         [("/repos/team/app.git", ["refs/heads/main"])] [] []
         [] ["git-upload-pack"]
         Scenario.keyPolicy EmptyString None [] [].

(** An empty disk that cannot be written: nothing exists, and nothing can
    be made or run. *)
Definition read_only_disk : Handler unit :=
  fun X e =>
    match e in Ev X return unit -> X * unit with
    | AuthRepoE _ _ _ => fun w => (AdminAccess, w)
    | StatE path => fun w =>
        (Some (ErrNotExist ("stat " ++ path ++ ": no such file or directory")), w)
    | MkdirAllE path _ => fun w =>
        (Some (ErrOther ("mkdir " ++ path ++ ": read-only file system")), w)
    | CmdRunE _ => fun w => (Some (ErrOther "exit status 128"), w)
    | PlainOpenE _ => fun w => (inl (ErrOther "repository does not exist"), w)
    | BranchesE _ => fun w => (inl (ErrOther "repository does not exist"), w)
    | IterNextE _ => fun w => (inl (ErrOther "EOF"), w)
    | IterCloseE _ => fun w => (tt, w)
    | HeadE _ => fun w => (inl ErrReferenceNotFound, w)
    | SessionWriteE _ => fun w => (tt, w)
    | SessionExitE _ => fun w => (tt, w)
    | LogPrintfE _ => fun w => (tt, w)
    | PushCallbackE _ _ _ => fun w => (tt, w)
    end.

End Trouble.

(** ** More readers of traces and of pkt-lines *)

Definition is_close (a : Action) : bool :=
  match projT2 a with IterCloseE _ => true | _ => false end.

Definition is_write (a : Action) : bool :=
  match projT2 a with SessionWriteE _ => true | _ => false end.

Definition is_log (a : Action) : bool :=
  match projT2 a with LogPrintfE _ => true | _ => false end.

(** The status of an [s.Exit] call. *)
Definition exit_code (a : Action) : option Z :=
  match projT2 a with
  | SessionExitE c => Some c
  | _ => None
  end.

(** The command of a [Run] call. *)
Definition spawned (a : Action) : option Cmd :=
  match projT2 a with
  | CmdRunE c => Some c
  | _ => None
  end.

(** A call together with the answer the environment gave to it. *)
Inductive Answered : Type :=
| answered (X : Type) (e : Ev X) (x : X).
Arguments answered {X} e x.

Definition asked (a : Answered) : Action :=
  match a with
  | answered e _ => act e
  end.

(** A run that keeps the answers as well. *)
Fixpoint run_answers {W A : Type} (h : Handler W) (p : Prog A) (w : W)
  : A * W * list Answered :=
  match p with
  | Ret a => (a, w, [])
  | Vis e k =>
      let '(x, w1) := h _ e w in
      let '(a, w2, l) := run_answers h (k x) w1 in
      (a, w2, answered e x :: l)
  end.

Definition is_error (err : option error) : bool :=
  match err with
  | Some _ => true
  | None => false
  end.

Definition is_inl {A B : Type} (x : A + B) : bool :=
  match x with
  | inl _ => true
  | inr _ => false
  end.

(** A step of a git operation that failed: a call of the file system, of a
    subprocess or of go-git answered with an error, other than the two
    answers that are no failure, [Stat] saying that the path does not exist
    and [Head] saying that the reference is not found. *)
Definition failed (a : Answered) : bool :=
  match a with
  | answered e x =>
      match e in Ev X return X -> bool with
      | StatE _ => fun x =>
          match x with
          | Some err => negb (IsNotExist err)
          | None => false
          end
      | MkdirAllE _ _ => is_error
      | CmdRunE _ => is_error
      | PlainOpenE _ => is_inl
      | BranchesE _ => is_inl
      | IterNextE _ => is_inl
      | HeadE _ => fun x =>
          match x with
          | inl err => negb (isErrReferenceNotFound err)
          | inr _ => false
          end
      | _ => fun _ => false
      end x
  end.

(** A subprocess that failed. *)
Definition command_failed (a : Answered) : bool :=
  match a with
  | answered e x =>
      match e in Ev X return X -> bool with
      | CmdRunE _ => is_error
      | _ => fun _ => false
      end x
  end.

(** One pkt-line off the front of a byte stream, the way a git client takes
    it: four hexadecimal digits give the length of the line, themselves
    included; the payload is what follows them up to that length.  The
    result is the payload and the rest of the stream. *)
Definition read_pkt_line (s : string) : option (string * string) :=
  match read_hex (substring 0 4 s) with
  | Some n =>
      if (4 <=? n) && (n <=? len s) then
        Some (substring 4 (Z.to_nat n - 4) s,
              substring (Z.to_nat n) (String.length s - Z.to_nat n) s)
      else None
  | None => None
  end.

(** ** Authorized keys *)

(** A [bufio.Scanner] seen from [addKeys]: the tokens [Scan] delivers before
    it returns false, and what [Err] reports after that. *)
Record Scanner : Type := mkScanner {
  tokens : list string;
  scan_err : option error
}.

(** [bufio.ScanLines] over a string: lines end at a newline, the newline is
    not part of the token, one trailing carriage return is dropped, and an
    empty last line is no token. *)
Definition is_newline (c : ascii) : bool := Ascii.eqb c (ascii_of_nat 10).
Definition is_cr (c : ascii) : bool := Ascii.eqb c (ascii_of_nat 13).

Fixpoint raw_lines (cur : string) (input : string) : list string :=
  match input with
  | EmptyString =>
      match cur with
      | EmptyString => []
      | _ => [cur]
      end
  | String c rest =>
      if is_newline c then cur :: raw_lines EmptyString rest
      else raw_lines (cur ++ String c EmptyString) rest
  end.

Fixpoint dropCR (line : string) : string :=
  match line with
  | EmptyString => EmptyString
  | String c EmptyString => if is_cr c then EmptyString else line
  | String c rest => String c (dropCR rest)
  end.

(** [bufio.MaxScanTokenSize] and [bufio.ErrTooLong]: a line that does not
    fit the buffer ends the scan with an error. *)
Definition MaxScanTokenSize : Z := 64 * 1024.
Definition ErrTooLong : error := ErrOther "bufio.Scanner: token too long".

Fixpoint deliver (lines : list string) : list string * option error :=
  match lines with
  | [] => ([], None)
  | l :: rest =>
      if MaxScanTokenSize <=? len l then ([], Some ErrTooLong)
      else
        let '(ts, err) := deliver rest in
        (dropCR l :: ts, err)
  end.

(** [bufio.NewScanner(strings.NewReader(keys))] *)
Definition NewScanner (keys : string) : Scanner :=
  let '(ts, err) := deliver (raw_lines EmptyString keys) in
  mkScanner ts err.

(** [parseKeysFromFile] makes calls the middleware does not make: it opens
    a file, reads it through a scanner and closes it; and it can end the
    process with [log.Fatal].  Its programs are those of the middleware with
    these calls and that ending added. *)
Inductive File : Type := FileAt (path : string).

Inductive FileEv : Type -> Type :=
| BaseE (X : Type) (e : Ev X) : FileEv X
| OpenE (path : string) : FileEv (error + File)
| ScanFileE (f : File) : FileEv Scanner
| FileCloseE (f : File) : FileEv unit.
Arguments BaseE {X} e.

Definition FileAction : Type := { X : Type & FileEv X }.
Definition fact {X : Type} (e : FileEv X) : FileAction := existT FileEv X e.

Inductive FProg (A : Type) : Type :=
| FRet (a : A)
| FVis (X : Type) (e : FileEv X) (k : X -> FProg A)
| FFatal (msg : string).
Arguments FRet {A} a.
Arguments FVis {A X} e k.
Arguments FFatal {A} msg.

Fixpoint fbind {A B : Type} (p : FProg A) (f : A -> FProg B) : FProg B :=
  match p with
  | FRet a => f a
  | FVis e k => FVis e (fun x => fbind (k x) f)
  | FFatal msg => FFatal msg
  end.

Definition fcall {X : Type} (e : FileEv X) : FProg X := FVis e FRet.

(** A program of the middleware as a program of this kind. *)
Fixpoint lift {A : Type} (p : Prog A) : FProg A :=
  match p with
  | Ret a => FRet a
  | Vis e k => FVis (BaseE e) (fun x => lift (k x))
  end.

(** How a call of a function ends: it returns, or the process has exited. *)
Inductive Outcome (A : Type) : Type :=
| Returned (a : A)
| Exited (msg : string).
Arguments Returned {A} a.
Arguments Exited {A} msg.

Definition FileHandler (W : Type) : Type :=
  forall X : Type, FileEv X -> W -> X * W.

Fixpoint frun {W A : Type} (h : FileHandler W) (p : FProg A) (w : W)
  : Outcome A * W * list FileAction :=
  match p with
  | FRet a => (Returned a, w, [])
  | FVis e k =>
      let '(x, w1) := h _ e w in
      let '(o, w2, tr) := frun h (k x) w1 in
      (o, w2, fact e :: tr)
  | FFatal msg => (Exited msg, w, [])
  end.

Definition is_open (a : FileAction) : bool :=
  match projT2 a with OpenE _ => true | _ => false end.

Definition is_file_close (a : FileAction) : bool :=
  match projT2 a with FileCloseE _ => true | _ => false end.

(** A Go slice of keys: [None] is the nil slice. *)
Definition KeySlice : Type := option (list PublicKey).

Section AuthorizedKeys.

(** [ssh.ParseAuthorizedKey], of which [addKeys] uses the key and the
    error. *)
Variable ParseAuthorizedKey : string -> error + PublicKey.

(** The loop of [addKeys] over the lines the scanner delivers; [keys] is
    the slice behind the pointer. *)
Fixpoint addKeys_loop (lines : list string) (keys : list PublicKey)
  : Prog (list PublicKey * option error) :=
  match lines with
  | [] => Ret (keys, None)
  | pt :: rest =>
      if String.eqb pt EmptyString then addKeys_loop rest keys
      else
        call (LogPrintfE ("Adding authorized key: " ++ pt)) ;;
        match ParseAuthorizedKey pt with
        | inl e => Ret (keys, Some e)
        | inr pk => addKeys_loop rest (keys ++ [pk])%list
        end
  end.

(** [addKeys] *)
Definition addKeys (s : Scanner) (keys : list PublicKey)
  : Prog (list PublicKey * option error) :=
  '(keys, err) <- addKeys_loop (tokens s) keys ;;
  match err with
  | Some e => Ret (keys, Some e)
  | None =>
      match scan_err s with
      | Some e => Ret (keys, Some e)
      | None => Ret (keys, None)
      end
  end.

(** [parseKeysFromString] *)
Definition parseKeysFromString (keys : string)
  : Prog (KeySlice * option error) :=
  let authedKeys := [] in
  let scanner := NewScanner keys in
  '(authedKeys, err) <- addKeys scanner authedKeys ;;
  match err with
  | Some e => Ret (None, Some e)
  | None => Ret (Some authedKeys, None)
  end.

(** [parseKeysFromFile]; the deferred [f.Close()] runs at every return that
    follows a successful [os.Open]. *)
Definition parseKeysFromFile (path : string)
  : FProg (KeySlice * option error) :=
  let authedKeys := [] in
  fbind (lift (fileExists path)) (fun '(hasAuth, err) =>
  match err with
  | Some e => FRet (None, Some e)
  | None =>
      if hasAuth : bool then
        fbind (fcall (OpenE path)) (fun f =>
        match f with
        | inl e => FFatal (Error e)
        | inr f =>
            fbind (fcall (ScanFileE f)) (fun scanner =>
            fbind (lift (addKeys scanner authedKeys)) (fun '(authedKeys, err) =>
            fbind (fcall (FileCloseE f)) (fun _ =>
            match err with
            | Some e => FRet (None, Some e)
            | None => FRet (Some authedKeys, None)
            end)))
        end)
      else FRet (Some authedKeys, None)
  end).

End AuthorizedKeys.

(** What [addKeys] is expected to leave behind: a key for every line that
    is not blank, and a log line for each of them. *)
Definition nonblank (line : string) : bool := negb (String.eqb line EmptyString).

Definition keys_of (parse : string -> error + PublicKey) (lines : list string)
  : list PublicKey :=
  flat_map (fun l => match parse l with inr pk => [pk] | inl _ => [] end)
           (filter nonblank lines).

Definition key_logs (lines : list string) : list Action :=
  map (fun l => act (LogPrintfE ("Adding authorized key: " ++ l)))
      (filter nonblank lines).

(** A call of the middleware among the calls of [parseKeysFromFile], and
    the part of a handler that answers those. *)
Definition base_action (a : Action) : FileAction :=
  existT FileEv (projT1 a) (BaseE (projT2 a)).

Definition base_handler {W : Type} (h : FileHandler W) : Handler W :=
  fun X e => h X (BaseE e).

(** ** Key files to evaluate on *)
Module KeyFiles.

(** A parser that takes any line starting with [ssh-] for a key and gives
    the line itself as the key. *)
Definition parse (line : string) : error + PublicKey :=
  if prefix "ssh-" line then inr (Some line)
  else inl (ErrOther "ssh: no key found").

(** A directory of key files: the content of each as the lines its scanner
    delivers; files listed as unreadable exist but cannot be opened. *)
Record Dir : Type := mkDir {
  contents : list (string * list string);
  unreadable : list string;
  opened : list string;
  closed : list string
}.

Definition handle : FileHandler Dir :=
  fun X e =>
    match e in FileEv X return Dir -> X * Dir with
    | BaseE e' =>
        match e' in Ev X return Dir -> X * Dir with
        | StatE path => fun d =>
            match RefHost.lookup path (contents d) with
            | Some _ => (None, d)
            | None =>
                if RefHost.mem path (unreadable d) then (None, d)
                else (Some (ErrNotExist ("stat " ++ path
                                         ++ ": no such file or directory")), d)
            end
        | AuthRepoE _ _ _ => fun d => (NoAccess, d)
        | MkdirAllE _ _ => fun d => (None, d)
        | CmdRunE _ => fun d => (None, d)
        | PlainOpenE _ => fun d => (inl (ErrOther "repository does not exist"), d)
        | BranchesE _ => fun d => (inl (ErrOther "repository does not exist"), d)
        | IterNextE _ => fun d => (inl (ErrOther "EOF"), d)
        | IterCloseE _ => fun d => (tt, d)
        | HeadE _ => fun d => (inl ErrReferenceNotFound, d)
        | SessionWriteE _ => fun d => (tt, d)
        | SessionExitE _ => fun d => (tt, d)
        | LogPrintfE _ => fun d => (tt, d)
        | PushCallbackE _ _ _ => fun d => (tt, d)
        end
    | OpenE path => fun d =>
        match RefHost.lookup path (contents d) with
        | Some _ =>
            (inr (FileAt path),
             mkDir (contents d) (unreadable d) (opened d ++ [path])%list
                   (closed d))
        | None =>
            (inl (ErrOther ("open " ++ path ++ ": permission denied")), d)
        end
    | ScanFileE (FileAt path) => fun d =>
        match RefHost.lookup path (contents d) with
        | Some lines => (mkScanner lines None, d)
        | None => (mkScanner [] (Some (ErrOther "read: bad file descriptor")), d)
        end
    | FileCloseE (FileAt path) => fun d =>
        (tt, mkDir (contents d) (unreadable d) (opened d)
                   (closed d ++ [path])%list)
    end.

Definition keys_dir : Dir :=
  mkDir [("authorized_keys", ["ssh-ed25519 AAAA alice"; EmptyString;
                              "ssh-rsa BBBB bob"]);
         ("broken_keys", ["ssh-ed25519 AAAA alice"; "not a key";
                          "ssh-rsa BBBB bob"])]
        ["secret_keys"] [] [].

End KeyFiles.

(** ** The pkt-line written by [fatalGit] *)

Lemma hex_value_digit (d : Z) :
  0 <= d < 16 -> hex_value (hex_digit d) = Some d.
Proof.
  intros Hd.
  assert (d = 0 \/ d = 1 \/ d = 2 \/ d = 3 \/ d = 4 \/ d = 5 \/ d = 6 \/ d = 7 \/
          d = 8 \/ d = 9 \/ d = 10 \/ d = 11 \/ d = 12 \/ d = 13 \/ d = 14 \/
          d = 15) as Hcases by lia.
  repeat (destruct Hcases as [-> | Hcases]; [reflexivity |]).
  subst d; reflexivity.
Qed.

Lemma read_hex_from_String (v : Z) (c : ascii) (r : string) (d : Z) :
  hex_value c = Some d ->
  read_hex_from v (String c r) = read_hex_from (16 * v + d) r.
Proof.
  intros Hc. cbn [read_hex_from]. rewrite Hc. reflexivity.
Qed.

Lemma length_append (a b : string) :
  String.length (a ++ b) = (String.length a + String.length b)%nat.
Proof.
  induction a as [| c a IH]; simpl; [reflexivity | now rewrite IH].
Qed.

Lemma length_zeros (k : nat) : String.length (zeros k) = k.
Proof.
  induction k as [| k IH]; simpl; [reflexivity | now rewrite IH].
Qed.

Lemma read_hex_zeros (k : nat) (s : string) :
  read_hex_from 0 (zeros k ++ s) = read_hex_from 0 s.
Proof.
  induction k as [| k IH]; simpl; [reflexivity | exact IH].
Qed.

Lemma read_hex_onto (fuel : nat) :
  forall n acc, 0 <= n < 16 ^ Z.of_nat fuel ->
    read_hex_from 0 (hex_onto fuel n acc) = read_hex_from n acc.
Proof.
  induction fuel as [| fuel IH]; intros n acc Hn.
  - simpl in *. replace n with 0 by lia. reflexivity.
  - assert (Hpow : 16 ^ Z.of_nat (S fuel) = 16 * 16 ^ Z.of_nat fuel).
    { rewrite Nat2Z.inj_succ, Z.pow_succ_r by lia. reflexivity. }
    assert (Hmod : 0 <= n mod 16 < 16) by (apply Z.mod_pos_bound; lia).
    assert (Hdiv : n = 16 * (n / 16) + n mod 16) by (apply Z.div_mod; lia).
    simpl hex_onto.
    destruct (n / 16 =? 0) eqn:Hq.
    + apply Z.eqb_eq in Hq.
      rewrite (read_hex_from_String _ _ _ _ (hex_value_digit _ Hmod)).
      f_equal. lia.
    + apply Z.eqb_neq in Hq.
      rewrite IH by (split; [apply Z.div_pos; lia | apply Z.div_lt_upper_bound; lia]).
      rewrite (read_hex_from_String _ _ _ _ (hex_value_digit _ Hmod)).
      f_equal. lia.
Qed.

Lemma length_hex_onto (fuel : nat) :
  forall (k : nat) n acc, (1 <= k)%nat -> 0 <= n < 16 ^ Z.of_nat k ->
    (String.length (hex_onto fuel n acc) <= k + String.length acc)%nat.
Proof.
  induction fuel as [| fuel IH]; intros k n acc Hk Hn; simpl.
  - lia.
  - destruct (n / 16 =? 0) eqn:Hq; simpl; [lia |].
    apply Z.eqb_neq in Hq.
    destruct k as [| k]; [lia |].
    assert (Hpow : 16 ^ Z.of_nat (S k) = 16 * 16 ^ Z.of_nat k).
    { rewrite Nat2Z.inj_succ, Z.pow_succ_r by lia. reflexivity. }
    assert (Hq0 : 0 <= n / 16) by (apply Z.div_pos; lia).
    assert (Hqk : n / 16 < 16 ^ Z.of_nat k)
      by (apply Z.div_lt_upper_bound; lia).
    destruct k as [| k].
    + simpl in Hqk. lia.
    + specialize (IH (S k) (n / 16) (String (hex_digit (n mod 16)) acc)).
      simpl String.length in IH. lia.
Qed.

Lemma hex_fuel (n : Z) :
  0 <= n -> n < 16 ^ Z.of_nat (S (Z.to_nat (Z.log2 n))).
Proof.
  intros Hn.
  destruct (Z.eq_dec n 0) as [-> | Hnz]; [reflexivity |].
  pose proof (Z.log2_nonneg n) as Hl.
  rewrite Nat2Z.inj_succ, Z2Nat.id by exact Hl.
  assert (Hlt : n < 2 ^ Z.succ (Z.log2 n)) by (apply Z.log2_spec; lia).
  assert (Hle : 2 ^ Z.succ (Z.log2 n) <= 16 ^ Z.succ (Z.log2 n)).
  { apply Z.pow_le_mono_l. lia. }
  lia.
Qed.

Lemma read_hex_hex (n : Z) : 0 <= n -> read_hex (hex n) = Some n.
Proof.
  intros Hn. unfold read_hex, hex.
  rewrite read_hex_onto by (split; [exact Hn | apply hex_fuel; exact Hn]).
  reflexivity.
Qed.

Lemma fmt_04x_width (n : Z) :
  0 <= n < 65536 ->
  String.length (fmt_04x n) = 4%nat /\ read_hex (fmt_04x n) = Some n.
Proof.
  intros Hn. unfold fmt_04x.
  destruct (n <? 0) eqn:Hneg; [apply Z.ltb_lt in Hneg; lia |].
  split.
  - rewrite length_append, length_zeros.
    assert (Hlen : (String.length (hex n) <= 4 + 0)%nat).
    { apply (length_hex_onto (S (Z.to_nat (Z.log2 n))) 4 n EmptyString).
      - lia.
      - change (16 ^ Z.of_nat 4) with 65536. exact Hn. }
    lia.
  - unfold read_hex. rewrite read_hex_zeros. apply read_hex_hex. lia.
Qed.

Lemma wrap_int_small (z : Z) : 0 <= z < 2 ^ 63 -> wrap_int z = z.
Proof.
  intros Hz. unfold wrap_int.
  rewrite Z.mod_small by lia. lia.
Qed.

(** ** Running programs *)

Lemma run_bind {W A B : Type} (h : Handler W) (p : Prog A) (f : A -> Prog B) :
  forall w,
    run h (bind p f) w =
    let '(a, w1, t1) := run h p w in
    let '(b, w2, t2) := run h (f a) w1 in
    (b, w2, (t1 ++ t2)%list).
Proof.
  induction p as [a | X e k IH]; intros w; simpl.
  - destruct (run h (f a) w) as [[b w2] t2]. reflexivity.
  - destruct (h X e w) as [x w1]. rewrite IH.
    destruct (run h (k x) w1) as [[a w2] t1].
    destruct (run h (f a) w2) as [[b w3] t2]. reflexivity.
Qed.

Lemma session_output_app (t1 t2 : list Action) :
  session_output (t1 ++ t2)%list = session_output t1 ++ session_output t2.
Proof.
  induction t1 as [| a t1 IH]; simpl; [reflexivity |].
  destruct (written a) as [b |]; [| exact IH].
  rewrite IH. clear IH.
  induction b as [| c b IHb]; simpl; [reflexivity | now rewrite IHb].
Qed.

Lemma count_app (f : Action -> bool) (t1 t2 : list Action) :
  count f (t1 ++ t2)%list = (count f t1 + count f t2)%nat.
Proof.
  unfold count. rewrite filter_app, length_app. reflexivity.
Qed.

(** A trace made of repository calls only has nothing of the session, of
    the Auth implementation or of the callback in it. *)
Section RepoOnly.

Variable tr : list Action.
Hypothesis Hrepo : forallb touches_repo tr = true.

Lemma repo_only_output : session_output tr = EmptyString.
Proof.
  induction tr as [| [X e] t IH]; simpl in *; [reflexivity |].
  apply andb_prop in Hrepo as [Ha Ht].
  destruct e; try discriminate Ha; auto.
Qed.

Lemma repo_only_count (f : Action -> bool) :
  (forall a, touches_repo a = true -> f a = false) -> count f tr = 0%nat.
Proof.
  intros Hf. unfold count.
  induction tr as [| a t IH]; simpl in *; [reflexivity |].
  apply andb_prop in Hrepo as [Ha Ht].
  rewrite (Hf a Ha). auto.
Qed.

End RepoOnly.

Lemma touches_repo_not_auth (a : Action) :
  touches_repo a = true -> is_auth a = false.
Proof. destruct a as [X e]; destruct e; cbv; congruence. Qed.

Lemma touches_repo_not_callback (a : Action) :
  touches_repo a = true -> is_callback a = false.
Proof. destruct a as [X e]; destruct e; cbv; congruence. Qed.

Lemma touches_repo_not_exit (a : Action) :
  touches_repo a = true -> is_exit a = false.
Proof. destruct a as [X e]; destruct e; cbv; congruence. Qed.

(** Following a program along one answer of the environment after the
    other. *)
Ltac answer h :=
  match goal with
  | H : h ?X ?e ?w = _ |- context [h ?X ?e ?w] => rewrite H
  | |- context [h ?X ?e ?w] =>
      let E := fresh "E" in destruct (h X e w) as [? ?] eqn:E
  end.

Ltac branch :=
  match goal with
  | |- context [IsNotExist ?e] => destruct (IsNotExist e) eqn:?
  | |- context [isErrReferenceNotFound ?e] =>
      destruct (isErrReferenceNotFound e) eqn:?
  | |- context [match ?x with _ => _ end] => is_var x; destruct x
  end.

Ltac paths h :=
  repeat (cbn -[String.append pktLine]; first [answer h | branch]);
  cbn -[String.append pktLine].

Section Traces.

Context {W : Type} (h : Handler W).
Variable Short : string -> string.

Lemma fileExists_trace (path : string) (w : W) :
  trace (run h (fileExists path) w) = [act (StatE path)].
Proof.
  unfold fileExists, trace. paths h; reflexivity.
Qed.

Lemma ensureRepo_repo_only (dir repo : string) (w : W) :
  forallb touches_repo (trace (run h (ensureRepo dir repo) w)) = true.
Proof.
  unfold ensureRepo, fileExists, trace. paths h; reflexivity.
Qed.

Lemma runCmd_trace (dir name : string) (args : list string) (w : W) :
  run h (runCmd dir name args) w =
  (fst (h _ (CmdRunE (mkCmd name args dir true)) w),
   snd (h _ (CmdRunE (mkCmd name args dir true)) w),
   [act (CmdRunE (mkCmd name args dir true))]).
Proof.
  unfold runCmd. paths h; reflexivity.
Qed.

Lemma ensureDefaultBranch_repo_only (repoPath : string) (w : W) :
  forallb touches_repo
    (trace (run h (ensureDefaultBranch Short repoPath) w)) = true.
Proof.
  unfold ensureDefaultBranch, runCmd, trace. paths h; reflexivity.
Qed.

Lemma gitReceivePack_repo_only (gitCmd repoDir repo : string) (w : W) :
  forallb touches_repo
    (trace (run h (gitReceivePack Short gitCmd repoDir repo) w)) = true.
Proof.
  unfold gitReceivePack.
  rewrite run_bind.
  pose proof (ensureRepo_repo_only repoDir repo w) as He.
  destruct (run h (ensureRepo repoDir repo) w) as [[err w1] t1].
  unfold trace in He; simpl in He.
  destruct err as [e |].
  { simpl. unfold trace; simpl. rewrite app_nil_r. exact He. }
  rewrite run_bind, runCmd_trace.
  destruct (h _ (CmdRunE (mkCmd gitCmd [repoDir ++ repo] "./" true)) w1)
    as [err w2]; simpl fst; simpl snd.
  destruct err as [e |].
  { unfold trace; simpl. rewrite forallb_app, He. reflexivity. }
  rewrite run_bind, runCmd_trace.
  destruct (h _ (CmdRunE (mkCmd "git" ["update-server-info"]
                            (repoDir ++ repo) true)) w2)
    as [err w3]; simpl fst; simpl snd.
  destruct err as [e |].
  { unfold trace; simpl. rewrite forallb_app, He. reflexivity. }
  rewrite run_bind.
  pose proof (ensureDefaultBranch_repo_only (repoDir ++ repo) w3) as Hd.
  destruct (run h (ensureDefaultBranch Short (repoDir ++ repo)) w3)
    as [[err w4] t4].
  unfold trace in Hd; simpl in Hd.
  destruct err as [e |]; unfold trace; simpl;
    rewrite forallb_app, He; simpl; rewrite app_nil_r; exact Hd.
Qed.

Lemma gitUploadPack_repo_only (gitCmd repoDir repo : string) (w : W) :
  forallb touches_repo
    (trace (run h (gitUploadPack gitCmd repoDir repo) w)) = true.
Proof.
  unfold gitUploadPack, fileExists, runCmd, trace. paths h; reflexivity.
Qed.

End Traces.

Section Dispatch.

Context {W : Type} (h : Handler W).
Variable Short : string -> string.
Variables (repoDir : string) (auth : Auth) (cb : option PushCallback).

Lemma ensureRepo_starts (dir repo : string) (w : W) :
  exists t, trace (run h (ensureRepo dir repo) w) = act (StatE dir) :: t.
Proof.
  unfold ensureRepo, fileExists, trace. paths h; eexists; reflexivity.
Qed.

Lemma gitReceivePack_starts (gitCmd repo : string) (w : W) :
  exists t,
    trace (run h (gitReceivePack Short gitCmd repoDir repo) w) =
    act (StatE repoDir) :: t.
Proof.
  unfold gitReceivePack. rewrite run_bind.
  destruct (ensureRepo_starts repoDir repo w) as [t Ht].
  destruct (run h (ensureRepo repoDir repo) w) as [[err w1] t1].
  unfold trace in Ht; simpl in Ht; subst t1.
  match goal with
  | |- context [run h ?p w1] => destruct (run h p w1) as [[b w2] t2]
  end.
  eexists. reflexivity.
Qed.

Lemma gitUploadPack_starts (gitCmd repo : string) (w : W) :
  exists t,
    trace (run h (gitUploadPack gitCmd repoDir repo) w) =
    act (StatE (repoDir ++ repo)) :: t.
Proof.
  unfold gitUploadPack, fileExists, runCmd, trace.
  paths h; eexists; reflexivity.
Qed.

(** The three shapes of a run of [dispatch] on a two-element command. *)
Lemma dispatch_receive_allowed (s : Session) (repo : string) (w w1 w2 : W)
    (access : AccessLevel) (err : option error) (t2 : list Action) :
  Command s = ["git-receive-pack"; repo] ->
  h _ (AuthRepoE auth repo (SessionPublicKey s)) w = (access, w1) ->
  access = ReadWriteAccess \/ access = AdminAccess ->
  run h (gitReceivePack Short "git-receive-pack" repoDir repo) w1
    = (err, w2, t2) ->
  trace (run h (dispatch Short repoDir auth cb s) w) =
  (act (AuthRepoE auth repo (SessionPublicKey s))
     :: t2 ++ report_actions "git-receive-pack" err
           ++ callback_actions cb repo (SessionPublicKey s))%list.
Proof.
  intros Hcmd Hauth Hacc Hrcv. unfold dispatch. rewrite Hcmd.
  cbn -[gitReceivePack fatalGit String.append].
  rewrite Hauth.
  assert (Hrun : forall p : Prog unit,
    run h (match access with
           | ReadWriteAccess | AdminAccess => p
           | _ => fatalGit ErrNotAuthed
           end) w1 = run h p w1)
    by (intros p; destruct Hacc; subst access; reflexivity).
  rewrite Hrun, run_bind, Hrcv, run_bind.
  destruct err as [e |], cb as [f |]; unfold trace; paths h; reflexivity.
Qed.

Lemma dispatch_upload_allowed (s : Session) (gc repo : string) (w w1 w2 : W)
    (access : AccessLevel) (err : option error) (t2 : list Action) :
  Command s = [gc; repo] ->
  gc = "git-upload-pack" \/ gc = "git-upload-archive" ->
  h _ (AuthRepoE auth repo (SessionPublicKey s)) w = (access, w1) ->
  access <> NoAccess ->
  run h (gitUploadPack gc repoDir repo) w1 = (err, w2, t2) ->
  trace (run h (dispatch Short repoDir auth cb s) w) =
  (act (AuthRepoE auth repo (SessionPublicKey s))
     :: t2 ++ report_actions gc err)%list.
Proof.
  intros Hcmd Hgc Hauth Hacc Hup. unfold dispatch. rewrite Hcmd.
  cbn -[gitUploadPack fatalGit String.append String.eqb].
  rewrite Hauth.
  assert (Heqb : String.eqb gc "git-receive-pack" = false
                 /\ String.eqb gc "git-upload-archive"
                    || String.eqb gc "git-upload-pack" = true)
    by (destruct Hgc; subst gc; split; reflexivity).
  destruct Heqb as [-> ->].
  assert (Hrun : forall p : Prog unit,
    run h (match access with
           | NoAccess => fatalGit ErrNotAuthed
           | _ => p
           end) w1 = run h p w1)
    by (intros p; destruct access; congruence).
  rewrite Hrun, run_bind, Hup.
  destruct err as [e |]; unfold trace; paths h; reflexivity.
Qed.

Lemma dispatch_other (s : Session) (gc repo : string) (w : W) :
  Command s = [gc; repo] ->
  gc <> "git-receive-pack" -> gc <> "git-upload-pack" ->
  gc <> "git-upload-archive" ->
  trace (run h (dispatch Short repoDir auth cb s) w) =
  [act (AuthRepoE auth repo (SessionPublicKey s))].
Proof.
  intros Hcmd H1 H2 H3. unfold dispatch. rewrite Hcmd.
  cbn -[gitReceivePack gitUploadPack fatalGit String.append String.eqb].
  apply String.eqb_neq in H1, H2, H3. rewrite H1, H2, H3.
  unfold trace; paths h; reflexivity.
Qed.

Lemma dispatch_not_git (s : Session) (w : W) :
  List.length (Command s) <> 2%nat ->
  run h (dispatch Short repoDir auth cb s) w = (tt, w, []).
Proof.
  intros Hlen. unfold dispatch.
  destruct (Nat.eqb_spec (List.length (Command s)) 2) as [Heq | _];
    [contradiction | reflexivity].
Qed.

Lemma dispatch_refused (s : Session) (gc repo : string) (w w1 : W)
    (access : AccessLevel) :
  Command s = [gc; repo] ->
  h _ (AuthRepoE auth repo (SessionPublicKey s)) w = (access, w1) ->
  gc = "git-receive-pack"
    /\ (access = NoAccess \/ access = ReadOnlyAccess)
  \/ (gc = "git-upload-pack" \/ gc = "git-upload-archive")
    /\ access = NoAccess ->
  trace (run h (dispatch Short repoDir auth cb s) w) =
  [act (AuthRepoE auth repo (SessionPublicKey s));
   act (SessionWriteE (pktLine "you are not authorized to do this"));
   act (SessionExitE 1)].
Proof.
  intros Hcmd Hauth Hcase. unfold dispatch. rewrite Hcmd.
  cbn -[gitReceivePack gitUploadPack pktLine String.append String.eqb].
  rewrite Hauth.
  destruct Hcase as [[-> [-> | ->]] | [[-> | ->] ->]];
    unfold trace; paths h; reflexivity.
Qed.

(** Every run of [dispatch] on a two-element command: the call of
    [AuthRepo], and then a refusal, or a git operation with its report and
    callback, or nothing. *)
Lemma dispatch_cases (s : Session) (gc repo : string) (w w1 : W)
    (access : AccessLevel) :
  Command s = [gc; repo] ->
  h _ (AuthRepoE auth repo (SessionPublicKey s)) w = (access, w1) ->
  exists rest,
    trace (run h (dispatch Short repoDir auth cb s) w) =
      act (AuthRepoE auth repo (SessionPublicKey s)) :: rest
    /\ ((rest = [act (SessionWriteE (pktLine "you are not authorized to do this"));
                 act (SessionExitE 1)]
         /\ (gc = "git-receive-pack"
               /\ (access = NoAccess \/ access = ReadOnlyAccess)
             \/ (gc = "git-upload-pack" \/ gc = "git-upload-archive")
               /\ access = NoAccess))
        \/ (exists t2 t2' err t4,
              rest = (t2 ++ report_actions gc err ++ t4)%list
              /\ t2 = act (StatE (if String.eqb gc "git-receive-pack"
                                  then repoDir else repoDir ++ repo)) :: t2'
              /\ forallb touches_repo t2 = true
              /\ (t4 = []
                  \/ gc = "git-receive-pack"
                     /\ t4 = callback_actions cb repo (SessionPublicKey s))
              /\ (gc = "git-receive-pack"
                    /\ (access = ReadWriteAccess \/ access = AdminAccess)
                  \/ (gc = "git-upload-pack" \/ gc = "git-upload-archive")
                    /\ access <> NoAccess))
        \/ (rest = []
            /\ gc <> "git-receive-pack" /\ gc <> "git-upload-pack"
            /\ gc <> "git-upload-archive")).
Proof.
  intros Hcmd Hauth.
  destruct (String.eqb_spec gc "git-receive-pack") as [Hr | Hr].
  - subst gc.
    assert (Hacc : (access = NoAccess \/ access = ReadOnlyAccess)
                   \/ (access = ReadWriteAccess \/ access = AdminAccess))
      by (destruct access; auto).
    destruct Hacc as [Hno | Hyes].
    + eexists; split; [apply (dispatch_refused _ _ _ _ _ _ Hcmd Hauth); auto |].
      left; auto.
    + destruct (run h (gitReceivePack Short "git-receive-pack" repoDir repo) w1)
        as [[err w2] t2] eqn:Hrcv.
      pose proof (gitReceivePack_repo_only h Short "git-receive-pack"
                    repoDir repo w1) as Honly.
      destruct (gitReceivePack_starts "git-receive-pack" repo w1) as [t2' Ht2].
      rewrite Hrcv in Honly, Ht2. unfold trace in Honly, Ht2; simpl in Honly, Ht2.
      eexists; split;
        [apply (dispatch_receive_allowed _ _ _ _ _ _ _ _ Hcmd Hauth Hyes Hrcv) |].
      right; left. exists t2, t2', err, (callback_actions cb repo (SessionPublicKey s)).
      repeat split; auto.
  - destruct (String.eqb_spec gc "git-upload-pack") as [Hu | Hu];
      [| destruct (String.eqb_spec gc "git-upload-archive") as [Ha | Ha]].
    3: { eexists; split; [apply (dispatch_other _ _ _ _ Hcmd); assumption |].
         right; right; auto. }
    all: assert (Hgc : gc = "git-upload-pack" \/ gc = "git-upload-archive")
           by auto.
    all: destruct access eqn:Hacc;
      [ eexists; split;
          [apply (dispatch_refused _ _ _ _ _ _ Hcmd Hauth); auto | left; auto]
      | | | ].
    all: destruct (run h (gitUploadPack gc repoDir repo) w1)
           as [[err w2] t2] eqn:Hup.
    all: pose proof (gitUploadPack_repo_only h gc repoDir repo w1) as Honly.
    all: destruct (gitUploadPack_starts gc repo w1) as [t2' Ht2].
    all: rewrite Hup in Honly, Ht2; unfold trace in Honly, Ht2;
           simpl in Honly, Ht2.
    all: eexists; split;
           [apply (dispatch_upload_allowed _ _ _ _ _ _ _ _ _ Hcmd Hgc Hauth
                     ltac:(discriminate) Hup) |].
    all: right; left; exists t2, t2', err, []; rewrite app_nil_r.
    all: replace (String.eqb gc "git-receive-pack") with false
           by (symmetry; apply String.eqb_neq; assumption).
    all: repeat split; auto; right; split; auto; discriminate.
Qed.

End Dispatch.

Lemma append_empty_r (a : string) : a ++ EmptyString = a.
Proof.
  induction a as [| c a IH]; simpl; [reflexivity | now rewrite IH].
Qed.

Lemma touches_repo_not_written (a : Action) :
  touches_repo a = true -> written a = None.
Proof. destruct a as [X e]; destruct e; cbv; congruence. Qed.

Lemma existsb_touches_cons_stat (p : string) (t : list Action) :
  existsb touches_repo (act (StatE p) :: t) = true.
Proof. reflexivity. Qed.

Lemma report_actions_output (gc : string) (err : option error) :
  session_output (report_actions gc err) =
  match err with
  | Some _ => pktLine "something went wrong"
  | None => EmptyString
  end.
Proof.
  destruct err as [e |]; [| reflexivity].
  cbn -[pktLine]. apply append_empty_r.
Qed.

Lemma report_actions_count (f : Action -> bool) (gc : string)
    (err : option error) :
  (forall l, f (act (LogPrintfE l)) = false) ->
  (forall b, f (act (SessionWriteE b)) = false) ->
  (forall c, f (act (SessionExitE c)) = false) ->
  count f (report_actions gc err) = 0%nat.
Proof.
  intros Hl Hw He. destruct err as [e |]; [| reflexivity].
  unfold count, report_actions. cbn [filter].
  rewrite Hl, Hw, He. reflexivity.
Qed.

(** The two lines of the package, byte for byte. *)
Lemma pktLine_NotAuthed :
  pktLine "you are not authorized to do this"
  = "0026you are not authorized to do this" ++ newline.
Proof. vm_compute. reflexivity. Qed.

Lemma pktLine_SystemMalfunction :
  pktLine "something went wrong" = "0019something went wrong" ++ newline.
Proof. vm_compute. reflexivity. Qed.

(** ** The claims *)

(** C1.  On a two-element command [(gc, repo)]: for [git-receive-pack] the
    handler goes to the repository store exactly when [AuthRepo] answered
    [ReadWriteAccess] or [AdminAccess]; for [git-upload-pack] and
    [git-upload-archive] exactly when it answered [ReadOnlyAccess],
    [ReadWriteAccess] or [AdminAccess]; and whenever access is insufficient
    the handler's calls are [AuthRepo], one write of the bytes
    [0026you are not authorized to do this] and a newline, and [Exit(1)]:
    these bytes are all of the session output, a reader of pkt-lines takes
    from them the message and its newline and nothing is left, no
    subprocess is run and nothing is created on disk. *)
Theorem authorization_gate {W : Type} (h : Handler W)
    (Short : string -> string) (repoDir : string) (auth : Auth)
    (cb : option PushCallback) (s : Session) (gc repo : string) (w w1 : W)
    (access : AccessLevel) :
  Command s = [gc; repo] ->
  h _ (AuthRepoE auth repo (SessionPublicKey s)) w = (access, w1) ->
  let tr := trace (run h (dispatch Short repoDir auth cb s) w) in
  (gc = "git-receive-pack" ->
     (existsb touches_repo tr = true <->
      access = ReadWriteAccess \/ access = AdminAccess))
  /\ (gc = "git-upload-pack" \/ gc = "git-upload-archive" ->
      (existsb touches_repo tr = true <->
       access = ReadOnlyAccess \/ access = ReadWriteAccess
       \/ access = AdminAccess))
  /\ (gc = "git-receive-pack" \/ gc = "git-upload-pack"
      \/ gc = "git-upload-archive" ->
      existsb touches_repo tr = false ->
      tr = [act (AuthRepoE auth repo (SessionPublicKey s));
            act (SessionWriteE
                   ("0026you are not authorized to do this" ++ newline));
            act (SessionExitE 1)]
      /\ session_output tr = "0026you are not authorized to do this" ++ newline
      /\ read_pkt_line (session_output tr)
         = Some ("you are not authorized to do this" ++ newline, EmptyString)
      /\ existsb is_spawn tr = false
      /\ existsb mutates_disk tr = false).
Proof.
  intros Hcmd Hauth tr.
  destruct (dispatch_cases h Short repoDir auth cb s gc repo w w1 access
              Hcmd Hauth) as [rest [Htr Hcases]].
  fold tr in Htr.
  destruct Hcases as [[Hrest Hwhy] | [Hop | [Hrest Hother]]].
  - (* refused *)
    assert (Hquiet : existsb touches_repo tr = false)
      by (rewrite Htr, Hrest; reflexivity).
    split; [| split].
    + intros Hgc. rewrite Hquiet. split; [discriminate |].
      intros Hacc.
      destruct Hwhy as [[_ [Hn | Hn]] | [[Hu | Hu] _]];
        try (subst gc; discriminate); subst access;
        destruct Hacc; discriminate.
    + intros Hgc. rewrite Hquiet. split; [discriminate |].
      intros Hacc.
      destruct Hwhy as [[Hr _] | [_ Hn]].
      * subst gc. destruct Hgc; discriminate.
      * subst access. destruct Hacc as [Hacc | [Hacc | Hacc]]; discriminate.
    + intros _ _. rewrite Htr, Hrest, pktLine_NotAuthed.
      split; [reflexivity |].
      split; [reflexivity |].
      split; [vm_compute; reflexivity |].
      split; reflexivity.
  - (* the git operation runs *)
    destruct Hop as [t2 [t2' [err [t4 [Hrest [Ht2 [_ [_ Hwhy]]]]]]]].
    assert (Hloud : existsb touches_repo tr = true)
      by (rewrite Htr, Hrest, Ht2; reflexivity).
    split; [| split].
    + intros Hgc. rewrite Hloud. split; [intros _ | reflexivity].
      destruct Hwhy as [[_ Hacc] | [[Hu | Hu] _]];
        [exact Hacc | subst gc; discriminate | subst gc; discriminate].
    + intros Hgc. rewrite Hloud. split; [intros _ | reflexivity].
      destruct Hwhy as [[Hr _] | [_ Hacc]].
      * subst gc; destruct Hgc; discriminate.
      * destruct access; auto; contradiction.
    + intros _ Hquiet. rewrite Hloud in Hquiet. discriminate.
  - (* not a git subcommand *)
    destruct Hother as [H1 [H2 H3]].
    split; [| split]; intros Hgc.
    + congruence.
    + destruct Hgc; congruence.
    + destruct Hgc as [Hgc | [Hgc | Hgc]]; congruence.
Qed.

Lemma authorization_gate_witness :
  let s := Scenario.push None in
  let tr := trace (run RefHost.handle
                     (dispatch RefHost.Short "/repos/" Scenario.theAuth
                        (Some Scenario.theCallback) s) Scenario.fresh) in
  Command s = ["git-receive-pack"; "team/app.git"]
  /\ RefHost.handle _ (AuthRepoE Scenario.theAuth "team/app.git" None)
       Scenario.fresh = (NoAccess, Scenario.fresh)
  /\ tr = [act (AuthRepoE Scenario.theAuth "team/app.git" None);
           act (SessionWriteE
                  ("0026you are not authorized to do this" ++ newline));
           act (SessionExitE 1)]
  /\ session_output tr = "0026you are not authorized to do this" ++ newline
  /\ read_pkt_line (session_output tr)
     = Some ("you are not authorized to do this" ++ newline, EmptyString)
  /\ existsb is_spawn tr = false
  /\ existsb mutates_disk tr = false.
Proof.
  split; [reflexivity |]. split; [reflexivity |].
  apply (authorization_gate RefHost.handle RefHost.Short "/repos/"
           Scenario.theAuth (Some Scenario.theCallback) (Scenario.push None)
           "git-receive-pack" "team/app.git" Scenario.fresh Scenario.fresh
           NoAccess eq_refl eq_refl).
  - left; reflexivity.
  - vm_compute; reflexivity.
Defined.

(** C9.  On a command of exactly two elements [AuthRepo] is the first call
    of the handler and is called exactly once, with the second element and
    the session's key, whatever the first element is: when that is none of
    the three git subcommands, the call of [AuthRepo] is the only thing the
    handler does.  On a command of any other length the handler calls
    nothing at all. *)
Theorem AuthRepo_called_once_and_first {W : Type} (h : Handler W)
    (Short : string -> string) (repoDir : string) (auth : Auth)
    (cb : option PushCallback) (s : Session) (w : W) :
  let tr := trace (run h (dispatch Short repoDir auth cb s) w) in
  let checked :=
    act (AuthRepoE auth (nth 1 (Command s) EmptyString) (SessionPublicKey s)) in
  (List.length (Command s) = 2%nat ->
     hd_error tr = Some checked
     /\ count is_auth tr = 1%nat
     /\ (nth 0 (Command s) EmptyString <> "git-receive-pack" ->
         nth 0 (Command s) EmptyString <> "git-upload-pack" ->
         nth 0 (Command s) EmptyString <> "git-upload-archive" ->
         tr = [checked]))
  /\ (List.length (Command s) <> 2%nat -> tr = []).
Proof.
  intros tr checked. split.
  - intros Hlen.
    destruct (Command s) as [| gc [| repo [| x l]]] eqn:Hcmd;
      try discriminate Hlen.
    destruct (h _ (AuthRepoE auth repo (SessionPublicKey s)) w)
      as [access w1] eqn:Hauth.
    destruct (dispatch_cases h Short repoDir auth cb s gc repo w w1 access
                Hcmd Hauth) as [rest [Htr Hcases]].
    fold tr in Htr. subst checked. cbn [nth].
    rewrite Htr. split; [reflexivity |].
    destruct Hcases as [[Hrest _] | [Hop | [Hrest _]]].
    + subst rest. split; [reflexivity |].
      intros H1 H2 H3. 
      pose proof (dispatch_other h Short repoDir auth cb s gc repo w
                    Hcmd H1 H2 H3) as Hother.
      fold tr in Hother. congruence.
    + destruct Hop as [t2 [t2' [err [t4 [Hrest [_ [Honly [Ht4 Hwhy]]]]]]]].
      split.
      * change (act (AuthRepoE auth repo (SessionPublicKey s)) :: rest)
          with ([act (AuthRepoE auth repo (SessionPublicKey s))] ++ rest)%list.
        rewrite count_app, Hrest, !count_app.
        rewrite (repo_only_count t2 Honly is_auth touches_repo_not_auth).
        rewrite report_actions_count by reflexivity.
        destruct Ht4 as [-> | [_ ->]]; [reflexivity |].
        destruct cb; reflexivity.
      * intros H1 H2 H3.
        destruct Hwhy as [[Hr _] | [[Hu | Hu] _]]; congruence.
    + subst rest. split; [reflexivity | reflexivity].
  - intros Hlen. unfold tr.
    rewrite (dispatch_not_git h Short repoDir auth cb s w Hlen). reflexivity.
Qed.

Lemma AuthRepo_called_once_and_first_witness :
  let s := mkSession ["git-upload-pacc"; "team/app.git"] (Some "reader") in
  let tr := trace (run RefHost.handle
                     (dispatch RefHost.Short "/repos/" Scenario.theAuth None s)
                     Scenario.fresh) in
  List.length (Command s) = 2%nat
  /\ hd_error tr
     = Some (act (AuthRepoE Scenario.theAuth "team/app.git" (Some "reader")))
  /\ count is_auth tr = 1%nat
  /\ tr = [act (AuthRepoE Scenario.theAuth "team/app.git" (Some "reader"))]
  /\ trace (run RefHost.handle
              (dispatch RefHost.Short "/repos/" Scenario.theAuth None
                 (mkSession ["git-upload-pack"] (Some "reader")))
              Scenario.fresh) = [].
Proof.
  split; [reflexivity |].
  destruct (AuthRepo_called_once_and_first RefHost.handle RefHost.Short
              "/repos/" Scenario.theAuth None
              (mkSession ["git-upload-pacc"; "team/app.git"] (Some "reader"))
              Scenario.fresh) as [Htwo _].
  destruct (Htwo eq_refl) as [Hfirst [Honce Honly]].
  split; [exact Hfirst |]. split; [exact Honce |].
  split; [apply Honly; cbn [nth Command]; discriminate |].
  apply (proj2 (AuthRepo_called_once_and_first RefHost.handle RefHost.Short
                  "/repos/" Scenario.theAuth None
                  (mkSession ["git-upload-pack"] (Some "reader"))
                  Scenario.fresh)).
  cbn [Command List.length]. discriminate.
Defined.

(** C3.  [fatalGit] makes two calls on the session, in this order: one write
    of [Sprintf("%04x%s\n", len(msg)+5, msg)] for the message [msg] of the
    error, then [Exit(1)].  Whenever [len(msg)+5] fits four hexadecimal
    digits, as it does for both messages of the package, the line is a
    prefix of exactly four characters followed by the message and a
    newline, and the prefix read as a hexadecimal number is the length of
    the whole line: prefix, message and newline. *)
Theorem fatalGit_writes_pkt_line_then_exits {W : Type} (h : Handler W)
    (w : W) (err : error) :
  let msg := Error err in
  trace (run h (fatalGit err) w) =
    [act (SessionWriteE (fmt_04x (int_add (len msg) 5) ++ msg ++ newline));
     act (SessionExitE 1)]
  /\ (len msg + 5 < 65536 ->
      exists prefix,
        pktLine msg = prefix ++ msg ++ newline
        /\ String.length prefix = 4%nat
        /\ read_hex prefix = Some (len msg + 5)
        /\ read_hex prefix = Some (len (pktLine msg))).
Proof.
  intros msg. split.
  - unfold fatalGit, trace. fold msg. paths h. reflexivity.
  - intros Hfit.
    assert (Hlen : 0 <= len msg) by (unfold len; lia).
    assert (Hadd : int_add (len msg) 5 = len msg + 5).
    { unfold int_add. apply wrap_int_small.
      split; [lia |]. change (2 ^ 63) with 9223372036854775808. lia. }
    destruct (fmt_04x_width (len msg + 5)) as [Hfour Hread]; [lia |].
    exists (fmt_04x (len msg + 5)).
    split; [unfold pktLine; rewrite Hadd; reflexivity |].
    split; [exact Hfour |]. split; [exact Hread |].
    rewrite Hread. f_equal.
    unfold pktLine. rewrite Hadd. unfold len at 2.
    rewrite !length_append, Hfour.
    simpl String.length. unfold len. lia.
Qed.

Lemma fatalGit_writes_pkt_line_then_exits_witness :
  len (Error ErrNotAuthed) + 5 < 65536
  /\ exists prefix,
       pktLine (Error ErrNotAuthed)
       = prefix ++ "you are not authorized to do this" ++ newline
       /\ String.length prefix = 4%nat
       /\ read_hex prefix = Some 38
       /\ read_hex prefix = Some (len (pktLine (Error ErrNotAuthed))).
Proof.
  split; [reflexivity |].
  apply (proj2 (fatalGit_writes_pkt_line_then_exits RefHost.handle
                  Scenario.fresh ErrNotAuthed)).
  reflexivity.
Defined.

(** Every write of the handler carries the pkt-line of one of the two
    messages of the package, and all it writes is nothing, or the one, or
    the other. *)
Lemma dispatch_writes_one_of_two {W : Type} (h : Handler W)
    (Short : string -> string) (repoDir : string) (auth : Auth)
    (cb : option PushCallback) (s : Session) (w : W) :
  let tr := trace (run h (dispatch Short repoDir auth cb s) w) in
  (forall a b, In a tr -> written a = Some b ->
     b = pktLine "you are not authorized to do this"
     \/ b = pktLine "something went wrong")
  /\ (session_output tr = EmptyString
      \/ session_output tr = pktLine "you are not authorized to do this"
      \/ session_output tr = pktLine "something went wrong")
  /\ (forall gc repo access w1 e w2 t2,
        Command s = [gc; repo] ->
        h _ (AuthRepoE auth repo (SessionPublicKey s)) w = (access, w1) ->
        gc = "git-receive-pack"
          /\ (access = ReadWriteAccess \/ access = AdminAccess)
          /\ run h (gitReceivePack Short gc repoDir repo) w1 = (Some e, w2, t2)
        \/ (gc = "git-upload-pack" \/ gc = "git-upload-archive")
          /\ access <> NoAccess
          /\ run h (gitUploadPack gc repoDir repo) w1 = (Some e, w2, t2) ->
        session_output tr = pktLine "something went wrong").
Proof.
  intros tr.
  assert (Hshape :
    tr = [] \/
    exists gc repo access w1 rest,
      Command s = [gc; repo]
      /\ h _ (AuthRepoE auth repo (SessionPublicKey s)) w = (access, w1)
      /\ tr = act (AuthRepoE auth repo (SessionPublicKey s)) :: rest
      /\ (rest = [act (SessionWriteE (pktLine "you are not authorized to do this"));
                  act (SessionExitE 1)]
          \/ rest = []
          \/ exists t2 err t4,
               rest = (t2 ++ report_actions gc err ++ t4)%list
               /\ forallb touches_repo t2 = true
               /\ (t4 = [] \/ t4 = callback_actions cb repo (SessionPublicKey s)))).
  { destruct (Nat.eq_dec (List.length (Command s)) 2) as [Hlen | Hlen].
    - right.
      destruct (Command s) as [| gc [| repo [| x l]]] eqn:Hcmd;
        try discriminate Hlen.
      destruct (h _ (AuthRepoE auth repo (SessionPublicKey s)) w)
        as [access w1] eqn:Hauth.
      destruct (dispatch_cases h Short repoDir auth cb s gc repo w w1 access
                  Hcmd Hauth) as [rest [Htr Hcases]].
      exists gc, repo, access, w1, rest.
      repeat (split; [first [reflexivity | assumption] |]).
      destruct Hcases as [[Hrest _] | [Hop | [Hrest _]]]; auto.
      destruct Hop as [t2 [t2' [err [t4 [Hrest [_ [Honly [Ht4 _]]]]]]]].
      right; right. exists t2, err, t4.
      repeat (split; [assumption |]).
      destruct Ht4 as [-> | [_ ->]]; auto.
    - left. unfold tr.
      rewrite (dispatch_not_git h Short repoDir auth cb s w Hlen). reflexivity. }
  split; [| split].
  - intros a b Hin Hb.
    destruct Hshape as [Hnil | [gc [repo [access [w1 [rest [_ [_ [Htr Hrest]]]]]]]]].
    { rewrite Hnil in Hin. destruct Hin. }
    rewrite Htr in Hin. destruct Hin as [<- | Hin]; [discriminate Hb |].
    destruct Hrest as [-> | [-> | [t2 [err [t4 [-> [Honly Ht4]]]]]]].
    + destruct Hin as [<- | [<- | []]]; [| discriminate Hb].
      left. cbv [written projT2 act] in Hb. congruence.
    + destruct Hin.
    + apply in_app_or in Hin. destruct Hin as [Hin | Hin].
      * rewrite forallb_forall in Honly.
        rewrite (touches_repo_not_written a (Honly a Hin)) in Hb.
        discriminate Hb.
      * apply in_app_or in Hin. destruct Hin as [Hin | Hin].
        -- destruct err as [e |]; [| destruct Hin].
           destruct Hin as [<- | [<- | [<- | []]]]; try discriminate Hb.
           right. cbv [written projT2 act Error] in Hb. congruence.
        -- destruct Ht4 as [-> | ->]; [destruct Hin |].
           destruct cb as [f |]; [| destruct Hin].
           destruct Hin as [<- | []]. discriminate Hb.
  - destruct Hshape as [Hnil | [gc [repo [access [w1 [rest [_ [_ [Htr Hrest]]]]]]]]].
    { rewrite Hnil. left; reflexivity. }
    rewrite Htr.
    destruct Hrest as [-> | [-> | [t2 [err [t4 [-> [Honly Ht4]]]]]]].
    + right; left. cbn -[pktLine]. apply append_empty_r.
    + left; reflexivity.
    + change (session_output (?a :: ?l)) with (session_output l).
      rewrite !session_output_app, (repo_only_output t2 Honly),
        report_actions_output.
      assert (Ht4' : session_output t4 = EmptyString)
        by (destruct Ht4 as [-> | ->]; [| destruct cb]; reflexivity).
      rewrite Ht4'. destruct err; cbn -[pktLine]; rewrite ?append_empty_r; auto.
  - intros gc repo access w1 e w2 t2 Hcmd Hauth Hfail.
    assert (Ht4 : forall t4 : list Action,
              t4 = callback_actions cb repo (SessionPublicKey s) \/ t4 = [] ->
              session_output t4 = EmptyString)
      by (intros t4 [-> | ->]; [destruct cb |]; reflexivity).
    destruct Hfail as [[-> [Hacc Hrun]] | [Hgc [Hacc Hrun]]].
    + unfold tr.
      rewrite (dispatch_receive_allowed h Short repoDir auth cb s repo w w1 w2
                 access (Some e) t2 Hcmd Hauth Hacc Hrun).
      change (session_output (?a :: ?l)) with (session_output l).
      pose proof (gitReceivePack_repo_only h Short "git-receive-pack"
                    repoDir repo w1) as Honly.
      rewrite Hrun in Honly.
      rewrite !session_output_app, (repo_only_output t2 Honly),
        report_actions_output, Ht4 by auto.
      cbn -[pktLine]. apply append_empty_r.
    + unfold tr.
      rewrite (dispatch_upload_allowed h Short repoDir auth cb s gc repo w w1 w2
                 access (Some e) t2 Hcmd Hgc Hauth Hacc Hrun).
      change (session_output (?a :: ?l)) with (session_output l).
      pose proof (gitUploadPack_repo_only h gc repoDir repo w1) as Honly.
      rewrite Hrun in Honly.
      rewrite !session_output_app, (repo_only_output t2 Honly),
        report_actions_output.
      reflexivity.
Qed.


(** Going through a program along every answer, the errors taken apart. *)
Ltac branch_error :=
  match goal with
  | |- context [IsNotExist ?e] => is_var e; destruct e
  | |- context [isErrReferenceNotFound ?e] => is_var e; destruct e
  | |- context [match ?x with _ => _ end] => is_var x; destruct x
  end.

Ltac all_paths h :=
  repeat (cbn -[String.append pktLine]; first [answer h | branch_error]);
  cbn -[String.append pktLine].

(** On an authorized push the client is sent the generic line exactly when
    a step of the push path failed, and nothing otherwise. *)
Lemma push_reports_exactly_its_failures {W : Type} (h : Handler W)
    (Short : string -> string) (repoDir : string) (auth : Auth)
    (cb : option PushCallback) (s : Session) (w w1 : W) (repo : string)
    (access : AccessLevel) :
  Command s = ["git-receive-pack"; repo] ->
  h _ (AuthRepoE auth repo (SessionPublicKey s)) w = (access, w1) ->
  access = ReadWriteAccess \/ access = AdminAccess ->
  session_output (trace (run h (dispatch Short repoDir auth cb s) w)) =
  if existsb failed (snd (run_answers h (dispatch Short repoDir auth cb s) w))
  then "0019something went wrong" ++ newline
  else EmptyString.
Proof.
  intros Hcmd Hauth Hacc. unfold dispatch. rewrite Hcmd.
  cbn -[gitReceivePack fatalGit String.append]. rewrite Hauth.
  unfold trace, gitReceivePack, ensureRepo, fileExists, runCmd,
    ensureDefaultBranch, fatalGit.
  destruct Hacc; subst access; destruct cb;
    all_paths h; rewrite ?pktLine_SystemMalfunction; reflexivity.
Qed.

(** On an authorized fetch the client is sent the generic line exactly
    when the upload subprocess failed, and nothing otherwise. *)
Lemma fetch_reports_exactly_a_failed_command {W : Type} (h : Handler W)
    (Short : string -> string) (repoDir : string) (auth : Auth)
    (cb : option PushCallback) (s : Session) (w w1 : W) (gc repo : string)
    (access : AccessLevel) :
  Command s = [gc; repo] ->
  gc = "git-upload-pack" \/ gc = "git-upload-archive" ->
  h _ (AuthRepoE auth repo (SessionPublicKey s)) w = (access, w1) ->
  access <> NoAccess ->
  session_output (trace (run h (dispatch Short repoDir auth cb s) w)) =
  if existsb command_failed
       (snd (run_answers h (dispatch Short repoDir auth cb s) w))
  then "0019something went wrong" ++ newline
  else EmptyString.
Proof.
  intros Hcmd Hgc Hauth Hacc. unfold dispatch. rewrite Hcmd.
  cbn -[gitUploadPack fatalGit String.append]. rewrite Hauth.
  unfold trace, gitUploadPack, fileExists, runCmd, fatalGit.
  destruct Hgc; subst gc; destruct access; try contradiction;
    all_paths h; rewrite ?pktLine_SystemMalfunction; reflexivity.
Qed.

(** C5, as stated, fails on the fetch path.  A fetch by a key with
    [ReadOnlyAccess] of a repository on whose path [Stat] is refused: a
    step of an authorized operation has failed, and the handler sends
    nothing to the client, logs nothing and does not exit the session. *)
Lemma internal_failure_on_fetch_counterexample :
  let s := Scenario.fetch (Some "reader") in
  let p := dispatch RefHost.Short "/repos/" Scenario.theAuth None s in
  let tr := trace (run RefHost.handle p Trouble.locked_repository) in
  fst (RefHost.handle _ (AuthRepoE Scenario.theAuth "team/app.git"
                           (Some "reader")) Trouble.locked_repository)
    = ReadOnlyAccess
  /\ RefHost.stat "/repos/team/app.git" Trouble.locked_repository
     = Some (ErrOther "stat /repos/team/app.git: permission denied")
  /\ existsb failed (snd (run_answers RefHost.handle p
                            Trouble.locked_repository)) = true
  /\ tr = [act (AuthRepoE Scenario.theAuth "team/app.git" (Some "reader"));
           act (StatE "/repos/team/app.git")]
  /\ session_output tr = EmptyString
  /\ session_output tr <> "0019something went wrong" ++ newline
  /\ count is_log tr = 0%nat
  /\ count is_exit tr = 0%nat.
Proof.
  vm_compute. repeat split; try reflexivity. discriminate.
Qed.

(** An error returned by the operation of an authorized session is
    answered with the generic line, whatever the error. *)
Lemma returned_error_is_reported {W : Type} (h : Handler W)
    (Short : string -> string) (repoDir : string) (auth : Auth)
    (cb : option PushCallback) (s : Session) (w w1 : W) (gc repo : string)
    (access : AccessLevel) (e : error) :
  Command s = [gc; repo] ->
  h _ (AuthRepoE auth repo (SessionPublicKey s)) w = (access, w1) ->
  gc = "git-receive-pack"
    /\ (access = ReadWriteAccess \/ access = AdminAccess)
    /\ result (run h (gitReceivePack Short gc repoDir repo) w1) = Some e
  \/ (gc = "git-upload-pack" \/ gc = "git-upload-archive")
    /\ access <> NoAccess
    /\ result (run h (gitUploadPack gc repoDir repo) w1) = Some e ->
  session_output (trace (run h (dispatch Short repoDir auth cb s) w))
  = "0019something went wrong" ++ newline.
Proof.
  intros Hcmd Hauth Hfail.
  rewrite <- pktLine_SystemMalfunction.
  destruct (dispatch_writes_one_of_two h Short repoDir auth cb s w)
    as [_ [_ Hreported]].
  destruct Hfail as [[Hgc [Hacc Hres]] | [Hgc [Hacc Hres]]].
  - destruct (run h (gitReceivePack Short gc repoDir repo) w1)
      as [[err w2] t2] eqn:Hrun.
    unfold result in Hres; cbn [fst] in Hres. subst err.
    apply (Hreported gc repo access w1 e w2 t2 Hcmd Hauth). left. auto.
  - destruct (run h (gitUploadPack gc repoDir repo) w1)
      as [[err w2] t2] eqn:Hrun.
    unfold result in Hres; cbn [fst] in Hres. subst err.
    apply (Hreported gc repo access w1 e w2 t2 Hcmd Hauth). right. auto.
Qed.

(** C5, amended.  Whatever the session and the environment, every write of
    the handler to the session carries one of two lines, the bytes
    [0026you are not authorized to do this] or the bytes
    [0019something went wrong], each with a newline, and all the handler
    writes is nothing, or the one, or the other.  On an authorized push the
    second line is written exactly when a step of the push path failed: a
    call of the file system, of a subprocess or of go-git answered with an
    error other than [Stat]'s not-exist and [Head]'s reference-not-found.
    On an authorized fetch it is written exactly when the upload subprocess
    failed; an error of [Stat] is not reported there.  So a refused [Stat]
    on the root of a push, a receive-pack that exits with an error after
    provisioning, a repository that go-git cannot open after the exchange,
    and an upload subprocess that exits with an error on an existing path
    are each answered with that same line, whatever the error was. *)
Theorem only_two_messages_reach_the_client {W : Type} (h : Handler W)
    (Short : string -> string) (repoDir : string) (auth : Auth)
    (cb : option PushCallback) (s : Session) (w : W) :
  let tr := trace (run h (dispatch Short repoDir auth cb s) w) in
  let answers := snd (run_answers h (dispatch Short repoDir auth cb s) w) in
  let refusal := "0026you are not authorized to do this" ++ newline in
  let generic := "0019something went wrong" ++ newline in
  (forall a b, In a tr -> written a = Some b -> b = refusal \/ b = generic)
  /\ (session_output tr = EmptyString
      \/ session_output tr = refusal
      \/ session_output tr = generic)
  /\ (forall repo access w1,
        Command s = ["git-receive-pack"; repo] ->
        h _ (AuthRepoE auth repo (SessionPublicKey s)) w = (access, w1) ->
        access = ReadWriteAccess \/ access = AdminAccess ->
        (session_output tr
         = if existsb failed answers then generic else EmptyString)
        /\ (forall e w2,
              h _ (StatE repoDir) w1 = (Some e, w2) ->
              IsNotExist e = false ->
              session_output tr = generic)
        /\ (forall w2 t e w3,
              run h (ensureRepo repoDir repo) w1 = (None, w2, t) ->
              h _ (CmdRunE (mkCmd "git-receive-pack" [repoDir ++ repo]
                              "./" true)) w2 = (Some e, w3) ->
              session_output tr = generic)
        /\ (forall w2 t w3 w4 e w5,
              run h (ensureRepo repoDir repo) w1 = (None, w2, t) ->
              h _ (CmdRunE (mkCmd "git-receive-pack" [repoDir ++ repo]
                              "./" true)) w2 = (None, w3) ->
              h _ (CmdRunE (mkCmd "git" ["update-server-info"]
                              (repoDir ++ repo) true)) w3 = (None, w4) ->
              h _ (PlainOpenE (repoDir ++ repo)) w4 = (inl e, w5) ->
              session_output tr = generic))
  /\ (forall gc repo access w1,
        Command s = [gc; repo] ->
        gc = "git-upload-pack" \/ gc = "git-upload-archive" ->
        h _ (AuthRepoE auth repo (SessionPublicKey s)) w = (access, w1) ->
        access <> NoAccess ->
        (session_output tr
         = if existsb command_failed answers then generic else EmptyString)
        /\ (forall w2 e w3,
              h _ (StatE (repoDir ++ repo)) w1 = (None, w2) ->
              h _ (CmdRunE (mkCmd gc [repoDir ++ repo] "./" true)) w2
                = (Some e, w3) ->
              session_output tr = generic
              /\ In (act (CmdRunE (mkCmd gc [repoDir ++ repo] "./" true))) tr)).
Proof.
  intros tr answers refusal generic.
  destruct (dispatch_writes_one_of_two h Short repoDir auth cb s w)
    as [Hevery [Hall _]].
  fold tr in Hevery, Hall.
  rewrite pktLine_NotAuthed, pktLine_SystemMalfunction in Hall.
  split; [| split; [| split]].
  - intros a b Hin Hb. specialize (Hevery a b Hin Hb).
    rewrite pktLine_NotAuthed, pktLine_SystemMalfunction in Hevery.
    exact Hevery.
  - exact Hall.
  - intros repo access w1 Hcmd Hauth Hacc.
    split; [| split; [| split]].
    + exact (push_reports_exactly_its_failures h Short repoDir auth cb s w w1
               repo access Hcmd Hauth Hacc).
    + intros e w2 Hstat Hother.
      apply (returned_error_is_reported h Short repoDir auth cb s w w1
               "git-receive-pack" repo access e Hcmd Hauth).
      left. split; [reflexivity |]. split; [exact Hacc |].
      unfold gitReceivePack, ensureRepo, fileExists, result.
      cbn -[String.append]. rewrite Hstat.
      cbn -[String.append]. rewrite Hother. reflexivity.
    + intros w2 t e w3 Hprov Hrcv.
      apply (returned_error_is_reported h Short repoDir auth cb s w w1
               "git-receive-pack" repo access e Hcmd Hauth).
      left. split; [reflexivity |]. split; [exact Hacc |].
      unfold gitReceivePack. rewrite run_bind, Hprov.
      rewrite run_bind, runCmd_trace, Hrcv. reflexivity.
    + intros w2 t w3 w4 e w5 Hprov Hrcv Hupd Hopen.
      apply (returned_error_is_reported h Short repoDir auth cb s w w1
               "git-receive-pack" repo access e Hcmd Hauth).
      left. split; [reflexivity |]. split; [exact Hacc |].
      unfold gitReceivePack. rewrite run_bind, Hprov.
      rewrite run_bind, runCmd_trace, Hrcv. cbn [fst snd].
      rewrite run_bind, runCmd_trace, Hupd. cbn [fst snd].
      rewrite run_bind. unfold ensureDefaultBranch.
      cbn -[String.append]. rewrite Hopen. reflexivity.
  - intros gc repo access w1 Hcmd Hgc Hauth Hacc.
    split.
    + exact (fetch_reports_exactly_a_failed_command h Short repoDir auth cb s
               w w1 gc repo access Hcmd Hgc Hauth Hacc).
    + intros w2 e w3 Hstat Hrun.
      assert (Hup : run h (gitUploadPack gc repoDir repo) w1
                    = (Some e, w3,
                       [act (StatE (repoDir ++ repo));
                        act (CmdRunE (mkCmd gc [repoDir ++ repo] "./" true))])).
      { unfold gitUploadPack, fileExists, runCmd.
        cbn -[String.append]. rewrite Hstat.
        cbn -[String.append]. rewrite Hrun. reflexivity. }
      split.
      * apply (returned_error_is_reported h Short repoDir auth cb s w w1
                 gc repo access e Hcmd Hauth).
        right. split; [exact Hgc |]. split; [exact Hacc |].
        rewrite Hup. reflexivity.
      * unfold tr.
        rewrite (dispatch_upload_allowed h Short repoDir auth cb s gc repo w
                   w1 w3 access (Some e) _ Hcmd Hgc Hauth Hacc Hup).
        right. right. left. reflexivity.
Qed.

Lemma only_two_messages_reach_the_client_witness :
  (let p := dispatch RefHost.Short "/repos/" Scenario.theAuth
              (Some Scenario.theCallback) (Scenario.push (Some "writer")) in
   existsb failed (snd (run_answers RefHost.handle p Scenario.broken_git))
     = true
   /\ session_output (trace (run RefHost.handle p Scenario.broken_git))
      = "0019something went wrong" ++ newline)
  /\ (let p := dispatch RefHost.Short "/repos/" Scenario.theAuth None
                 (Scenario.fetch (Some "reader")) in
      let tr := trace (run RefHost.handle p Trouble.broken_upload) in
      session_output tr = "0019something went wrong" ++ newline
      /\ In (act (CmdRunE (mkCmd "git-upload-pack" ["/repos/team/app.git"]
                             "./" true))) tr)
  /\ session_output
       (trace (run RefHost.handle
                 (dispatch RefHost.Short "/repos/" Scenario.theAuth None
                    (Scenario.push (Some "admin"))) Trouble.locked_root))
     = "0019something went wrong" ++ newline.
Proof.
  split; [| split].
  - cbv zeta. split; [vm_compute; reflexivity |].
    pose (prov := run RefHost.handle (ensureRepo "/repos/" "team/app.git")
                    Scenario.broken_git).
    apply (proj1 (proj2 (proj2
             (proj1 (proj2 (proj2
                (only_two_messages_reach_the_client RefHost.handle
                   RefHost.Short "/repos/" Scenario.theAuth
                   (Some Scenario.theCallback)
                   (Scenario.push (Some "writer")) Scenario.broken_git)))
                "team/app.git" ReadWriteAccess Scenario.broken_git
                eq_refl eq_refl (or_introl eq_refl))))
             (world prov) (trace prov) (ErrOther "exit status 1")
             (world prov) eq_refl eq_refl).
  - cbv zeta.
    apply (proj2 (proj2 (proj2 (proj2
             (only_two_messages_reach_the_client RefHost.handle
                RefHost.Short "/repos/" Scenario.theAuth None
                (Scenario.fetch (Some "reader")) Trouble.broken_upload)))
             "git-upload-pack" "team/app.git" ReadOnlyAccess
             Trouble.broken_upload eq_refl (or_introl eq_refl) eq_refl
             ltac:(discriminate))
             Trouble.broken_upload (ErrOther "exit status 1")
             Trouble.broken_upload eq_refl eq_refl).
  - apply (proj1 (proj2
             (proj1 (proj2 (proj2
                (only_two_messages_reach_the_client RefHost.handle
                   RefHost.Short "/repos/" Scenario.theAuth None
                   (Scenario.push (Some "admin")) Trouble.locked_root)))
                "team/app.git" AdminAccess Trouble.locked_root
                eq_refl eq_refl (or_intror eq_refl)))
             (ErrOther "stat /repos/: permission denied")
             Trouble.locked_root eq_refl eq_refl).
Defined.

(** C6.  An upload command ([git-upload-pack] or [git-upload-archive]) with
    access [ReadOnlyAccess], [ReadWriteAccess] or [AdminAccess], on a
    repository whose path does not exist: after [AuthRepo] the handler only
    asks whether the path exists and stops there.  Nothing is created, no
    subprocess is run, nothing is written to the session and the session is
    not exited. *)
Theorem fetch_of_missing_repository_is_silent {W : Type} (h : Handler W)
    (Short : string -> string) (repoDir : string) (auth : Auth)
    (cb : option PushCallback) (s : Session) (gc repo : string)
    (w w1 w2 : W) (access : AccessLevel) (e : error) :
  Command s = [gc; repo] ->
  gc = "git-upload-pack" \/ gc = "git-upload-archive" ->
  h _ (AuthRepoE auth repo (SessionPublicKey s)) w = (access, w1) ->
  access = ReadOnlyAccess \/ access = ReadWriteAccess
  \/ access = AdminAccess ->
  h _ (StatE (repoDir ++ repo)) w1 = (Some e, w2) ->
  IsNotExist e = true ->
  let r := run h (dispatch Short repoDir auth cb s) w in
  r = (tt, w2, [act (AuthRepoE auth repo (SessionPublicKey s));
                act (StatE (repoDir ++ repo))])
  /\ existsb mutates_disk (trace r) = false
  /\ session_output (trace r) = EmptyString
  /\ existsb is_exit (trace r) = false.
Proof.
  intros Hcmd Hgc Hauth Hacc Hstat Hmissing r.
  assert (Hr : r = (tt, w2, [act (AuthRepoE auth repo (SessionPublicKey s));
                             act (StatE (repoDir ++ repo))])).
  { unfold r, dispatch. rewrite Hcmd.
    cbn -[String.append String.eqb fatalGit].
    rewrite Hauth.
    assert (Heqb : String.eqb gc "git-receive-pack" = false
                   /\ String.eqb gc "git-upload-archive"
                      || String.eqb gc "git-upload-pack" = true)
      by (destruct Hgc; subst gc; split; reflexivity).
    destruct Heqb as [-> ->].
    destruct Hacc as [-> | [-> | ->]];
      cbn -[String.append fatalGit]; rewrite Hstat;
      cbn -[String.append fatalGit]; rewrite Hmissing; reflexivity. }
  rewrite Hr. repeat split; reflexivity.
Qed.

Lemma fetch_of_missing_repository_is_silent_witness :
  let r := run RefHost.handle
             (dispatch RefHost.Short "/repos/" Scenario.theAuth
                (Some Scenario.theCallback) (Scenario.fetch (Some "reader")))
             Scenario.with_root in
  r = (tt, Scenario.with_root,
       [act (AuthRepoE Scenario.theAuth "team/app.git" (Some "reader"));
        act (StatE "/repos/team/app.git")])
  /\ existsb mutates_disk (trace r) = false
  /\ session_output (trace r) = EmptyString
  /\ existsb is_exit (trace r) = false.
Proof.
  apply (fetch_of_missing_repository_is_silent RefHost.handle RefHost.Short
           "/repos/" Scenario.theAuth (Some Scenario.theCallback)
           (Scenario.fetch (Some "reader")) "git-upload-pack" "team/app.git"
           Scenario.with_root Scenario.with_root Scenario.with_root
           ReadOnlyAccess
           (ErrNotExist "stat /repos/team/app.git: no such file or directory")).
  - reflexivity.
  - left; reflexivity.
  - reflexivity.
  - left; reflexivity.
  - reflexivity.
  - reflexivity.
Defined.

(** C8.  The handler built by [MiddlewareWithPushCallback] runs its git
    logic and then, from the state that logic left, the wrapped handler: the
    calls of a session are those of the git logic followed by those of the
    wrapped handler, whatever the git logic did.  When the git logic has
    refused the command, the wrapped handler runs after [Exit(1)]. *)
Theorem wrapped_handler_always_runs {W : Type} (h : Handler W)
    (Short : string -> string) (repoDir : string) (auth : Auth)
    (cb : option PushCallback) (sh : SshHandler) (s : Session) (w : W) :
  (run h (MiddlewareWithPushCallback Short repoDir auth cb sh s) w =
   let '(_, w1, t1) := run h (dispatch Short repoDir auth cb s) w in
   let '(u, w2, t2) := run h (sh s) w1 in
   (u, w2, (t1 ++ t2)%list))
  /\ (forall repo w1,
        Command s = ["git-receive-pack"; repo] ->
        h _ (AuthRepoE auth repo (SessionPublicKey s)) w = (NoAccess, w1) ->
        trace (run h (MiddlewareWithPushCallback Short repoDir auth cb sh s) w)
        = ([act (AuthRepoE auth repo (SessionPublicKey s));
            act (SessionWriteE (pktLine "you are not authorized to do this"));
            act (SessionExitE 1)]
           ++ trace (run h (sh s)
                       (world (run h (dispatch Short repoDir auth cb s) w))))%list).
Proof.
  split.
  - unfold MiddlewareWithPushCallback. apply run_bind.
  - intros repo w1 Hcmd Hauth.
    unfold MiddlewareWithPushCallback. rewrite run_bind.
    pose proof (dispatch_refused h Short repoDir auth cb s "git-receive-pack"
                  repo w w1 NoAccess Hcmd Hauth) as Href.
    destruct (run h (dispatch Short repoDir auth cb s) w) as [[u w2] t1].
    unfold trace in Href; simpl in Href. rewrite Href by auto.
    unfold world; simpl.
    destruct (run h (sh s) w2) as [[u' w3] t2]. reflexivity.
Qed.

Lemma wrapped_handler_always_runs_witness :
  trace (run RefHost.handle
           (MiddlewareWithPushCallback RefHost.Short "/repos/"
              Scenario.theAuth None Scenario.next (Scenario.push None))
           Scenario.fresh)
  = [act (AuthRepoE Scenario.theAuth "team/app.git" None);
     act (SessionWriteE (pktLine "you are not authorized to do this"));
     act (SessionExitE 1);
     act (LogPrintfE "next handler")].
Proof.
  apply (proj2 (wrapped_handler_always_runs RefHost.handle RefHost.Short
                  "/repos/" Scenario.theAuth None Scenario.next
                  (Scenario.push None) Scenario.fresh)
           "team/app.git" Scenario.fresh eq_refl eq_refl).
Defined.

(** C4.  [ensureDefaultBranch] on a repository that opens and whose branch
    enumeration yields a first branch [fb]: when resolving [HEAD] fails with
    [plumbing.ErrReferenceNotFound], [git branch -M] is run in the
    repository with the short name of [fb] and its error, if any, is the
    result; when resolving [HEAD] fails with any other error, that error is
    the result and no command is run; when [HEAD] resolves, the result is
    nil and no command is run. *)
Theorem ensureDefaultBranch_follows_HEAD {W : Type} (h : Handler W)
    (Short : string -> string) (repoPath : string) (w w1 w2 w3 w4 : W)
    (r : Repository) (brs : ReferenceIter) (fb : Reference)
    (hd : error + Reference) :
  h _ (PlainOpenE repoPath) w = (inr r, w1) ->
  h _ (BranchesE r) w1 = (inr brs, w2) ->
  h _ (IterNextE brs) w2 = (inr fb, w3) ->
  h _ (HeadE r) w3 = (hd, w4) ->
  let res := run h (ensureDefaultBranch Short repoPath) w in
  let reads := [act (PlainOpenE repoPath); act (BranchesE r);
                act (IterNextE brs); act (HeadE r)] in
  let rename :=
    CmdRunE (mkCmd "git" ["branch"; "-M"; Short (RefName fb)] repoPath true) in
  (hd = inl ErrReferenceNotFound ->
     trace res = (reads ++ [act rename; act (IterCloseE brs)])%list
     /\ result res = fst (h _ rename w4))
  /\ (forall e, hd = inl e -> e <> ErrReferenceNotFound ->
        trace res = (reads ++ [act (IterCloseE brs)])%list
        /\ result res = Some e
        /\ existsb is_spawn (trace res) = false)
  /\ (forall ref, hd = inr ref ->
        trace res = (reads ++ [act (IterCloseE brs)])%list
        /\ result res = None
        /\ existsb is_spawn (trace res) = false).
Proof.
  intros Hopen Hbrs Hnext Hhead res reads rename.
  unfold res, reads, rename, ensureDefaultBranch, runCmd, trace, result.
  split; [| split].
  - intros ->. paths h; split; reflexivity.
  - intros e -> Hne.
    destruct e; try contradiction; paths h; repeat split; reflexivity.
  - intros ref ->. paths h; repeat split; reflexivity.
Qed.

Lemma ensureDefaultBranch_follows_HEAD_witness :
  let path := "/repos/team/app.git" in
  let res := run RefHost.handle (ensureDefaultBranch RefHost.Short path)
               Scenario.first_branch in
  trace res =
    [act (PlainOpenE path); act (BranchesE (RepositoryAt path));
     act (IterNextE (IterOver path)); act (HeadE (RepositoryAt path));
     act (CmdRunE (mkCmd "git" ["branch"; "-M"; "main"] path true));
     act (IterCloseE (IterOver path))]
  /\ result res = None
  /\ RefHost.head_of path (world res) = "refs/heads/main".
Proof.
  intros path res.
  pose (w2 := snd (RefHost.handle _ (BranchesE (RepositoryAt path))
                     Scenario.first_branch)).
  pose (w3 := snd (RefHost.handle _ (IterNextE (IterOver path)) w2)).
  destruct (ensureDefaultBranch_follows_HEAD RefHost.handle RefHost.Short
              path Scenario.first_branch Scenario.first_branch w2 w3 w3
              (RepositoryAt path) (IterOver path)
              (mkReference "refs/heads/main") (inl ErrReferenceNotFound)
              eq_refl eq_refl eq_refl eq_refl) as [Hrename _].
  destruct (Hrename eq_refl) as [Htrace Hresult].
  split; [exact Htrace |]. split; [unfold res; rewrite Hresult; reflexivity |].
  vm_compute; reflexivity.
Defined.

(** C10.  An authorized push whose provisioning, pack exchange and
    [update-server-info] all succeed, into a repository that opens and whose
    branch enumeration gives an error at its first [Next] (go-git's answer
    when there is no branch, as after a push of tags only): [HEAD] is never
    resolved, the error is logged, and the client is sent the bytes
    [0019something went wrong] and a newline, from which a reader of
    pkt-lines takes the message and its newline, and exit status 1. *)
Theorem push_without_branch_reports_internal_failure {W : Type}
    (h : Handler W) (Short : string -> string) (repoDir : string)
    (auth : Auth) (cb : option PushCallback) (s : Session) (repo : string)
    (access : AccessLevel) (w w1 w2 w3 w4 w5 w6 w7 : W)
    (provisioning : list Action) (r : Repository) (brs : ReferenceIter)
    (e : error) :
  let rp := repoDir ++ repo in
  let receive := CmdRunE (mkCmd "git-receive-pack" [rp] "./" true) in
  let update := CmdRunE (mkCmd "git" ["update-server-info"] rp true) in
  Command s = ["git-receive-pack"; repo] ->
  h _ (AuthRepoE auth repo (SessionPublicKey s)) w = (access, w1) ->
  access = ReadWriteAccess \/ access = AdminAccess ->
  run h (ensureRepo repoDir repo) w1 = (None, w2, provisioning) ->
  h _ receive w2 = (None, w3) ->
  h _ update w3 = (None, w4) ->
  h _ (PlainOpenE rp) w4 = (inr r, w5) ->
  h _ (BranchesE r) w5 = (inr brs, w6) ->
  h _ (IterNextE brs) w6 = (inl e, w7) ->
  let tr := trace (run h (dispatch Short repoDir auth cb s) w) in
  tr = (act (AuthRepoE auth repo (SessionPublicKey s))
          :: provisioning
          ++ [act receive; act update; act (PlainOpenE rp);
              act (BranchesE r); act (IterNextE brs); act (IterCloseE brs)]
          ++ [act (LogPrintfE ("git-receive-pack error: " ++ Error e));
              act (SessionWriteE ("0019something went wrong" ++ newline));
              act (SessionExitE 1)]
          ++ callback_actions cb repo (SessionPublicKey s))%list
  /\ session_output tr = "0019something went wrong" ++ newline
  /\ read_pkt_line (session_output tr)
     = Some ("something went wrong" ++ newline, EmptyString)
  /\ count is_exit tr = 1%nat.
Proof.
  intros rp receive update Hcmd Hauth Hacc Hprov Hrcv Hupd Hopen Hbrs Hnext tr.
  destruct (h _ (IterCloseE brs) w7) as [u w8] eqn:Hclose.
  assert (Hpush :
    run h (gitReceivePack Short "git-receive-pack" repoDir repo) w1 =
    (Some e, w8,
     (provisioning
        ++ [act receive; act update; act (PlainOpenE rp);
            act (BranchesE r); act (IterNextE brs); act (IterCloseE brs)])%list)).
  { unfold gitReceivePack. rewrite run_bind, Hprov.
    unfold runCmd, ensureDefaultBranch.
    fold rp. fold receive. fold update.
    cbn -[String.append]. unfold receive, update in *.
    paths h. reflexivity. }
  pose proof (dispatch_receive_allowed h Short repoDir auth cb s repo w w1 w8
                access (Some e) _ Hcmd Hauth Hacc Hpush) as Htr.
  fold tr in Htr.
  pose proof (gitReceivePack_repo_only h Short "git-receive-pack" repoDir
                repo w1) as Honly.
  rewrite Hpush in Honly. unfold trace in Honly; simpl in Honly.
  assert (Hout : session_output tr = "0019something went wrong" ++ newline).
  { rewrite Htr.
    match type of Honly with forallb _ ?t = _ => set (t2 := t) in * end.
    change (session_output (?a :: ?l)) with (session_output l).
    rewrite !session_output_app, (repo_only_output _ Honly),
      report_actions_output, pktLine_SystemMalfunction.
    destruct cb; reflexivity. }
  split; [| split; [| split]].
  - rewrite Htr. rewrite <- !app_assoc.
    unfold report_actions. cbn [Error]. rewrite pktLine_SystemMalfunction.
    reflexivity.
  - exact Hout.
  - rewrite Hout. vm_compute. reflexivity.
  - rewrite Htr.
    match type of Honly with forallb _ ?t = _ => set (t2 := t) in * end.
    match goal with
    | |- count _ (?a :: ?l) = _ => change (a :: l) with ([a] ++ l)%list
    end.
    rewrite !count_app.
    rewrite (repo_only_count _ Honly is_exit touches_repo_not_exit).
    destruct cb; reflexivity.
Qed.

Lemma push_without_branch_reports_internal_failure_witness :
  let tr := trace (run RefHost.handle
                     (dispatch RefHost.Short "/repos/" Scenario.theAuth None
                        (Scenario.push (Some "admin"))) Scenario.tags_only) in
  session_output tr = "0019something went wrong" ++ newline
  /\ read_pkt_line (session_output tr)
     = Some ("something went wrong" ++ newline, EmptyString)
  /\ count is_exit tr = 1%nat.
Proof.
  pose (rp := "/repos/team/app.git").
  pose (prov := run RefHost.handle (ensureRepo "/repos/" "team/app.git")
                  Scenario.tags_only).
  pose (w3 := snd (RefHost.handle _
                     (CmdRunE (mkCmd "git-receive-pack" [rp] "./" true))
                     (world prov))).
  pose (w6 := snd (RefHost.handle _ (BranchesE (RepositoryAt rp)) w3)).
  destruct (push_without_branch_reports_internal_failure RefHost.handle
              RefHost.Short "/repos/" Scenario.theAuth None
              (Scenario.push (Some "admin")) "team/app.git" AdminAccess
              Scenario.tags_only Scenario.tags_only (world prov) w3 w3 w3 w6 w6
              (trace prov) (RepositoryAt rp) (IterOver rp) (ErrOther "EOF")
              eq_refl eq_refl (or_intror eq_refl) eq_refl eq_refl eq_refl
              eq_refl eq_refl eq_refl) as [_ [Hout [Hread Hexit]]].
  split; [exact Hout |]. split; [exact Hread | exact Hexit].
Defined.

(** After an authorized push with a callback configured, the callback is
    called exactly once and last, whether [gitReceivePack] returned an error
    or not. *)
Lemma callback_called_after_every_authorized_push {W : Type} (h : Handler W)
    (Short : string -> string) (repoDir : string) (auth : Auth)
    (f : PushCallback) (s : Session) (repo : string) (w w1 : W)
    (access : AccessLevel) :
  Command s = ["git-receive-pack"; repo] ->
  h _ (AuthRepoE auth repo (SessionPublicKey s)) w = (access, w1) ->
  access = ReadWriteAccess \/ access = AdminAccess ->
  let tr := trace (run h (dispatch Short repoDir auth (Some f) s) w) in
  count is_callback tr = 1%nat
  /\ last tr (act (SessionExitE 0))
     = act (PushCallbackE f repo (SessionPublicKey s)).
Proof.
  intros Hcmd Hauth Hacc tr.
  destruct (run h (gitReceivePack Short "git-receive-pack" repoDir repo) w1)
    as [[err w2] t2] eqn:Hpush.
  pose proof (dispatch_receive_allowed h Short repoDir auth (Some f) s repo
                w w1 w2 access err t2 Hcmd Hauth Hacc Hpush) as Htr.
  fold tr in Htr.
  pose proof (gitReceivePack_repo_only h Short "git-receive-pack" repoDir
                repo w1) as Honly.
  rewrite Hpush in Honly. unfold trace in Honly; simpl in Honly.
  split.
  - rewrite Htr.
    match goal with
    | |- count _ (?a :: ?l) = _ => change (a :: l) with ([a] ++ l)%list
    end.
    rewrite !count_app.
    rewrite (repo_only_count _ Honly is_callback touches_repo_not_callback).
    rewrite report_actions_count by reflexivity. reflexivity.
  - rewrite Htr.
    match goal with
    | |- last (?a :: ?t ++ ?r ++ ?c)%list _ = _ =>
        change (a :: t ++ r ++ c)%list with ((a :: t) ++ r ++ c)%list;
        rewrite !app_assoc
    end.
    apply last_last.
Qed.

(** C2 (what the code does where the claim fails).  A push by a key with
    [ReadWriteAccess], a callback configured, and a [git-receive-pack] that
    exits with status 1: the failure is logged and reported to the client,
    the session is exited with status 1, and then the callback is called
    all the same. *)
Theorem callback_runs_after_failed_push :
  let r := run RefHost.handle
             (dispatch RefHost.Short "/repos/" Scenario.theAuth
                (Some Scenario.theCallback) (Scenario.push (Some "writer")))
             Scenario.broken_git in
  let rp := "/repos/team/app.git" in
  trace r =
    [act (AuthRepoE Scenario.theAuth "team/app.git" (Some "writer"));
     act (StatE "/repos/");
     act (MkdirAllE "/repos/" repoDirMode);
     act (StatE rp);
     act (CmdRunE (mkCmd "git" ["init"; "--bare"; rp] EmptyString false));
     act (CmdRunE (mkCmd "git-receive-pack" [rp] "./" true));
     act (LogPrintfE "git-receive-pack error: exit status 1");
     act (SessionWriteE (pktLine "something went wrong"));
     act (SessionExitE 1);
     act (PushCallbackE Scenario.theCallback "team/app.git" (Some "writer"))]
  /\ RefHost.exited (world r) = Some 1
  /\ RefHost.out (world r) = pktLine "something went wrong"
  /\ RefHost.pushed (world r) = [("team/app.git", Some "writer")]
  /\ count is_callback (trace r) = 1%nat.
Proof.
  vm_compute. repeat split; reflexivity.
Qed.

(** Whatever the umask of the host, a directory made with the mode that
    [ensureRepo] asks for has no permission bit for group or others. *)
Lemma masked_root_mode_owner_only (w : RefHost.Host) :
  owner_only (RefHost.masked repoDirMode w) = true.
Proof.
  unfold owner_only, RefHost.masked. apply Z.eqb_eq.
  rewrite <- Z.land_assoc, (Z.land_comm (Z.lnot _)), Z.land_assoc.
  change (Z.land repoDirMode 63) with 0. apply Z.land_0_l.
Qed.

(** C7, as stated, fails twice on the reference host.  With the root given
    as [.repos] and the repository [x], the repository path [.reposx]
    exists while the root does not: [ensureRepo] creates the root, so the
    call is not a no-op.  And with an existing root [/repos] and the
    repository path missing, [ensureRepo] runs [git init --bare] with no
    permission setting: under the usual umask 022 the new repository is
    readable by group and others. *)
Lemma ensureRepo_as_claimed_counterexample :
  (let r := run RefHost.handle (ensureRepo ".repos" "x") Scenario.sibling in
   RefHost.stat (".repos" ++ "x") Scenario.sibling = None
   /\ result r = None
   /\ trace r = [act (StatE ".repos"); act (MkdirAllE ".repos" repoDirMode);
                 act (StatE ".reposx")]
   /\ RefHost.lookup ".repos" (RefHost.files Scenario.sibling) = None
   /\ RefHost.lookup ".repos" (RefHost.files (world r)) = Some repoDirMode
   /\ RefHost.files (world r) <> RefHost.files Scenario.sibling)
  /\
  (let r := run RefHost.handle (ensureRepo "/repos/" "team/app.git")
              Scenario.with_root in
   RefHost.stat "/repos/" Scenario.with_root = None
   /\ (exists e, RefHost.stat "/repos/team/app.git" Scenario.with_root = Some e
                 /\ IsNotExist e = true)
   /\ result r = None
   /\ trace r = [act (StatE "/repos/"); act (StatE "/repos/team/app.git");
                 act (CmdRunE (mkCmd "git"
                                 ["init"; "--bare"; "/repos/team/app.git"]
                                 EmptyString false))]
   /\ exists mode,
        RefHost.lookup "/repos/team/app.git" (RefHost.files (world r))
          = Some mode
        /\ owner_only mode = false).
Proof.
  split.
  - vm_compute. repeat split; try reflexivity. discriminate.
  - cbv zeta. split; [reflexivity |]. split; [eexists; split; reflexivity |].
    split; [reflexivity |]. split; [reflexivity |].
    eexists. split; [vm_compute; reflexivity | reflexivity].
Qed.

(** C7, amended.  [ensureRepo(root, repo)]: when the root directory does
    not exist, the second call is [MkdirAll] on the root with mode
    [ModeDir|0700], whose permission bits are the owner's alone; when the
    path [root+repo] does not exist (the root being there or having just
    been created), the last call is [git init --bare root+repo], with no
    permission setting, and its error is the result; when both the root and
    the path exist, the call is a no-op: two existence checks, nil
    returned, no directory made and no command run. *)
Theorem ensureRepo_provisions {W : Type} (h : Handler W) (dir repo : string)
    (w : W) :
  let r := run h (ensureRepo dir repo) w in
  let rp := dir ++ repo in
  let init := CmdRunE (mkCmd "git" ["init"; "--bare"; rp] EmptyString false) in
  (forall e w1,
     h _ (StatE dir) w = (Some e, w1) -> IsNotExist e = true ->
     nth_error (trace r) 1 = Some (act (MkdirAllE dir repoDirMode))
     /\ Z.land repoDirMode 511 = 448
     /\ owner_only repoDirMode = true)
  /\ (forall w1 e w2,
        h _ (StatE dir) w = (None, w1) ->
        h _ (StatE rp) w1 = (Some e, w2) -> IsNotExist e = true ->
        r = (fst (h _ init w2), snd (h _ init w2),
             [act (StatE dir); act (StatE rp); act init]))
  /\ (forall e0 w0 w1 e w2,
        h _ (StatE dir) w = (Some e0, w0) -> IsNotExist e0 = true ->
        h _ (MkdirAllE dir repoDirMode) w0 = (None, w1) ->
        h _ (StatE rp) w1 = (Some e, w2) -> IsNotExist e = true ->
        r = (fst (h _ init w2), snd (h _ init w2),
             [act (StatE dir); act (MkdirAllE dir repoDirMode);
              act (StatE rp); act init]))
  /\ (forall w1 w2,
        h _ (StatE dir) w = (None, w1) ->
        h _ (StatE rp) w1 = (None, w2) ->
        r = (None, w2, [act (StatE dir); act (StatE rp)])
        /\ existsb mutates_disk (trace r) = false).
Proof.
  intros r rp init. subst r rp init. unfold ensureRepo, fileExists, trace.
  split; [| split; [| split]].
  - intros e w1 Hstat Hmissing.
    split; [| split; reflexivity].
    cbn -[String.append repoDirMode]. rewrite Hstat.
    cbn -[String.append repoDirMode]. rewrite Hmissing.
    paths h; reflexivity.
  - intros w1 e w2 Hroot Hstat Hmissing.
    cbn -[String.append repoDirMode]. rewrite Hroot.
    cbn -[String.append repoDirMode]. rewrite Hstat.
    cbn -[String.append repoDirMode]. rewrite Hmissing.
    paths h; reflexivity.
  - intros e0 w0 w1 e w2 Hroot Hnoroot Hmk Hstat Hmissing.
    cbn -[String.append repoDirMode]. rewrite Hroot.
    cbn -[String.append repoDirMode]. rewrite Hnoroot.
    cbn -[String.append repoDirMode]. rewrite Hmk.
    cbn -[String.append repoDirMode]. rewrite Hstat.
    cbn -[String.append repoDirMode]. rewrite Hmissing.
    paths h; reflexivity.
  - intros w1 w2 Hroot Hstat.
    cbn -[String.append repoDirMode]. rewrite Hroot.
    cbn -[String.append repoDirMode]. rewrite Hstat.
    split; reflexivity.
Qed.

Lemma ensureRepo_provisions_witness :
  (let r := run RefHost.handle (ensureRepo "/repos/" "team/app.git")
              Scenario.first_branch in
   r = (None, Scenario.first_branch,
        [act (StatE "/repos/"); act (StatE "/repos/team/app.git")])
   /\ existsb mutates_disk (trace r) = false)
  /\ (let r := run RefHost.handle (ensureRepo "/repos/" "team/app.git")
                 Scenario.with_root in
      trace r = [act (StatE "/repos/"); act (StatE "/repos/team/app.git");
                 act (CmdRunE (mkCmd "git"
                                 ["init"; "--bare"; "/repos/team/app.git"]
                                 EmptyString false))])
  /\ (let r := run RefHost.handle (ensureRepo "/repos/" "team/app.git")
                 Scenario.fresh in
      nth_error (trace r) 1 = Some (act (MkdirAllE "/repos/" repoDirMode))
      /\ Z.land repoDirMode 511 = 448
      /\ owner_only repoDirMode = true)
  /\ (let r := run RefHost.handle (ensureRepo "/repos/" "team/app.git")
                 Scenario.fresh in
      result r = None
      /\ trace r = [act (StatE "/repos/");
                    act (MkdirAllE "/repos/" repoDirMode);
                    act (StatE "/repos/team/app.git");
                    act (CmdRunE (mkCmd "git"
                                    ["init"; "--bare"; "/repos/team/app.git"]
                                    EmptyString false))]).
Proof.
  split; [| split; [| split]].
  - apply (proj2 (proj2 (proj2 (ensureRepo_provisions RefHost.handle "/repos/"
                                  "team/app.git" Scenario.first_branch)))
             Scenario.first_branch Scenario.first_branch eq_refl eq_refl).
  - cbv zeta.
    rewrite (proj1 (proj2 (ensureRepo_provisions RefHost.handle "/repos/"
                             "team/app.git" Scenario.with_root))
               Scenario.with_root
               (ErrNotExist "stat /repos/team/app.git: no such file or directory")
               Scenario.with_root eq_refl eq_refl eq_refl).
    reflexivity.
  - apply (proj1 (ensureRepo_provisions RefHost.handle "/repos/"
                    "team/app.git" Scenario.fresh)
             (ErrNotExist "stat /repos/: no such file or directory")
             Scenario.fresh eq_refl eq_refl).
  - cbv zeta.
    pose (w1 := snd (RefHost.handle _ (MkdirAllE "/repos/" repoDirMode)
                       Scenario.fresh)).
    rewrite (proj1 (proj2 (proj2 (ensureRepo_provisions RefHost.handle
                                    "/repos/" "team/app.git" Scenario.fresh)))
               (ErrNotExist "stat /repos/: no such file or directory")
               Scenario.fresh w1
               (ErrNotExist "stat /repos/team/app.git: no such file or directory")
               w1 eq_refl eq_refl eq_refl eq_refl eq_refl).
    split; reflexivity.
Defined.

(** ** Further properties of the package *)

(** *** The length field and the framing of [fatalGit]'s line *)

Lemma length_hex_onto_acc (fuel : nat) :
  forall n acc,
    (String.length acc <= String.length (hex_onto fuel n acc))%nat.
Proof.
  induction fuel as [| fuel IH]; intros n acc; simpl; [lia |].
  destruct (n / 16 =? 0); simpl; [lia |].
  specialize (IH (n / 16) (String (hex_digit (n mod 16)) acc)).
  simpl in IH. lia.
Qed.

Lemma length_hex_onto_lower (fuel : nat) :
  forall (k : nat) n acc,
    16 ^ Z.of_nat k <= n < 16 ^ Z.of_nat fuel ->
    (k + 1 + String.length acc <= String.length (hex_onto fuel n acc))%nat.
Proof.
  induction fuel as [| fuel IH]; intros k n acc Hn.
  - assert (0 < 16 ^ Z.of_nat k) by (apply Z.pow_pos_nonneg; lia).
    simpl in Hn. lia.
  - assert (Hpow : 16 ^ Z.of_nat (S fuel) = 16 * 16 ^ Z.of_nat fuel).
    { rewrite Nat2Z.inj_succ, Z.pow_succ_r by lia. reflexivity. }
    assert (Hk0 : 0 < 16 ^ Z.of_nat k) by (apply Z.pow_pos_nonneg; lia).
    simpl hex_onto.
    destruct (n / 16 =? 0) eqn:Hq.
    + apply Z.eqb_eq in Hq.
      assert (Hsmall : n < 16)
        by (pose proof (Z.div_mod n 16 ltac:(lia));
            pose proof (Z.mod_pos_bound n 16 ltac:(lia)); lia).
      destruct k as [| k]; [simpl; lia |].
      assert (16 ^ Z.of_nat (S k) = 16 * 16 ^ Z.of_nat k) as Hk
        by (rewrite Nat2Z.inj_succ, Z.pow_succ_r by lia; reflexivity).
      assert (0 < 16 ^ Z.of_nat k) by (apply Z.pow_pos_nonneg; lia).
      lia.
    + destruct k as [| k].
      * pose proof (length_hex_onto_acc fuel (n / 16)
                      (String (hex_digit (n mod 16)) acc)) as Hacc.
        simpl in Hacc. simpl. lia.
      * assert (16 ^ Z.of_nat (S k) = 16 * 16 ^ Z.of_nat k) as Hk
          by (rewrite Nat2Z.inj_succ, Z.pow_succ_r by lia; reflexivity).
        specialize (IH k (n / 16) (String (hex_digit (n mod 16)) acc)).
        simpl String.length in IH.
        assert (16 ^ Z.of_nat k <= n / 16 < 16 ^ Z.of_nat fuel).
        { split.
          - apply Z.div_le_lower_bound; lia.
          - apply Z.div_lt_upper_bound; lia. }
        specialize (IH ltac:(assumption)). lia.
Qed.

(** X1.  The verb [%04x] on a number that is not negative: the digits read
    back as the number, there are at least four of them, and there are
    exactly four when and only when the number is below [0x10000]. *)
Theorem fmt_04x_reads_back (n : Z) :
  0 <= n ->
  read_hex (fmt_04x n) = Some n
  /\ (4 <= String.length (fmt_04x n))%nat
  /\ (String.length (fmt_04x n) = 4%nat <-> n < 65536).
Proof.
  intros Hn.
  assert (Hfmt : fmt_04x n = zeros (4 - String.length (hex n)) ++ hex n).
  { unfold fmt_04x. destruct (n <? 0) eqn:Hneg; [| reflexivity].
    apply Z.ltb_lt in Hneg. lia. }
  split; [| split].
  - rewrite Hfmt. unfold read_hex. rewrite read_hex_zeros.
    apply read_hex_hex. exact Hn.
  - rewrite Hfmt, length_append, length_zeros. lia.
  - split.
    + intros Hfour.
      destruct (Z_lt_le_dec n 65536) as [Hlt | Hge]; [exact Hlt |].
      pose proof (length_hex_onto_lower (S (Z.to_nat (Z.log2 n))) 4 n
                    EmptyString) as Hlow.
      change (16 ^ Z.of_nat 4) with 65536 in Hlow.
      specialize (Hlow (conj Hge (hex_fuel n Hn))).
      fold (hex n) in Hlow.
      rewrite Hfmt, length_append, length_zeros in Hfour. lia.
    + intros Hlt. apply fmt_04x_width. lia.
Qed.

Lemma fmt_04x_reads_back_witness :
  read_hex (fmt_04x 65536) = Some 65536
  /\ (4 <= String.length (fmt_04x 65536))%nat
  /\ (String.length (fmt_04x 65536) = 4%nat <-> 65536 < 65536).
Proof.
  apply (fmt_04x_reads_back 65536). lia.
Defined.

Lemma append_assoc (a b c : string) : (a ++ b) ++ c = a ++ (b ++ c).
Proof.
  induction a as [| x a IH]; simpl; [reflexivity | now rewrite IH].
Qed.

Lemma substring_0_append (a b : string) :
  substring 0 (String.length a) (a ++ b) = a.
Proof.
  induction a as [| x a IH]; simpl.
  - destruct b; reflexivity.
  - now rewrite IH.
Qed.

Lemma substring_skip_append (a b : string) (n k : nat) :
  substring (String.length a + n) k (a ++ b) = substring n k b.
Proof.
  induction a as [| x a IH]; simpl; [reflexivity | exact IH].
Qed.

Lemma substring_all (b : string) : substring 0 (String.length b) b = b.
Proof.
  induction b as [| x b IH]; simpl; [reflexivity | now rewrite IH].
Qed.

(** X2.  For a message whose length plus five is below [0x10000], and
    whatever follows on the stream, a reader of pkt-lines takes from the
    line of [fatalGit] exactly the message with its newline, and is left
    with exactly what followed. *)
Theorem pktLine_is_read_back (msg rest : string) :
  len msg + 5 < 65536 ->
  read_pkt_line (pktLine msg ++ rest) = Some (msg ++ newline, rest).
Proof.
  intros Hfit.
  assert (Hlen : 0 <= len msg) by (unfold len; lia).
  assert (Hadd : int_add (len msg) 5 = len msg + 5).
  { unfold int_add. apply wrap_int_small.
    split; [lia |]. change (2 ^ 63) with 9223372036854775808. lia. }
  destruct (fmt_04x_width (len msg + 5)) as [Hfour Hread]; [lia |].
  set (p := fmt_04x (len msg + 5)) in *.
  assert (Hline : pktLine msg ++ rest = p ++ ((msg ++ newline) ++ rest)).
  { unfold pktLine. rewrite Hadd. fold p. now rewrite !append_assoc. }
  assert (Hbody : String.length (msg ++ newline) = Z.to_nat (len msg + 5 - 4)).
  { rewrite length_append. unfold len. simpl String.length. lia. }
  unfold read_pkt_line. rewrite Hline.
  replace 4%nat with (String.length p) at 1 by exact Hfour.
  rewrite substring_0_append, Hread.
  assert (Htotal : len (p ++ (msg ++ newline) ++ rest)
                   = len msg + 5 + len rest).
  { unfold len. rewrite !length_append, Hfour. simpl String.length. lia. }
  rewrite Htotal.
  replace ((4 <=? len msg + 5) && (len msg + 5 <=? len msg + 5 + len rest))
    with true
    by (symmetry; apply andb_true_intro; split; apply Z.leb_le;
        unfold len in *; lia).
  f_equal. f_equal.
  - replace 4%nat with (String.length p + 0)%nat at 1 by lia.
    rewrite substring_skip_append.
    replace (Z.to_nat (len msg + 5) - 4)%nat
      with (String.length (msg ++ newline)) by lia.
    apply substring_0_append.
  - rewrite <- append_assoc.
    replace (Z.to_nat (len msg + 5))
      with (String.length (p ++ msg ++ newline) + 0)%nat
      by (rewrite length_append, Hfour; lia).
    rewrite substring_skip_append.
    replace (String.length ((p ++ msg ++ newline) ++ rest)
             - (String.length (p ++ msg ++ newline) + 0))%nat
      with (String.length rest) by (rewrite (length_append _ rest); lia).
    apply substring_all.
Qed.

Lemma pktLine_is_read_back_witness :
  len "something went wrong" + 5 < 65536
  /\ read_pkt_line (pktLine "something went wrong" ++ "0000")
     = Some ("something went wrong" ++ newline, "0000").
Proof.
  split; [reflexivity |].
  apply (pktLine_is_read_back "something went wrong" "0000"). reflexivity.
Defined.

(** *** The fetch path *)

Lemma gitUploadPack_run {W : Type} (h : Handler W)
    (gitCmd repoDir repo : string) (w : W) :
  run h (gitUploadPack gitCmd repoDir repo) w =
  match h _ (StatE (repoDir ++ repo)) w with
  | (None, w1) =>
      (fst (h _ (CmdRunE (mkCmd gitCmd [repoDir ++ repo] "./" true)) w1),
       snd (h _ (CmdRunE (mkCmd gitCmd [repoDir ++ repo] "./" true)) w1),
       [act (StatE (repoDir ++ repo));
        act (CmdRunE (mkCmd gitCmd [repoDir ++ repo] "./" true))])
  | (Some _, w1) => (None, w1, [act (StatE (repoDir ++ repo))])
  end.
Proof.
  unfold gitUploadPack, fileExists, runCmd. paths h; reflexivity.
Qed.

(** X3.  [gitUploadPack] asks once whether the path exists.  When [Stat]
    answers nil it runs the git subcommand on the path, in ["./"], wired to
    the session, and returns that command's error.  When [Stat] answers an
    error, of any kind, it runs nothing and returns nil. *)
Theorem gitUploadPack_errors_come_from_the_command {W : Type} (h : Handler W)
    (gitCmd repoDir repo : string) (w : W) :
  let rp := repoDir ++ repo in
  let cmd := CmdRunE (mkCmd gitCmd [rp] "./" true) in
  run h (gitUploadPack gitCmd repoDir repo) w =
  match h _ (StatE rp) w with
  | (None, w1) =>
      (fst (h _ cmd w1), snd (h _ cmd w1), [act (StatE rp); act cmd])
  | (Some _, w1) => (None, w1, [act (StatE rp)])
  end.
Proof.
  intros rp cmd. subst rp cmd. apply gitUploadPack_run.
Qed.

(** X4.  An upload command with access other than [NoAccess], on a path for
    which [Stat] fails, whatever the failure (a permission error as well as
    a missing path): the handler calls [AuthRepo] and [Stat] and nothing
    else; the client is told nothing and the session is not exited. *)
Theorem fetch_is_silent_on_any_stat_error {W : Type} (h : Handler W)
    (Short : string -> string) (repoDir : string) (auth : Auth)
    (cb : option PushCallback) (s : Session) (gc repo : string)
    (w w1 w2 : W) (access : AccessLevel) (e : error) :
  Command s = [gc; repo] ->
  gc = "git-upload-pack" \/ gc = "git-upload-archive" ->
  h _ (AuthRepoE auth repo (SessionPublicKey s)) w = (access, w1) ->
  access <> NoAccess ->
  h _ (StatE (repoDir ++ repo)) w1 = (Some e, w2) ->
  let tr := trace (run h (dispatch Short repoDir auth cb s) w) in
  tr = [act (AuthRepoE auth repo (SessionPublicKey s));
        act (StatE (repoDir ++ repo))]
  /\ session_output tr = EmptyString
  /\ count is_exit tr = 0%nat.
Proof.
  intros Hcmd Hgc Hauth Hacc Hstat tr.
  pose proof (gitUploadPack_run h gc repoDir repo w1) as Hup.
  rewrite Hstat in Hup.
  pose proof (dispatch_upload_allowed h Short repoDir auth cb s gc repo w w1
                w2 access None _ Hcmd Hgc Hauth Hacc Hup) as Htr.
  fold tr in Htr. simpl in Htr.
  rewrite Htr. repeat split; reflexivity.
Qed.

(** *** Provisioning *)

(** X5.  [ensureRepo] stops at its first error and returns it: an error of
    [Stat] on the root other than not-exist, before anything is made; an
    error of [MkdirAll], before the repository path is looked at; an error
    of [Stat] on the repository path other than not-exist, before
    [git init] is run. *)
Theorem ensureRepo_stops_at_first_error {W : Type} (h : Handler W)
    (dir repo : string) (w : W) :
  let r := run h (ensureRepo dir repo) w in
  let rp := dir ++ repo in
  (forall e w1,
     h _ (StatE dir) w = (Some e, w1) -> IsNotExist e = false ->
     r = (Some e, w1, [act (StatE dir)]))
  /\ (forall e0 w0 e w1,
        h _ (StatE dir) w = (Some e0, w0) -> IsNotExist e0 = true ->
        h _ (MkdirAllE dir repoDirMode) w0 = (Some e, w1) ->
        r = (Some e, w1, [act (StatE dir); act (MkdirAllE dir repoDirMode)]))
  /\ (forall w1 e w2,
        h _ (StatE dir) w = (None, w1) ->
        h _ (StatE rp) w1 = (Some e, w2) -> IsNotExist e = false ->
        r = (Some e, w2, [act (StatE dir); act (StatE rp)])).
Proof.
  intros r rp. subst r rp. unfold ensureRepo, fileExists.
  split; [| split].
  - intros e w1 Hstat Hother.
    cbn -[String.append repoDirMode]. rewrite Hstat.
    cbn -[String.append repoDirMode]. rewrite Hother. reflexivity.
  - intros e0 w0 e w1 Hstat Hmissing Hmk.
    cbn -[String.append repoDirMode]. rewrite Hstat.
    cbn -[String.append repoDirMode]. rewrite Hmissing.
    cbn -[String.append repoDirMode]. rewrite Hmk. reflexivity.
  - intros w1 e w2 Hroot Hstat Hother.
    cbn -[String.append repoDirMode]. rewrite Hroot.
    cbn -[String.append repoDirMode]. rewrite Hstat.
    cbn -[String.append repoDirMode]. rewrite Hother. reflexivity.
Qed.

(** X6.  Whatever the environment answers, [ensureRepo] makes at most one
    directory and runs at most one command; the only directory it asks for
    is the root with mode [ModeDir|0700], and the only command it runs is
    [git init --bare root+repo], in the working directory of the server and
    not wired to the session. *)
Theorem ensureRepo_makes_only_root_and_repository {W : Type} (h : Handler W)
    (dir repo : string) (w : W) :
  let tr := trace (run h (ensureRepo dir repo) w) in
  (count is_mkdir tr <= 1)%nat
  /\ (count is_spawn tr <= 1)%nat
  /\ (forall a, In a tr -> is_mkdir a = true ->
        a = act (MkdirAllE dir repoDirMode))
  /\ (forall a c, In a tr -> spawned a = Some c ->
        c = mkCmd "git" ["init"; "--bare"; dir ++ repo] EmptyString false).
Proof.
  intros tr. subst tr. unfold ensureRepo, fileExists, trace.
  paths h;
    (split; [cbv; lia |]); (split; [cbv; lia |]);
    (split; [intros a Hin Hmk | intros a c Hin Hsp]);
    cbn [In] in Hin;
    repeat (destruct Hin as [<- | Hin]; [try discriminate; try reflexivity |]);
    try contradiction;
    try (cbv [spawned projT2 act] in Hsp; congruence).
Qed.

Lemma fetch_is_silent_on_any_stat_error_witness :
  let tr := trace (run RefHost.handle
                     (dispatch RefHost.Short "/repos/" Scenario.theAuth None
                        (Scenario.fetch (Some "reader")))
                     Trouble.locked_repository) in
  RefHost.stat "/repos/team/app.git" Trouble.locked_repository
    = Some (ErrOther "stat /repos/team/app.git: permission denied")
  /\ tr = [act (AuthRepoE Scenario.theAuth "team/app.git" (Some "reader"));
           act (StatE "/repos/team/app.git")]
  /\ session_output tr = EmptyString
  /\ count is_exit tr = 0%nat.
Proof.
  split; [reflexivity |].
  apply (fetch_is_silent_on_any_stat_error RefHost.handle RefHost.Short
           "/repos/" Scenario.theAuth None (Scenario.fetch (Some "reader"))
           "git-upload-pack" "team/app.git" Trouble.locked_repository
           Trouble.locked_repository Trouble.locked_repository ReadOnlyAccess
           (ErrOther "stat /repos/team/app.git: permission denied")
           eq_refl (or_introl eq_refl) eq_refl).
  - discriminate.
  - reflexivity.
Defined.

Lemma ensureRepo_stops_at_first_error_witness :
  run RefHost.handle (ensureRepo "/repos/" "team/app.git") Trouble.locked_root
    = (Some (ErrOther "stat /repos/: permission denied"), Trouble.locked_root,
       [act (StatE "/repos/")])
  /\ run Trouble.read_only_disk (ensureRepo "/repos/" "team/app.git") tt
     = (Some (ErrOther "mkdir /repos/: read-only file system"), tt,
        [act (StatE "/repos/"); act (MkdirAllE "/repos/" repoDirMode)])
  /\ run RefHost.handle (ensureRepo "/repos/" "team/app.git")
       Trouble.locked_repository
     = (Some (ErrOther "stat /repos/team/app.git: permission denied"),
        Trouble.locked_repository,
        [act (StatE "/repos/"); act (StatE "/repos/team/app.git")]).
Proof.
  split; [| split].
  - apply (proj1 (ensureRepo_stops_at_first_error RefHost.handle "/repos/"
                    "team/app.git" Trouble.locked_root)
             _ _ eq_refl eq_refl).
  - apply (proj1 (proj2 (ensureRepo_stops_at_first_error
                           Trouble.read_only_disk "/repos/" "team/app.git" tt))
             (ErrNotExist "stat /repos/: no such file or directory") tt
             _ _ eq_refl eq_refl eq_refl).
  - apply (proj2 (proj2 (ensureRepo_stops_at_first_error RefHost.handle
                           "/repos/" "team/app.git"
                           Trouble.locked_repository))
             Trouble.locked_repository _ _ eq_refl eq_refl eq_refl).
Defined.

Lemma ensureRepo_makes_only_root_and_repository_witness :
  let tr := trace (run RefHost.handle (ensureRepo "/repos/" "team/app.git")
                     Scenario.fresh) in
  In (act (MkdirAllE "/repos/" repoDirMode)) tr
  /\ act (MkdirAllE "/repos/" repoDirMode)
     = act (MkdirAllE "/repos/" repoDirMode)
  /\ In (act (CmdRunE (mkCmd "git" ["init"; "--bare"; "/repos/team/app.git"]
                         EmptyString false))) tr
  /\ count is_mkdir tr = 1%nat
  /\ count is_spawn tr = 1%nat.
Proof.
  intros tr.
  destruct (ensureRepo_makes_only_root_and_repository RefHost.handle
              "/repos/" "team/app.git" Scenario.fresh)
    as [_ [_ [Hmk Hsp]]].
  assert (Hin : In (act (MkdirAllE "/repos/" repoDirMode)) tr)
    by (right; left; reflexivity).
  split; [exact Hin |].
  split; [exact (Hmk _ Hin eq_refl) |].
  assert (Hin' : In (act (CmdRunE (mkCmd "git"
                                     ["init"; "--bare"; "/repos/team/app.git"]
                                     EmptyString false))) tr)
    by (do 3 right; left; reflexivity).
  pose proof (Hsp _ _ Hin' eq_refl) as Hcmd.
  split; [exact Hin' |].
  split; reflexivity.
Defined.

(** *** The push path *)

(** X7.  [gitReceivePack] is its four steps in order, each run only when
    the one before returned nil: the error of [ensureRepo] is returned
    before any pack exchange; the error of the receive-pack command before
    [update-server-info] is run; the error of [update-server-info] before
    the repository is opened; and when all three return nil the result is
    that of [ensureDefaultBranch], whose calls come last. *)
Theorem gitReceivePack_runs_its_steps_in_order {W : Type} (h : Handler W)
    (Short : string -> string) (gitCmd repoDir repo : string)
    (w w1 : W) (err1 : option error) (t1 : list Action) :
  let rp := repoDir ++ repo in
  let receive := CmdRunE (mkCmd gitCmd [rp] "./" true) in
  let update := CmdRunE (mkCmd "git" ["update-server-info"] rp true) in
  let r := run h (gitReceivePack Short gitCmd repoDir repo) w in
  run h (ensureRepo repoDir repo) w = (err1, w1, t1) ->
  (forall e, err1 = Some e -> r = (Some e, w1, t1))
  /\ (forall e w2,
        err1 = None -> h _ receive w1 = (Some e, w2) ->
        r = (Some e, w2, (t1 ++ [act receive])%list))
  /\ (forall w2 e w3,
        err1 = None -> h _ receive w1 = (None, w2) ->
        h _ update w2 = (Some e, w3) ->
        r = (Some e, w3, (t1 ++ [act receive; act update])%list))
  /\ (forall w2 w3,
        err1 = None -> h _ receive w1 = (None, w2) ->
        h _ update w2 = (None, w3) ->
        r = (let '(err, w4, t4) := run h (ensureDefaultBranch Short rp) w3 in
             (err, w4, (t1 ++ [act receive; act update] ++ t4)%list))).
Proof.
  intros rp receive update r Hprov. subst rp receive update r.
  unfold gitReceivePack. rewrite run_bind, Hprov.
  split; [| split; [| split]].
  - intros e ->. cbn. rewrite app_nil_r. reflexivity.
  - intros e w2 -> Hrcv.
    rewrite run_bind, runCmd_trace, Hrcv. reflexivity.
  - intros w2 e w3 -> Hrcv Hupd.
    rewrite run_bind, runCmd_trace, Hrcv. cbn [fst snd].
    rewrite run_bind, runCmd_trace, Hupd. reflexivity.
  - intros w2 w3 -> Hrcv Hupd.
    rewrite run_bind, runCmd_trace, Hrcv. cbn [fst snd].
    rewrite run_bind, runCmd_trace, Hupd. cbn [fst snd].
    rewrite run_bind.
    destruct (run h (ensureDefaultBranch Short (repoDir ++ repo)) w3)
      as [[err w4] t4].
    destruct err; cbn; rewrite app_nil_r; reflexivity.
Qed.

Lemma gitReceivePack_runs_its_steps_in_order_witness :
  let rp := "/repos/team/app.git" in
  run RefHost.handle
    (gitReceivePack RefHost.Short "git-receive-pack" "/repos/" "team/app.git")
    Trouble.locked_root
  = (Some (ErrOther "stat /repos/: permission denied"), Trouble.locked_root,
     [act (StatE "/repos/")])
  /\ trace (run RefHost.handle
              (gitReceivePack RefHost.Short "git-receive-pack" "/repos/"
                 "team/app.git") Scenario.broken_git)
     = [act (StatE "/repos/"); act (MkdirAllE "/repos/" repoDirMode);
        act (StatE rp);
        act (CmdRunE (mkCmd "git" ["init"; "--bare"; rp] EmptyString false));
        act (CmdRunE (mkCmd "git-receive-pack" [rp] "./" true))]
  /\ trace (run RefHost.handle
              (gitReceivePack RefHost.Short "git-receive-pack" "/repos/"
                 "team/app.git") Trouble.no_server_info)
     = [act (StatE "/repos/"); act (StatE rp);
        act (CmdRunE (mkCmd "git-receive-pack" [rp] "./" true));
        act (CmdRunE (mkCmd "git" ["update-server-info"] rp true))]
  /\ result (run RefHost.handle
               (gitReceivePack RefHost.Short "git-receive-pack" "/repos/"
                  "team/app.git") Trouble.settled)
     = None.
Proof.
  intros rp.
  split; [| split; [| split]].
  - apply (proj1 (gitReceivePack_runs_its_steps_in_order RefHost.handle
                    RefHost.Short "git-receive-pack" "/repos/" "team/app.git"
                    Trouble.locked_root Trouble.locked_root
                    (Some (ErrOther "stat /repos/: permission denied"))
                    [act (StatE "/repos/")] eq_refl) _ eq_refl).
  - pose (p := run RefHost.handle (ensureRepo "/repos/" "team/app.git")
                 Scenario.broken_git).
    rewrite (proj1 (proj2 (gitReceivePack_runs_its_steps_in_order
                             RefHost.handle RefHost.Short "git-receive-pack"
                             "/repos/" "team/app.git" Scenario.broken_git
                             (world p) None (trace p) eq_refl))
               (ErrOther "exit status 1") (world p) eq_refl eq_refl).
    reflexivity.
  - rewrite (proj1 (proj2 (proj2 (gitReceivePack_runs_its_steps_in_order
                                    RefHost.handle RefHost.Short
                                    "git-receive-pack" "/repos/" "team/app.git"
                                    Trouble.no_server_info
                                    Trouble.no_server_info None
                                    [act (StatE "/repos/"); act (StatE rp)]
                                    eq_refl)))
               (snd (RefHost.handle _
                       (CmdRunE (mkCmd "git-receive-pack" [rp] "./" true))
                       Trouble.no_server_info))
               (ErrOther "exit status 1") _ eq_refl eq_refl eq_refl).
    reflexivity.
  - rewrite (proj2 (proj2 (proj2 (gitReceivePack_runs_its_steps_in_order
                                    RefHost.handle RefHost.Short
                                    "git-receive-pack" "/repos/" "team/app.git"
                                    Trouble.settled Trouble.settled None
                                    [act (StatE "/repos/"); act (StatE rp)]
                                    eq_refl)))
               (snd (RefHost.handle _
                       (CmdRunE (mkCmd "git-receive-pack" [rp] "./" true))
                       Trouble.settled))
               _ eq_refl eq_refl eq_refl).
    vm_compute. reflexivity.
Defined.

(** *** The default branch *)

(** X8.  [ensureDefaultBranch] returns the error of [PlainOpen] or of
    [Branches] at once, with nothing to close.  Once [Branches] has given an
    iterator, that iterator is closed exactly once, as the last call, on
    every path; and no run closes an iterator twice. *)
Theorem ensureDefaultBranch_closes_its_iterator {W : Type} (h : Handler W)
    (Short : string -> string) (repoPath : string) (w : W) :
  let res := run h (ensureDefaultBranch Short repoPath) w in
  (forall e w1,
     h _ (PlainOpenE repoPath) w = (inl e, w1) ->
     res = (Some e, w1, [act (PlainOpenE repoPath)]))
  /\ (forall r w1 e w2,
        h _ (PlainOpenE repoPath) w = (inr r, w1) ->
        h _ (BranchesE r) w1 = (inl e, w2) ->
        res = (Some e, w2, [act (PlainOpenE repoPath); act (BranchesE r)]))
  /\ (forall r w1 brs w2,
        h _ (PlainOpenE repoPath) w = (inr r, w1) ->
        h _ (BranchesE r) w1 = (inr brs, w2) ->
        count is_close (trace res) = 1%nat
        /\ last (trace res) (act (PlainOpenE repoPath))
           = act (IterCloseE brs))
  /\ (count is_close (trace res) <= 1)%nat.
Proof.
  intros res. subst res. unfold ensureDefaultBranch, runCmd, trace.
  split; [| split; [| split]].
  - intros e w1 Hopen. paths h. reflexivity.
  - intros r w1 e w2 Hopen Hbrs. paths h. reflexivity.
  - intros r w1 brs w2 Hopen Hbrs. paths h; split; reflexivity.
  - paths h; cbv; lia.
Qed.

Lemma ensureDefaultBranch_closes_its_iterator_witness :
  let path := "/repos/team/app.git" in
  run Trouble.read_only_disk (ensureDefaultBranch RefHost.Short path) tt
    = (Some (ErrOther "repository does not exist"), tt,
       [act (PlainOpenE path)])
  /\ (let res := run RefHost.handle (ensureDefaultBranch RefHost.Short path)
                   Trouble.settled in
      count is_close (trace res) = 1%nat
      /\ last (trace res) (act (PlainOpenE path))
         = act (IterCloseE (IterOver path))).
Proof.
  intros path. split.
  - apply (proj1 (ensureDefaultBranch_closes_its_iterator
                    Trouble.read_only_disk RefHost.Short path tt)
             _ _ eq_refl).
  - apply (proj1 (proj2 (proj2 (ensureDefaultBranch_closes_its_iterator
                                  RefHost.handle RefHost.Short path
                                  Trouble.settled)))
             (RepositoryAt path) Trouble.settled (IterOver path)
             (snd (RefHost.handle _ (BranchesE (RepositoryAt path))
                     Trouble.settled))
             eq_refl eq_refl).
Defined.

(** X9.  Whatever the environment answers, [ensureDefaultBranch] makes no
    directory and runs at most one command, and a command it runs is
    [git branch -M] with the short name of some reference, in the
    repository and wired to the session. *)
Theorem ensureDefaultBranch_only_renames {W : Type} (h : Handler W)
    (Short : string -> string) (repoPath : string) (w : W) :
  let tr := trace (run h (ensureDefaultBranch Short repoPath) w) in
  count is_mkdir tr = 0%nat
  /\ (count is_spawn tr <= 1)%nat
  /\ (forall a c, In a tr -> spawned a = Some c ->
        exists fb : Reference,
          c = mkCmd "git" ["branch"; "-M"; Short (RefName fb)] repoPath true).
Proof.
  intros tr. subst tr. unfold ensureDefaultBranch, runCmd, trace.
  paths h;
    (split; [reflexivity |]); (split; [cbv; lia |]);
    intros a c Hin Hsp; cbn [In] in Hin;
    repeat (destruct Hin as [<- | Hin];
            [try discriminate Hsp;
             try (cbv [spawned projT2 act] in Hsp;
                  injection Hsp as <-; eexists; reflexivity) |]);
    contradiction.
Qed.

Lemma ensureDefaultBranch_only_renames_witness :
  let path := "/repos/team/app.git" in
  let tr := trace (run RefHost.handle (ensureDefaultBranch RefHost.Short path)
                     Scenario.first_branch) in
  let rename := mkCmd "git" ["branch"; "-M"; "main"] path true in
  In (act (CmdRunE rename)) tr
  /\ exists fb : Reference,
       rename = mkCmd "git" ["branch"; "-M"; RefHost.Short (RefName fb)]
                  path true.
Proof.
  intros path tr rename.
  assert (Hin : In (act (CmdRunE rename)) tr)
    by (do 4 right; left; reflexivity).
  split; [exact Hin |].
  apply (proj2 (proj2 (ensureDefaultBranch_only_renames RefHost.handle
                         RefHost.Short path Scenario.first_branch))
           _ rename Hin eq_refl).
Defined.

(** *** The handler as a whole *)

Lemma dispatch_shape {W : Type} (h : Handler W) (Short : string -> string)
    (repoDir : string) (auth : Auth) (cb : option PushCallback)
    (s : Session) (w : W) :
  let tr := trace (run h (dispatch Short repoDir auth cb s) w) in
  tr = [] /\ List.length (Command s) <> 2%nat
  \/ exists gc repo access w1 rest,
       Command s = [gc; repo]
       /\ h _ (AuthRepoE auth repo (SessionPublicKey s)) w = (access, w1)
       /\ tr = act (AuthRepoE auth repo (SessionPublicKey s)) :: rest
       /\ (rest = [act (SessionWriteE (pktLine "you are not authorized to do this"));
                   act (SessionExitE 1)]
           /\ (gc = "git-receive-pack"
                 /\ (access = NoAccess \/ access = ReadOnlyAccess)
               \/ (gc = "git-upload-pack" \/ gc = "git-upload-archive")
                 /\ access = NoAccess)
           \/ rest = []
              /\ gc <> "git-receive-pack" /\ gc <> "git-upload-pack"
              /\ gc <> "git-upload-archive"
           \/ exists t2 err t4,
                rest = (t2 ++ report_actions gc err ++ t4)%list
                /\ forallb touches_repo t2 = true
                /\ (t4 = [] /\ gc <> "git-receive-pack"
                    \/ gc = "git-receive-pack"
                       /\ (access = ReadWriteAccess \/ access = AdminAccess)
                       /\ t4 = callback_actions cb repo (SessionPublicKey s))).
Proof.
  intros tr.
  destruct (Nat.eq_dec (List.length (Command s)) 2) as [Hlen | Hlen].
  2: { left. split; [| exact Hlen]. unfold tr.
       rewrite (dispatch_not_git h Short repoDir auth cb s w Hlen).
       reflexivity. }
  right.
  destruct (Command s) as [| gc [| repo [| x l]]] eqn:Hcmd;
    try discriminate Hlen.
  destruct (h _ (AuthRepoE auth repo (SessionPublicKey s)) w)
    as [access w1] eqn:Hauth.
  exists gc, repo, access, w1.
  destruct (String.eqb_spec gc "git-receive-pack") as [Hr | Hr].
  - subst gc.
    assert (Hacc : (access = NoAccess \/ access = ReadOnlyAccess)
                   \/ (access = ReadWriteAccess \/ access = AdminAccess))
      by (destruct access; auto).
    destruct Hacc as [Hno | Hyes].
    + eexists. split; [reflexivity |]. split; [exact Hauth |].
      split; [apply (dispatch_refused h Short repoDir auth cb s _ _ _ _ _
                       Hcmd Hauth); auto |].
      left; auto.
    + destruct (run h (gitReceivePack Short "git-receive-pack" repoDir repo) w1)
        as [[err w2] t2] eqn:Hrcv.
      pose proof (gitReceivePack_repo_only h Short "git-receive-pack"
                    repoDir repo w1) as Honly.
      rewrite Hrcv in Honly. unfold trace in Honly; simpl in Honly.
      eexists. split; [reflexivity |]. split; [exact Hauth |].
      split; [apply (dispatch_receive_allowed h Short repoDir auth cb s _ _ _ _
                       _ _ _ Hcmd Hauth Hyes Hrcv) |].
      right; right. exists t2, err, (callback_actions cb repo (SessionPublicKey s)).
      split; [reflexivity |]. split; [exact Honly |]. right; auto.
  - destruct (String.eqb_spec gc "git-upload-pack") as [Hu | Hu];
      [| destruct (String.eqb_spec gc "git-upload-archive") as [Ha | Ha]].
    3: { eexists. split; [reflexivity |]. split; [exact Hauth |].
         split; [apply (dispatch_other h Short repoDir auth cb s _ _ _ Hcmd);
                 assumption |].
         right; left; auto. }
    all: assert (Hgc : gc = "git-upload-pack" \/ gc = "git-upload-archive")
           by auto.
    all: destruct (run h (gitUploadPack gc repoDir repo) w1)
           as [[err w2] t2] eqn:Hup.
    all: pose proof (gitUploadPack_repo_only h gc repoDir repo w1) as Honly.
    all: rewrite Hup in Honly; unfold trace in Honly; simpl in Honly.
    all: destruct access eqn:Hacc;
      [ eexists; split; [reflexivity |]; split; [exact Hauth |];
        split; [apply (dispatch_refused h Short repoDir auth cb s _ _ _ _ _
                         Hcmd Hauth); auto |];
        left; auto
      | | | ].
    all: eexists; split; [reflexivity |]; split; [exact Hauth |];
           split;
           [apply (dispatch_upload_allowed h Short repoDir auth cb s _ _ _ _ _
                     _ _ _ Hcmd Hgc Hauth ltac:(discriminate) Hup) |].
    all: right; right; exists t2, err, []; rewrite app_nil_r.
    all: split; [reflexivity |]; split; [exact Honly |]; left; auto.
Qed.

Lemma touches_repo_not_write (a : Action) :
  touches_repo a = true -> is_write a = false.
Proof. destruct a as [X e]; destruct e; cbv; congruence. Qed.

Lemma touches_repo_no_exit_code (a : Action) :
  touches_repo a = true -> exit_code a = None.
Proof. destruct a as [X e]; destruct e; cbv; congruence. Qed.

Lemma count_cons (f : Action -> bool) (a : Action) (t : list Action) :
  count f (a :: t) = ((if f a then 1 else 0) + count f t)%nat.
Proof. unfold count. simpl. destruct (f a); reflexivity. Qed.

(** X10.  Whatever the session and the environment, the handler's git logic
    exits the session at most once, always with status 1, and it exits the
    session exactly as often as it writes to it: a report is one write and
    one exit, and there is at most one report. *)
Theorem session_is_exited_at_most_once {W : Type} (h : Handler W)
    (Short : string -> string) (repoDir : string) (auth : Auth)
    (cb : option PushCallback) (s : Session) (w : W) :
  let tr := trace (run h (dispatch Short repoDir auth cb s) w) in
  (count is_exit tr <= 1)%nat
  /\ count is_exit tr = count is_write tr
  /\ (forall a c, In a tr -> exit_code a = Some c -> c = 1).
Proof.
  intros tr.
  destruct (dispatch_shape h Short repoDir auth cb s w)
    as [[Hnil _] | [gc [repo [access [w1 [rest [_ [_ [Htr Hrest]]]]]]]]];
    fold tr in Hnil || fold tr in Htr.
  { rewrite Hnil. split; [cbv; lia |]. split; [reflexivity |].
    intros a c []. }
  rewrite Htr.
  destruct Hrest as [[-> _] | [[-> _] | [t2 [err [t4 [-> [Honly Ht4]]]]]]].
  - split; [cbv; lia |]. split; [reflexivity |].
    intros a c Hin Hc. cbn [In] in Hin.
    destruct Hin as [<- | [<- | [<- | []]]]; try discriminate Hc.
    cbv [exit_code projT2 act] in Hc. congruence.
  - split; [cbv; lia |]. split; [reflexivity |].
    intros a c Hin Hc. cbn [In] in Hin.
    destruct Hin as [<- | []]. discriminate Hc.
  - assert (Ht4e : count is_exit t4 = 0%nat /\ count is_write t4 = 0%nat
                   /\ forall a, In a t4 -> exit_code a = None).
    { destruct Ht4 as [[-> _] | [_ [_ ->]]].
      - repeat split; try reflexivity. intros a [].
      - destruct cb as [f |]; repeat split; try reflexivity.
        + intros a [<- | []]. reflexivity.
        + intros a []. }
    destruct Ht4e as [Ht4x [Ht4w Ht4c]].
    rewrite !count_cons, !count_app, Ht4x, Ht4w.
    rewrite (repo_only_count _ Honly is_exit touches_repo_not_exit).
    rewrite (repo_only_count _ Honly is_write touches_repo_not_write).
    split; [destruct err; cbv; lia |].
    split; [destruct err; reflexivity |].
    intros a c Hin Hc. cbn [In] in Hin.
    destruct Hin as [<- | Hin]; [discriminate Hc |].
    apply in_app_or in Hin. destruct Hin as [Hin | Hin].
    + rewrite forallb_forall in Honly.
      rewrite (touches_repo_no_exit_code a (Honly a Hin)) in Hc.
      discriminate Hc.
    + apply in_app_or in Hin. destruct Hin as [Hin | Hin].
      * destruct err as [e |]; [| destruct Hin].
        destruct Hin as [<- | [<- | [<- | []]]]; try discriminate Hc.
        cbv [exit_code projT2 act] in Hc. congruence.
      * rewrite (Ht4c a Hin) in Hc. discriminate Hc.
Qed.

Lemma session_is_exited_at_most_once_witness :
  let tr := trace (run RefHost.handle
                     (dispatch RefHost.Short "/repos/" Scenario.theAuth
                        (Some Scenario.theCallback)
                        (Scenario.push (Some "writer")))
                     Scenario.broken_git) in
  In (act (SessionExitE 1)) tr
  /\ count is_exit tr = 1%nat
  /\ count is_write tr = 1%nat.
Proof.
  intros tr.
  destruct (session_is_exited_at_most_once RefHost.handle RefHost.Short
              "/repos/" Scenario.theAuth (Some Scenario.theCallback)
              (Scenario.push (Some "writer")) Scenario.broken_git)
    as [Hmost [Hsame Hone]].
  assert (Hin : In (act (SessionExitE 1)) tr)
    by (do 8 right; left; reflexivity).
  pose proof (Hone _ 1 Hin eq_refl) as Hcode.
  split; [exact Hin |].
  split; [reflexivity |].
  fold tr in Hsame. rewrite <- Hsame. reflexivity.
Defined.

(** X11.  The push callback is called exactly when a callback is
    configured, the command has two elements of which the first is
    [git-receive-pack], and [AuthRepo] answers [ReadWriteAccess] or
    [AdminAccess]; it is then called once.  It is never called for an upload
    command, a refused push, another command, or a command of another
    length. *)
Theorem callback_is_called_exactly_when {W : Type} (h : Handler W)
    (Short : string -> string) (repoDir : string) (auth : Auth)
    (cb : option PushCallback) (s : Session) (w : W) :
  count is_callback (trace (run h (dispatch Short repoDir auth cb s) w)) =
  match cb, Command s with
  | Some _, [gc; repo] =>
      if String.eqb gc "git-receive-pack" then
        match fst (h _ (AuthRepoE auth repo (SessionPublicKey s)) w) with
        | ReadWriteAccess | AdminAccess => 1%nat
        | _ => 0%nat
        end
      else 0%nat
  | _, _ => 0%nat
  end.
Proof.
  destruct (dispatch_shape h Short repoDir auth cb s w)
    as [[Hnil Hlen] | [gc [repo [access [w1 [rest [Hcmd [Hauth [Htr Hrest]]]]]]]]];
    cbv zeta in *.
  { rewrite Hnil.
    destruct cb as [f |]; [| reflexivity].
    destruct (Command s) as [| gc [| repo [| x l]]]; try reflexivity.
    exfalso; apply Hlen; reflexivity. }
  rewrite Htr, Hcmd, Hauth. cbn [fst].
  destruct Hrest as [[-> Hwhy] | [[-> Hwhy] | [t2 [err [t4 [-> [Honly Ht4]]]]]]].
  - destruct cb as [f |]; [| reflexivity].
    destruct Hwhy as [[-> [-> | ->]] | [[-> | ->] ->]]; reflexivity.
  - destruct cb as [f |]; [| reflexivity].
    destruct Hwhy as [H1 _]. apply String.eqb_neq in H1. rewrite H1.
    reflexivity.
  - rewrite count_cons, !count_app.
    rewrite (repo_only_count _ Honly is_callback touches_repo_not_callback).
    rewrite report_actions_count by reflexivity.
    destruct Ht4 as [[-> Hgc] | [-> [Hacc ->]]].
    + apply String.eqb_neq in Hgc. rewrite Hgc.
      destruct cb; reflexivity.
    + destruct cb as [f |]; [| reflexivity].
      destruct Hacc as [-> | ->]; reflexivity.
Qed.

(** *** Authorized keys *)

Section KeyParsing.

Context {W : Type} (h : Handler W).
Variable parse : string -> error + PublicKey.

Lemma nonblank_eqb (l : string) :
  nonblank l = negb (String.eqb l EmptyString).
Proof. reflexivity. Qed.

Lemma addKeys_loop_all_parse (lines : list string) :
  forall keys w,
    (forall l, In l lines -> nonblank l = true ->
       exists pk, parse l = inr pk) ->
    result (run h (addKeys_loop parse lines keys) w)
      = ((keys ++ keys_of parse lines)%list, None)
    /\ trace (run h (addKeys_loop parse lines keys) w) = key_logs lines.
Proof.
  induction lines as [| pt rest IH]; intros keys w Hall.
  - cbn. rewrite app_nil_r. split; reflexivity.
  - cbn [addKeys_loop]. unfold keys_of, key_logs. cbn [filter].
    rewrite nonblank_eqb.
    destruct (String.eqb pt EmptyString) eqn:Hblank; cbn [negb].
    + apply IH. intros l Hin. apply Hall. right; exact Hin.
    + destruct (Hall pt (or_introl eq_refl)) as [pk Hpk].
      { rewrite nonblank_eqb, Hblank. reflexivity. }
      cbn -[String.append]. rewrite Hpk.
      destruct (h _ (LogPrintfE ("Adding authorized key: " ++ pt)) w)
        as [u w1].
      specialize (IH (keys ++ [pk])%list w1
                     (fun l Hin => Hall l (or_intror Hin))).
      destruct (run h (addKeys_loop parse rest (keys ++ [pk])%list) w1)
        as [[res w2] tr].
      unfold result, trace in *. cbn [fst snd] in *.
      destruct IH as [-> ->].
      rewrite <- app_assoc. split; reflexivity.
Qed.

Lemma addKeys_loop_first_error (good : list string) :
  forall keys w bad rest e,
    (forall l, In l good -> nonblank l = true ->
       exists pk, parse l = inr pk) ->
    nonblank bad = true -> parse bad = inl e ->
    result (run h (addKeys_loop parse (good ++ bad :: rest) keys) w)
      = ((keys ++ keys_of parse good)%list, Some e)
    /\ trace (run h (addKeys_loop parse (good ++ bad :: rest) keys) w)
       = key_logs (good ++ [bad]).
Proof.
  induction good as [| pt good IH]; intros keys w bad rest e Hall Hbad He.
  - cbn [app addKeys_loop]. unfold key_logs, keys_of. cbn [filter].
    rewrite Hbad. rewrite nonblank_eqb in Hbad.
    apply negb_true_iff in Hbad. rewrite Hbad.
    cbn -[String.append]. rewrite He.
    destruct (h _ (LogPrintfE ("Adding authorized key: " ++ bad)) w)
      as [u w1].
    cbn. rewrite app_nil_r. split; reflexivity.
  - cbn [app addKeys_loop]. unfold keys_of, key_logs. cbn [filter].
    rewrite nonblank_eqb.
    destruct (String.eqb pt EmptyString) eqn:Hblank; cbn [negb].
    + apply IH; auto. intros l Hin. apply Hall. right; exact Hin.
    + destruct (Hall pt (or_introl eq_refl)) as [pk Hpk].
      { rewrite nonblank_eqb, Hblank. reflexivity. }
      cbn -[String.append]. rewrite Hpk.
      destruct (h _ (LogPrintfE ("Adding authorized key: " ++ pt)) w)
        as [u w1].
      specialize (IH (keys ++ [pk])%list w1 bad rest e
                     (fun l Hin => Hall l (or_intror Hin)) Hbad He).
      destruct (run h (addKeys_loop parse (good ++ bad :: rest)
                         (keys ++ [pk])%list) w1) as [[res w2] tr].
      unfold result, trace in *. cbn [fst snd] in *.
      destruct IH as [-> ->].
      rewrite <- app_assoc. split; reflexivity.
Qed.

Lemma addKeys_loop_skips_blank (lines : list string) :
  forall keys w,
    run h (addKeys_loop parse (filter nonblank lines) keys) w
    = run h (addKeys_loop parse lines keys) w.
Proof.
  induction lines as [| pt rest IH]; intros keys w; [reflexivity |].
  cbn [filter addKeys_loop]. rewrite nonblank_eqb.
  destruct (String.eqb pt EmptyString) eqn:Hblank; cbn [negb].
  - apply IH.
  - cbn [addKeys_loop]. rewrite Hblank.
    cbn -[String.append].
    destruct (h _ (LogPrintfE ("Adding authorized key: " ++ pt)) w)
      as [u w1].
    destruct (parse pt) as [e | pk]; [reflexivity |].
    rewrite IH. reflexivity.
Qed.

End KeyParsing.

(** X12.  When every line the scanner delivers is blank or parses,
    [addKeys] appends the keys of the lines that are not blank, in the
    order of the lines, writes one log line for each of them, and returns
    what the scanner's [Err] reports. *)
Theorem addKeys_appends_a_key_per_line {W : Type} (h : Handler W)
    (parse : string -> error + PublicKey) (s : Scanner)
    (keys : list PublicKey) (w : W) :
  (forall l, In l (tokens s) -> nonblank l = true ->
     exists pk, parse l = inr pk) ->
  let r := run h (addKeys parse s keys) w in
  result r = ((keys ++ keys_of parse (tokens s))%list, scan_err s)
  /\ trace r = key_logs (tokens s)
  /\ List.length (keys_of parse (tokens s))
     = List.length (filter nonblank (tokens s)).
Proof.
  intros Hall r. subst r. unfold addKeys. rewrite run_bind.
  destruct (addKeys_loop_all_parse h parse (tokens s) keys w Hall)
    as [Hres Htr].
  destruct (run h (addKeys_loop parse (tokens s) keys) w) as [[res w1] tr].
  unfold result, trace in *. cbn [fst snd] in *. subst res tr.
  split; [| split].
  - destruct (scan_err s); reflexivity.
  - destruct (scan_err s); cbn; rewrite app_nil_r; reflexivity.
  - unfold keys_of. clear - Hall.
    induction (tokens s) as [| l rest IH]; [reflexivity |].
    cbn [filter]. destruct (nonblank l) eqn:Hl.
    + destruct (Hall l (or_introl eq_refl) Hl) as [pk Hpk].
      cbn [flat_map List.length]. rewrite Hpk. cbn [app List.length].
      f_equal. apply IH. intros l' Hin. apply Hall. right; exact Hin.
    + apply IH. intros l' Hin. apply Hall. right; exact Hin.
Qed.

Lemma addKeys_appends_a_key_per_line_witness :
  let s := mkScanner ["ssh-ed25519 AAAA alice"; EmptyString;
                      "ssh-rsa BBBB bob"] None in
  let r := run RefHost.handle (addKeys KeyFiles.parse s []) Scenario.fresh in
  result r = ([Some "ssh-ed25519 AAAA alice"; Some "ssh-rsa BBBB bob"], None)
  /\ trace r
     = [act (LogPrintfE "Adding authorized key: ssh-ed25519 AAAA alice");
        act (LogPrintfE "Adding authorized key: ssh-rsa BBBB bob")].
Proof.
  intros s r.
  destruct (addKeys_appends_a_key_per_line RefHost.handle KeyFiles.parse s []
              Scenario.fresh) as [Hres [Htr _]].
  - intros l Hin Hl. cbn [tokens s In] in Hin.
    destruct Hin as [<- | [<- | [<- | []]]];
      [eexists; reflexivity | discriminate Hl | eexists; reflexivity].
  - split; [exact Hres | exact Htr].
Defined.

(** X13.  At the first line that is not blank and does not parse, [addKeys]
    returns the error of the parser.  The keys of the lines before it have
    been appended; the line itself has been logged; the lines after it are
    neither logged nor parsed, and what the scanner's [Err] would report is
    not looked at. *)
Theorem addKeys_stops_at_the_first_bad_line {W : Type} (h : Handler W)
    (parse : string -> error + PublicKey) (s : Scanner)
    (keys : list PublicKey) (w : W)
    (good : list string) (bad : string) (rest : list string) (e : error) :
  tokens s = (good ++ bad :: rest)%list ->
  (forall l, In l good -> nonblank l = true -> exists pk, parse l = inr pk) ->
  nonblank bad = true ->
  parse bad = inl e ->
  let r := run h (addKeys parse s keys) w in
  result r = ((keys ++ keys_of parse good)%list, Some e)
  /\ trace r = key_logs (good ++ [bad]).
Proof.
  intros Htok Hall Hbad He r. subst r. unfold addKeys.
  rewrite run_bind, Htok.
  destruct (addKeys_loop_first_error h parse good keys w bad rest e
              Hall Hbad He) as [Hres Htr].
  destruct (run h (addKeys_loop parse (good ++ bad :: rest) keys) w)
    as [[res w1] tr].
  unfold result, trace in *. cbn [fst snd] in *. subst res tr.
  cbn. rewrite app_nil_r. split; reflexivity.
Qed.

Lemma addKeys_stops_at_the_first_bad_line_witness :
  let s := mkScanner ["ssh-ed25519 AAAA alice"; "not a key";
                      "ssh-rsa BBBB bob"]
                     (Some ErrTooLong) in
  let r := run RefHost.handle (addKeys KeyFiles.parse s []) Scenario.fresh in
  result r = ([Some "ssh-ed25519 AAAA alice"],
              Some (ErrOther "ssh: no key found"))
  /\ trace r
     = [act (LogPrintfE "Adding authorized key: ssh-ed25519 AAAA alice");
        act (LogPrintfE "Adding authorized key: not a key")].
Proof.
  intros s r.
  apply (addKeys_stops_at_the_first_bad_line RefHost.handle KeyFiles.parse s
           [] Scenario.fresh ["ssh-ed25519 AAAA alice"] "not a key"
           ["ssh-rsa BBBB bob"] (ErrOther "ssh: no key found") eq_refl).
  - intros l [<- | []] _. eexists; reflexivity.
  - reflexivity.
  - reflexivity.
Defined.

(** X14.  Blank lines do not matter to [addKeys]: on a scanner that
    delivers the same lines without the blank ones it returns the same
    keys and error, makes the same calls and leaves the same state. *)
Theorem addKeys_ignores_blank_lines {W : Type} (h : Handler W)
    (parse : string -> error + PublicKey) (s : Scanner)
    (keys : list PublicKey) (w : W) :
  run h (addKeys parse (mkScanner (filter nonblank (tokens s)) (scan_err s))
           keys) w
  = run h (addKeys parse s keys) w.
Proof.
  unfold addKeys. rewrite !run_bind. cbn [tokens scan_err].
  rewrite addKeys_loop_skips_blank. reflexivity.
Qed.

Lemma addKeys_loop_outcome {W : Type} (h : Handler W)
    (parse : string -> error + PublicKey) (lines : list string) :
  forall keys w,
    let r := run h (addKeys_loop parse lines keys) w in
    forallb is_log (trace r) = true
    /\ (snd (result r) = None ->
        fst (result r) = (keys ++ keys_of parse lines)%list
        /\ trace r = key_logs lines
        /\ forall l, In l lines -> nonblank l = true ->
             exists pk, parse l = inr pk).
Proof.
  induction lines as [| pt rest IH]; intros keys w r; subst r.
  - cbn. rewrite app_nil_r. split; [reflexivity |].
    intros _. repeat split. intros l [].
  - cbn [addKeys_loop]. unfold keys_of, key_logs. cbn [filter].
    rewrite nonblank_eqb.
    destruct (String.eqb pt EmptyString) eqn:Hblank; cbn [negb].
    + destruct (IH keys w) as [Hlog Hok]. split; [exact Hlog |].
      intros Hnone. destruct (Hok Hnone) as [Hkeys [Htr Hall]].
      repeat split; try assumption.
      intros l [<- | Hin] Hl; [| exact (Hall l Hin Hl)].
      rewrite nonblank_eqb, Hblank in Hl. discriminate Hl.
    + cbn -[String.append].
      destruct (h _ (LogPrintfE ("Adding authorized key: " ++ pt)) w)
        as [u w1].
      destruct (parse pt) as [e | pk] eqn:Hpk.
      * cbn. split; [reflexivity | discriminate].
      * destruct (IH (keys ++ [pk])%list w1) as [Hlog Hok].
        destruct (run h (addKeys_loop parse rest (keys ++ [pk])%list) w1)
          as [[res w2] tr].
        unfold result, trace in *. cbn [fst snd] in *.
        split; [exact Hlog |].
        intros Hnone. destruct (Hok Hnone) as [Hkeys [Htr Hall]].
        rewrite Hkeys, Htr, <- app_assoc.
        repeat split.
        intros l [<- | Hin] Hl; [eexists; exact Hpk | exact (Hall l Hin Hl)].
Qed.

(** X15.  [parseKeysFromString] only writes log lines, and it returns
    either keys and no error or the nil slice and an error, never a part of
    the keys.  It returns keys only when every line of the input that is
    not blank has parsed and the scanner reports no error; they are then
    the keys of all these lines, in order, each logged once. *)
Theorem parseKeysFromString_returns_all_keys_or_an_error {W : Type}
    (h : Handler W) (parse : string -> error + PublicKey) (input : string)
    (w : W) :
  let r := run h (parseKeysFromString parse input) w in
  let lines := tokens (NewScanner input) in
  forallb is_log (trace r) = true
  /\ (result r = (Some (keys_of parse lines), None)
      /\ scan_err (NewScanner input) = None
      /\ trace r = key_logs lines
      /\ (forall l, In l lines -> nonblank l = true ->
            exists pk, parse l = inr pk)
      \/ exists e, result r = (None, Some e)).
Proof.
  intros r lines. subst r lines.
  unfold parseKeysFromString, addKeys. rewrite !run_bind.
  destruct (addKeys_loop_outcome h parse (tokens (NewScanner input)) [] w)
    as [Hlog Hok].
  destruct (run h (addKeys_loop parse (tokens (NewScanner input)) []) w)
    as [[[ks err] w1] tr].
  unfold result, trace in *. cbn [fst snd] in *.
  destruct err as [e |].
  - cbn. rewrite !app_nil_r. split; [exact Hlog |].
    right. eexists; reflexivity.
  - destruct (Hok eq_refl) as [Hkeys [Htr Hall]].
    destruct (scan_err (NewScanner input)) as [e |] eqn:Herr.
    + cbn. rewrite !app_nil_r. split; [exact Hlog |].
      right. eexists; reflexivity.
    + cbn. rewrite !app_nil_r. split; [exact Hlog |].
      left. rewrite Hkeys, Htr. repeat split. exact Hall.
Qed.

Lemma parseKeysFromString_returns_all_keys_or_an_error_witness :
  let nl := newline in
  let input := "ssh-ed25519 AAAA alice" ++ nl ++ nl ++ "ssh-rsa BBBB bob" ++ nl in
  tokens (NewScanner input)
    = ["ssh-ed25519 AAAA alice"; EmptyString; "ssh-rsa BBBB bob"]
  /\ result (run RefHost.handle (parseKeysFromString KeyFiles.parse input)
               Scenario.fresh)
     = (Some [Some "ssh-ed25519 AAAA alice"; Some "ssh-rsa BBBB bob"], None).
Proof.
  intros nl input. split; [vm_compute; reflexivity |].
  destruct (parseKeysFromString_returns_all_keys_or_an_error RefHost.handle
              KeyFiles.parse input Scenario.fresh)
    as [_ [[Hres _] | [e He]]].
  - rewrite Hres. vm_compute. reflexivity.
  - exfalso. vm_compute in He. discriminate He.
Defined.

(** *** Key files *)

Lemma frun_fbind {W A B : Type} (h : FileHandler W) (p : FProg A)
    (f : A -> FProg B) :
  forall w,
    frun h (fbind p f) w =
    let '(o, w1, t1) := frun h p w in
    match o with
    | Returned a =>
        let '(o2, w2, t2) := frun h (f a) w1 in (o2, w2, (t1 ++ t2)%list)
    | Exited msg => (Exited msg, w1, t1)
    end.
Proof.
  induction p as [a | X e k IH | msg]; intros w; cbn [fbind frun].
  - destruct (frun h (f a) w) as [[o2 w2] t2]. reflexivity.
  - destruct (h X e w) as [x w1]. rewrite IH.
    destruct (frun h (k x) w1) as [[o w2] t1].
    destruct o as [a | msg]; [| reflexivity].
    destruct (frun h (f a) w2) as [[o2 w3] t2]. reflexivity.
  - reflexivity.
Qed.

Lemma frun_lift {W A : Type} (h : FileHandler W) (p : Prog A) :
  forall w,
    frun h (lift p) w =
    let '(a, w1, t) := run (base_handler h) p w in
    (Returned a, w1, map base_action t).
Proof.
  induction p as [a | X e k IH]; intros w; cbn [lift frun run].
  - reflexivity.
  - unfold base_handler at 1. destruct (h X (BaseE e) w) as [x w1].
    rewrite IH. destruct (run (base_handler h) (k x) w1) as [[a w2] t].
    reflexivity.
Qed.

(** X16.  [parseKeysFromFile] on a path that does not exist returns an
    empty slice of keys and no error, without opening anything.  When
    [Stat] fails otherwise it returns the nil slice and that error.  When
    the file exists and [os.Open] fails, it does not return: the process is
    ended by [log.Fatal] with the error of [os.Open]. *)
Theorem parseKeysFromFile_without_a_file {W : Type} (h : FileHandler W)
    (parse : string -> error + PublicKey) (path : string) (w : W) :
  let r := frun h (parseKeysFromFile parse path) w in
  (forall e w1,
     h _ (BaseE (StatE path)) w = (Some e, w1) -> IsNotExist e = true ->
     r = (Returned (Some [], None), w1, [fact (BaseE (StatE path))]))
  /\ (forall e w1,
        h _ (BaseE (StatE path)) w = (Some e, w1) -> IsNotExist e = false ->
        r = (Returned (None, Some e), w1, [fact (BaseE (StatE path))]))
  /\ (forall w1 e w2,
        h _ (BaseE (StatE path)) w = (None, w1) ->
        h _ (OpenE path) w1 = (inl e, w2) ->
        r = (Exited (Error e), w2,
             [fact (BaseE (StatE path)); fact (OpenE path)])).
Proof.
  intros r. subst r. unfold parseKeysFromFile, fileExists.
  split; [| split].
  - intros e w1 Hstat Hmissing. cbn. rewrite Hstat. cbn.
    rewrite Hmissing. reflexivity.
  - intros e w1 Hstat Hother. cbn. rewrite Hstat. cbn.
    rewrite Hother. reflexivity.
  - intros w1 e w2 Hstat Hopen. cbn. rewrite Hstat. cbn.
    rewrite Hopen. reflexivity.
Qed.

Lemma parseKeysFromFile_without_a_file_witness :
  frun KeyFiles.handle (parseKeysFromFile KeyFiles.parse "no_such_keys")
    KeyFiles.keys_dir
  = (Returned (Some [], None), KeyFiles.keys_dir,
     [fact (BaseE (StatE "no_such_keys"))])
  /\ frun KeyFiles.handle (parseKeysFromFile KeyFiles.parse "secret_keys")
       KeyFiles.keys_dir
     = (Exited "open secret_keys: permission denied", KeyFiles.keys_dir,
        [fact (BaseE (StatE "secret_keys")); fact (OpenE "secret_keys")]).
Proof.
  split.
  - apply (proj1 (parseKeysFromFile_without_a_file KeyFiles.handle
                    KeyFiles.parse "no_such_keys" KeyFiles.keys_dir)
             _ _ eq_refl eq_refl).
  - apply (proj2 (proj2 (parseKeysFromFile_without_a_file KeyFiles.handle
                           KeyFiles.parse "secret_keys" KeyFiles.keys_dir))
             KeyFiles.keys_dir
             (ErrOther "open secret_keys: permission denied")
             KeyFiles.keys_dir eq_refl eq_refl).
Defined.

(** X17.  Once the file is open, [parseKeysFromFile] returns what
    [addKeys] makes of the file's scanner, keys and no error or the nil
    slice and the error, and on either path the file is closed, once, as
    the last call. *)
Theorem parseKeysFromFile_closes_the_file {W : Type} (h : FileHandler W)
    (parse : string -> error + PublicKey) (path : string)
    (w w1 w2 w3 : W) (f : File) (sc : Scanner) :
  h _ (BaseE (StatE path)) w = (None, w1) ->
  h _ (OpenE path) w1 = (inr f, w2) ->
  h _ (ScanFileE f) w2 = (sc, w3) ->
  frun h (parseKeysFromFile parse path) w =
  let '((keys, err), w4, tr) := run (base_handler h) (addKeys parse sc []) w3 in
  (Returned (match err with
             | Some e => (None, Some e)
             | None => (Some keys, None)
             end),
   snd (h _ (FileCloseE f) w4),
   ([fact (BaseE (StatE path)); fact (OpenE path); fact (ScanFileE f)]
    ++ map base_action tr ++ [fact (FileCloseE f)])%list).
Proof.
  intros Hstat Hopen Hscan. unfold parseKeysFromFile, fileExists.
  cbn -[addKeys]. rewrite Hstat. cbn -[addKeys]. rewrite Hopen.
  cbn -[addKeys]. rewrite Hscan.
  rewrite frun_fbind, frun_lift.
  destruct (run (base_handler h) (addKeys parse sc []) w3)
    as [[[keys err] w4] tr].
  cbn -[addKeys]. destruct (h _ (FileCloseE f) w4) as [u w5].
  destruct err; reflexivity.
Qed.

Lemma parseKeysFromFile_closes_the_file_witness :
  let r := frun KeyFiles.handle
             (parseKeysFromFile KeyFiles.parse "broken_keys")
             KeyFiles.keys_dir in
  fst (fst r) = Returned (None, Some (ErrOther "ssh: no key found"))
  /\ KeyFiles.closed (snd (fst r)) = ["broken_keys"]
  /\ List.length (filter is_file_close (snd r)) = 1%nat.
Proof.
  intros r. subst r.
  rewrite (parseKeysFromFile_closes_the_file KeyFiles.handle KeyFiles.parse
             "broken_keys" KeyFiles.keys_dir KeyFiles.keys_dir
             (snd (KeyFiles.handle _ (OpenE "broken_keys") KeyFiles.keys_dir))
             (snd (KeyFiles.handle _ (OpenE "broken_keys") KeyFiles.keys_dir))
             (FileAt "broken_keys")
             (mkScanner ["ssh-ed25519 AAAA alice"; "not a key";
                         "ssh-rsa BBBB bob"] None)
             eq_refl eq_refl eq_refl).
  vm_compute. repeat split; reflexivity.
Defined.

(** *** With and without a callback *)

(** X18.  Configuring a push callback changes nothing of what the handler's
    git logic does, in any session and any environment, except that the
    call of the callback is added at the end of an authorized push: the
    calls of [Middleware] are those of [MiddlewareWithPushCallback] without
    the callback call. *)
Theorem callback_only_adds_its_call {W : Type} (h : Handler W)
    (Short : string -> string) (repoDir : string) (auth : Auth)
    (f : PushCallback) (s : Session) (w : W) :
  trace (run h (dispatch Short repoDir auth (Some f) s) w) =
  (trace (run h (dispatch Short repoDir auth None s) w)
   ++ match Command s with
      | [gc; repo] =>
          if String.eqb gc "git-receive-pack" then
            match fst (h _ (AuthRepoE auth repo (SessionPublicKey s)) w) with
            | ReadWriteAccess | AdminAccess =>
                [act (PushCallbackE f repo (SessionPublicKey s))]
            | _ => []
            end
          else []
      | _ => []
      end)%list.
Proof.
  destruct (Nat.eq_dec (List.length (Command s)) 2) as [Hlen | Hlen].
  2: { rewrite !(dispatch_not_git h Short repoDir auth _ s w Hlen).
       destruct (Command s) as [| gc [| repo [| x l]]]; try reflexivity.
       exfalso; apply Hlen; reflexivity. }
  destruct (Command s) as [| gc [| repo [| x l]]] eqn:Hcmd;
    try discriminate Hlen.
  destruct (h _ (AuthRepoE auth repo (SessionPublicKey s)) w)
    as [access w1] eqn:Hauth.
  cbn [fst].
  destruct (String.eqb_spec gc "git-receive-pack") as [Hr | Hr].
  - subst gc.
    assert (Hacc : (access = NoAccess \/ access = ReadOnlyAccess)
                   \/ (access = ReadWriteAccess \/ access = AdminAccess))
      by (destruct access; auto).
    destruct Hacc as [Hno | Hyes].
    + rewrite !(dispatch_refused h Short repoDir auth _ s _ _ _ _ _
                  Hcmd Hauth) by auto.
      destruct Hno; subst access; reflexivity.
    + destruct (run h (gitReceivePack Short "git-receive-pack" repoDir repo) w1)
        as [[err w2] t2] eqn:Hrcv.
      rewrite !(dispatch_receive_allowed h Short repoDir auth _ s _ _ _ _ _
                  _ _ Hcmd Hauth Hyes Hrcv).
      cbn [callback_actions]. rewrite !app_nil_r.
      destruct Hyes; subst access; cbn [app]; rewrite <- app_assoc;
        reflexivity.
  - rewrite app_nil_r.
    destruct (String.eqb_spec gc "git-upload-pack") as [Hu | Hu];
      [| destruct (String.eqb_spec gc "git-upload-archive") as [Ha | Ha]].
    3: { rewrite !(dispatch_other h Short repoDir auth _ s _ _ _ Hcmd)
           by assumption.
         reflexivity. }
    all: assert (Hgc : gc = "git-upload-pack" \/ gc = "git-upload-archive")
           by auto.
    all: destruct access eqn:Hacc;
      [ rewrite !(dispatch_refused h Short repoDir auth _ s _ _ _ _ _
                    Hcmd Hauth) by auto; reflexivity
      | | | ].
    all: destruct (run h (gitUploadPack gc repoDir repo) w1)
           as [[err w2] t2] eqn:Hup.
    all: rewrite !(dispatch_upload_allowed h Short repoDir auth _ s _ _ _ _ _
                     _ _ _ Hcmd Hgc Hauth ltac:(discriminate) Hup);
           reflexivity.
Qed.

Lemma dispatch_trace {W : Type} (h : Handler W) (Short : string -> string)
    (repoDir : string) (auth : Auth) (cb : option PushCallback)
    (s : Session) (gc repo : string) (w w1 : W) (access : AccessLevel) :
  Command s = [gc; repo] ->
  h _ (AuthRepoE auth repo (SessionPublicKey s)) w = (access, w1) ->
  trace (run h (dispatch Short repoDir auth cb s) w) =
  act (AuthRepoE auth repo (SessionPublicKey s))
  :: (if String.eqb gc "git-receive-pack" then
        match access with
        | ReadWriteAccess | AdminAccess =>
            let '(err, _, t2) :=
              run h (gitReceivePack Short gc repoDir repo) w1 in
            (t2 ++ report_actions gc err
                ++ callback_actions cb repo (SessionPublicKey s))%list
        | _ =>
            [act (SessionWriteE (pktLine "you are not authorized to do this"));
             act (SessionExitE 1)]
        end
      else if String.eqb gc "git-upload-archive"
              || String.eqb gc "git-upload-pack" then
        match access with
        | NoAccess =>
            [act (SessionWriteE (pktLine "you are not authorized to do this"));
             act (SessionExitE 1)]
        | _ =>
            let '(err, _, t2) := run h (gitUploadPack gc repoDir repo) w1 in
            (t2 ++ report_actions gc err)%list
        end
      else []).
Proof.
  intros Hcmd Hauth.
  destruct (String.eqb_spec gc "git-receive-pack") as [Hr | Hr].
  - subst gc.
    assert (Hacc : (access = NoAccess \/ access = ReadOnlyAccess)
                   \/ (access = ReadWriteAccess \/ access = AdminAccess))
      by (destruct access; auto).
    destruct Hacc as [Hno | Hyes].
    + rewrite (dispatch_refused h Short repoDir auth cb s _ _ _ _ _
                 Hcmd Hauth) by auto.
      destruct Hno; subst access; reflexivity.
    + destruct (run h (gitReceivePack Short "git-receive-pack" repoDir repo) w1)
        as [[err w2] t2] eqn:Hrcv.
      rewrite (dispatch_receive_allowed h Short repoDir auth cb s _ _ _ _ _
                 _ _ Hcmd Hauth Hyes Hrcv).
      destruct Hyes; subst access; reflexivity.
  - destruct (String.eqb_spec gc "git-upload-archive") as [Ha | Ha];
      [| destruct (String.eqb_spec gc "git-upload-pack") as [Hu | Hu]].
    3: { rewrite (dispatch_other h Short repoDir auth cb s _ _ _ Hcmd)
           by assumption.
         reflexivity. }
    all: cbn [orb].
    all: assert (Hgc : gc = "git-upload-pack" \/ gc = "git-upload-archive")
           by auto.
    all: destruct access eqn:Hacc;
      [ rewrite (dispatch_refused h Short repoDir auth cb s _ _ _ _ _
                   Hcmd Hauth) by auto; reflexivity
      | | | ].
    all: destruct (run h (gitUploadPack gc repoDir repo) w1)
           as [[err w2] t2] eqn:Hup.
    all: rewrite (dispatch_upload_allowed h Short repoDir auth cb s _ _ _ _ _
                    _ _ _ Hcmd Hgc Hauth ltac:(discriminate) Hup);
           reflexivity.
Qed.

(** X19.  The handler's git logic writes at most one log line, and only for
    a git operation that returned an error: a log line in a session is the
    subcommand, [" error: "] and the message of the error that
    [gitReceivePack] or [gitUploadPack] returned in that session, and the
    client is then sent the generic line; conversely an authorized operation
    that returns an error is logged with that error's message.  A refusal
    is reported to the client but not logged. *)
Theorem only_failed_operations_are_logged {W : Type} (h : Handler W)
    (Short : string -> string) (repoDir : string) (auth : Auth)
    (cb : option PushCallback) (s : Session) (w : W) :
  let tr := trace (run h (dispatch Short repoDir auth cb s) w) in
  let returned := fun gc repo =>
    result
      (run h (if String.eqb gc "git-receive-pack"
              then gitReceivePack Short gc repoDir repo
              else gitUploadPack gc repoDir repo)
         (snd (h _ (AuthRepoE auth repo (SessionPublicKey s)) w))) in
  (count is_log tr <= 1)%nat
  /\ (forall a, In a tr -> is_log a = true ->
        exists gc repo e,
          Command s = [gc; repo]
          /\ returned gc repo = Some e
          /\ a = act (LogPrintfE (gc ++ " error: " ++ Error e))
          /\ session_output tr = "0019something went wrong" ++ newline)
  /\ (forall gc repo access e,
        Command s = [gc; repo] ->
        fst (h _ (AuthRepoE auth repo (SessionPublicKey s)) w) = access ->
        gc = "git-receive-pack"
          /\ (access = ReadWriteAccess \/ access = AdminAccess)
        \/ (gc = "git-upload-pack" \/ gc = "git-upload-archive")
          /\ access <> NoAccess ->
        returned gc repo = Some e ->
        In (act (LogPrintfE (gc ++ " error: " ++ Error e))) tr)
  /\ (session_output tr = "0026you are not authorized to do this" ++ newline ->
      count is_log tr = 0%nat).
Proof.
  intros tr returned.
  assert (Hnolog : forall a, touches_repo a = true -> is_log a = false)
    by (intros [X e]; destruct e; cbv; congruence).
  assert (Hcb : forall repo, count is_log (callback_actions cb repo
                                              (SessionPublicKey s)) = 0%nat
                /\ session_output (callback_actions cb repo
                                     (SessionPublicKey s)) = EmptyString
                /\ forall a, In a (callback_actions cb repo
                                     (SessionPublicKey s)) ->
                     is_log a = false).
  { intros repo. destruct cb as [f |]; repeat split.
    - intros a [<- | []]. reflexivity.
    - intros a []. }
  destruct (Nat.eq_dec (List.length (Command s)) 2) as [Hlen | Hlen].
  2: { unfold tr. rewrite (dispatch_not_git h Short repoDir auth cb s w Hlen).
       split; [cbv; lia |]. split; [intros a [] |].
       split; [| reflexivity].
       intros gc repo access e Hcmd. rewrite Hcmd in Hlen.
       exfalso; apply Hlen; reflexivity. }
  destruct (Command s) as [| gc [| repo [| x l]]] eqn:Hcmd;
    try discriminate Hlen.
  destruct (h _ (AuthRepoE auth repo (SessionPublicKey s)) w)
    as [access w1] eqn:Hauth.
  pose proof (dispatch_trace h Short repoDir auth cb s gc repo w w1 access
                Hcmd Hauth) as Htr.
  fold tr in Htr.
  (* the operation of this session, its result and its calls *)
  assert (Hop : exists op : Prog (option error),
            op = (if String.eqb gc "git-receive-pack"
                  then gitReceivePack Short gc repoDir repo
                  else gitUploadPack gc repoDir repo)
            /\ forallb touches_repo (trace (run h op w1)) = true).
  { eexists; split; [reflexivity |].
    destruct (String.eqb gc "git-receive-pack").
    - apply gitReceivePack_repo_only.
    - apply gitUploadPack_repo_only. }
  destruct Hop as [op [Hop Honly]].
  assert (Hret : forall gc' repo', [gc; repo] = [gc'; repo'] ->
            returned gc' repo' = result (run h op w1)).
  { intros gc' repo' Heq. injection Heq as <- <-.
    unfold returned. rewrite Hauth, Hop. reflexivity. }
  (* the two shapes of the calls after AuthRepo *)
  assert (Hshape :
    (exists rest,
       tr = act (AuthRepoE auth repo (SessionPublicKey s)) :: rest
       /\ count is_log rest = 0%nat
       /\ (forall a, In a rest -> is_log a = false)
       /\ ~ (gc = "git-receive-pack"
               /\ (access = ReadWriteAccess \/ access = AdminAccess)
             \/ (gc = "git-upload-pack" \/ gc = "git-upload-archive")
               /\ access <> NoAccess))
    \/ (exists t4,
          tr = (act (AuthRepoE auth repo (SessionPublicKey s))
                  :: trace (run h op w1)
                  ++ report_actions gc (result (run h op w1)) ++ t4)%list
          /\ count is_log t4 = 0%nat
          /\ session_output t4 = EmptyString
          /\ (forall a, In a t4 -> is_log a = false))).
  { rewrite Htr. subst op.
    destruct (String.eqb_spec gc "git-receive-pack") as [Hr | Hr].
    - destruct access.
      1, 2: left; eexists; split; [reflexivity |];
        split; [reflexivity |]; split;
        [ intros a [<- | [<- | []]]; reflexivity
        | intros [[_ [Ha | Ha]] | [[Hu | Hu] _]];
          try discriminate Ha; subst gc; discriminate Hu ].
      all: right;
        exists (callback_actions cb repo (SessionPublicKey s));
        destruct (run h (gitReceivePack Short gc repoDir repo) w1)
          as [[err w2] t2];
        split; [reflexivity | apply Hcb].
    - destruct (String.eqb gc "git-upload-archive"
                || String.eqb gc "git-upload-pack") eqn:Hup.
      + destruct access.
        1: left; eexists; split; [reflexivity |];
          split; [reflexivity |]; split;
          [ intros a [<- | [<- | []]]; reflexivity
          | intros [[Hgc _] | [_ Ha]]; [contradiction | apply Ha; reflexivity] ].
        all: right; exists [];
          destruct (run h (gitUploadPack gc repoDir repo) w1)
            as [[err w2] t2];
          rewrite app_nil_r;
          split; [reflexivity |]; repeat split; intros a [].
      + left. exists []. split; [reflexivity |].
        split; [reflexivity |]. split; [intros a [] |].
        apply orb_false_iff in Hup. destruct Hup as [Hua Hup].
        apply String.eqb_neq in Hua, Hup.
        intros [[Hgc _] | [[Hgc | Hgc] _]]; contradiction. }
  destruct Hshape as [[rest [Hrest [Hcount [Hnone Hnot]]]]
                     | [t4 [Hrest [Ht4c [Ht4o Ht4n]]]]].
  - (* nothing is logged *)
    split; [rewrite Hrest, count_cons, Hcount; cbv; lia |].
    split; [| split].
    + intros a Hin Hl. rewrite Hrest in Hin.
      destruct Hin as [<- | Hin]; [discriminate Hl |].
      rewrite (Hnone a Hin) in Hl. discriminate Hl.
    + intros gc' repo' access' e Heq Hacc' Hwhy.
      injection Heq as <- <-. rewrite Hauth in Hacc'. cbn [fst] in Hacc'.
      subst access'. contradiction.
    + intros _. rewrite Hrest, count_cons, Hcount. reflexivity.
  - (* the operation has run *)
    assert (Hout : session_output tr
                   = match result (run h op w1) with
                     | Some _ => "0019something went wrong" ++ newline
                     | None => EmptyString
                     end).
    { rewrite Hrest.
      change (session_output (?a :: ?l)) with (session_output l).
      rewrite !session_output_app, (repo_only_output _ Honly),
        report_actions_output, Ht4o, pktLine_SystemMalfunction.
      destruct (result (run h op w1)); reflexivity. }
    split; [| split; [| split]].
    + rewrite Hrest, count_cons, !count_app, Ht4c.
      rewrite (repo_only_count _ Honly is_log Hnolog).
      destruct (result (run h op w1)); cbv; lia.
    + intros a Hin Hl. rewrite Hrest in Hin.
      destruct Hin as [<- | Hin]; [discriminate Hl |].
      apply in_app_or in Hin. destruct Hin as [Hin | Hin].
      { rewrite forallb_forall in Honly.
        rewrite (Hnolog a (Honly a Hin)) in Hl. discriminate Hl. }
      apply in_app_or in Hin. destruct Hin as [Hin | Hin].
      * destruct (result (run h op w1)) as [e |] eqn:Hres; [| destruct Hin].
        destruct Hin as [<- | [<- | [<- | []]]]; try discriminate Hl.
        exists gc, repo, e.
        split; [reflexivity |].
        split; [exact (Hret gc repo eq_refl) |].
        split; [reflexivity | exact Hout].
      * rewrite (Ht4n a Hin) in Hl. discriminate Hl.
    + intros gc' repo' access' e Heq _ _ Hres.
      rewrite (Hret gc' repo' Heq) in Hres.
      injection Heq as <- <-.
      rewrite Hrest, Hres. right. apply in_or_app. right.
      left. reflexivity.
    + intros Hrefused. rewrite Hout in Hrefused.
      destruct (result (run h op w1)) as [e |].
      * exfalso. vm_compute in Hrefused. discriminate Hrefused.
      * rewrite Hrest, count_cons, !count_app, Ht4c.
        rewrite (repo_only_count _ Honly is_log Hnolog). reflexivity.
Qed.

Lemma only_failed_operations_are_logged_witness :
  let s := Scenario.push (Some "writer") in
  let tr := trace (run RefHost.handle
                     (dispatch RefHost.Short "/repos/" Scenario.theAuth None s)
                     Scenario.broken_git) in
  result (run RefHost.handle
            (gitReceivePack RefHost.Short "git-receive-pack" "/repos/"
               "team/app.git") Scenario.broken_git)
    = Some (ErrOther "exit status 1")
  /\ In (act (LogPrintfE "git-receive-pack error: exit status 1")) tr
  /\ (exists gc repo e,
        Command s = [gc; repo]
        /\ result
             (run RefHost.handle
                (if String.eqb gc "git-receive-pack"
                 then gitReceivePack RefHost.Short gc "/repos/" repo
                 else gitUploadPack gc "/repos/" repo)
                (snd (RefHost.handle _
                        (AuthRepoE Scenario.theAuth repo (SessionPublicKey s))
                        Scenario.broken_git))) = Some e
        /\ act (LogPrintfE "git-receive-pack error: exit status 1")
           = act (LogPrintfE (gc ++ " error: " ++ Error e))
        /\ session_output tr = "0019something went wrong" ++ newline)
  /\ count is_log
       (trace (run RefHost.handle
                 (dispatch RefHost.Short "/repos/" Scenario.theAuth None
                    (Scenario.push None)) Scenario.fresh)) = 0%nat.
Proof.
  intros s tr.
  destruct (only_failed_operations_are_logged RefHost.handle RefHost.Short
              "/repos/" Scenario.theAuth None s Scenario.broken_git)
    as [_ [Hlogged [Hfailed _]]].
  split; [vm_compute; reflexivity |].
  assert (Hin : In (act (LogPrintfE "git-receive-pack error: exit status 1"))
                   tr).
  { apply (Hfailed "git-receive-pack" "team/app.git" ReadWriteAccess
             (ErrOther "exit status 1") eq_refl eq_refl).
    - left. split; [reflexivity | left; reflexivity].
    - vm_compute. reflexivity. }
  split; [exact Hin |]. split.
  - exact (Hlogged _ Hin eq_refl).
  - apply (proj2 (proj2 (proj2
             (only_failed_operations_are_logged RefHost.handle RefHost.Short
                "/repos/" Scenario.theAuth None (Scenario.push None)
                Scenario.fresh)))).
    vm_compute. reflexivity.
Defined.
